(** * videosplitter: a browser video splitter and merger

    A shallow embedding of the TypeScript sources

      - [lib/types.ts]            (segments and results),
      - [lib/video-processor.ts]  (the processing routine),
      - the uploader, results viewer and application components,

    followed by the properties of the processing contract.

    Numbers.  A JavaScript [number] that holds a time or a progress value is
    modelled by a rational [Q]: the values are finite (slider positions,
    [Math.floor] of a duration, a ratio of two counters), and on finite
    values the comparisons of the source are the comparisons of [Q].
    Rounding is not modelled.

    Strings.  A string is a [string] of 8-bit code units. *)

From Stdlib Require Import List String Ascii Bool Arith Lia ZArith QArith.
From Stdlib Require DecimalString.
Import ListNotations.

Local Close Scope Q_scope.
Local Open Scope nat_scope.
Local Open Scope string_scope.
Local Open Scope list_scope.

(** ** The string methods the sources call *)

Module JS.

(** [s.startsWith(p)] *)
Definition startsWith (s p : string) : bool := String.prefix p s.

(** [s.includes(sub)]: [sub] occurs at some position of [s]. *)
Fixpoint includes (s sub : string) : bool :=
  if String.prefix sub s then true
  else match s with
       | EmptyString => false
       | String _ rest => includes rest sub
       end.

(** A string used as a condition: false exactly on the empty string. *)
Definition truthy (s : string) : bool :=
  match s with
  | EmptyString => false
  | String _ _ => true
  end.

(** White space and line terminators among the 8-bit code units:
    TAB, LF, VT, FF, CR, SP and NBSP. *)
Definition isWhiteSpace (c : ascii) : bool :=
  let n := nat_of_ascii c in
  (((9 <=? n) && (n <=? 13)) || (n =? 32) || (n =? 160))%nat.

Fixpoint trimStart (s : string) : string :=
  match s with
  | EmptyString => EmptyString
  | String c rest => if isWhiteSpace c then trimStart rest else s
  end.

Fixpoint trimEnd (s : string) : string :=
  match s with
  | EmptyString => EmptyString
  | String c rest =>
      match trimEnd rest with
      | EmptyString => if isWhiteSpace c then EmptyString else String c EmptyString
      | kept => String c kept
      end
  end.

(** [s.trim()] *)
Definition trim (s : string) : string := trimEnd (trimStart s).

(** [s.split(sep)] for a one-character separator.  The result is never
    empty: a string without the separator gives the one-element list. *)
Fixpoint split (sep : ascii) (s : string) : list string :=
  match s with
  | EmptyString => [EmptyString]
  | String c rest =>
      if Ascii.eqb c sep then EmptyString :: split sep rest
      else match split sep rest with
           | [] => [String c EmptyString]
           | piece :: pieces => String c piece :: pieces
           end
  end.

(** [a.pop()] on a fresh array: the last element, if any. *)
Definition pop {A} (l : list A) : option A := List.last (List.map Some l) None.

Definition lowerChar (c : ascii) : ascii :=
  let n := nat_of_ascii c in
  if ((65 <=? n) && (n <=? 90))%nat then ascii_of_nat (n + 32) else c.

(** [s.toLowerCase()] on 8-bit code units (the ASCII letters). *)
Fixpoint toLowerCase (s : string) : string :=
  match s with
  | EmptyString => EmptyString
  | String c rest => String (lowerChar c) (toLowerCase rest)
  end.

(** Every code unit of [s] is white space. *)
Fixpoint allWhiteSpace (s : string) : bool :=
  match s with
  | EmptyString => true
  | String c rest => isWhiteSpace c && allWhiteSpace rest
  end.

(** [`${n}`] for a counter [n]. *)
Definition numberToString (n : nat) : string :=
  DecimalString.NilZero.string_of_uint (Nat.to_uint n).

End JS.

(** ** [lib/types.ts] *)

(** A [Blob]: its bytes and its declared media type. *)
Record Blob := mkBlob {
  blob_data : list nat;
  blob_type : string
}.

Record VideoSegment := mkSegment {
  seg_start : Q;
  seg_end : Q
}.

Record OutputVideo := mkOutput {
  out_name : string;
  out_url : string;
  out_blob : Blob;
  out_format : option string
}.

(** The element type of [videoConfigs]. *)
Record VideoConfig := mkConfig {
  name : string;
  segments : list VideoSegment
}.

(** A [File] as the uploader sees it. *)
Record File := mkFile {
  file_name : string;
  file_type : string
}.

(** ** The uploader component *)

Module VideoUploader.

(** What a handler did: the new value of [isDragging] and the calls it
    made to the [onVideoUpload] property, in order. *)
Record Handled := mkHandled {
  isDragging : bool;
  onVideoUpload : list File
}.

(** [handleDrop], on the [files] of the event's [dataTransfer]. *)
Definition handleDrop (files : option (list File)) : Handled :=
  match files with
  | Some (file :: _) =>
      if JS.startsWith (file_type file) "video/"
      then mkHandled false [file]
      else mkHandled false []
  | _ => mkHandled false []
  end.

(** [handleFileChange], on the [files] of the input element; [dragging]
    is the state the handler leaves alone.  The attribute
    [accept="video/*"] of the input only presets the filter of the
    picker: the handler gets whatever file was chosen. *)
Definition handleFileChange (dragging : bool) (files : option (list File)) : Handled :=
  match files with
  | Some (file :: _) => mkHandled dragging [file]
  | _ => mkHandled dragging []
  end.

End VideoUploader.

(** ** The results viewer *)

Module ResultsViewer.

(** The extension chosen by [handleDownload]. *)
Definition extension (video : OutputVideo) : string :=
  let format_truthy :=
    match out_format video with
    | Some f => JS.truthy f
    | None => false
    end in
  let format := match out_format video with Some f => f | None => "" end in
  let ty := blob_type (out_blob video) in
  if format_truthy then
    if JS.includes format "webm" then "webm"
    else if JS.includes format "ogg" then "ogg"
    else if JS.includes format "quicktime" then "mov"
    else if JS.includes format "m4a" then "m4a"
    else "mp4"
  else if JS.truthy ty then
    if JS.includes ty "webm" then "webm"
    else if JS.includes ty "ogg" then "ogg"
    else if JS.includes ty "quicktime" then "mov"
    else "mp4"
  else "mp4".

(** The anchor that [handleDownload] creates and clicks. *)
Record Anchor := mkAnchor {
  href : string;
  download : string
}.

Definition handleDownload (video : OutputVideo) : Anchor :=
  mkAnchor (out_url video) (out_name video ++ "." ++ extension video)%string.

End ResultsViewer.

(** ** [lib/video-processor.ts] *)

Module VideoProcessor.

(** *** The browser

    The routine drives the browser through events and promises.  What the
    browser answers is a parameter of the model: one record says, for every
    point where the routine waits, what happened there. *)

(** The points where [processVideos] is suspended. *)
Inductive AwaitPoint :=
| AtSourceLoad
| AtSegment (configIndex segIdx : nat)
| AtCombine (configIndex : nat).

(** What becomes of the source element of [processVideos]:
    [onloadedmetadata] with the element's properties, or [onerror]. *)
Inductive SourceLoad :=
| LoadedMetadata (videoWidth videoHeight : Z) (mozHasAudio : bool)
| LoadError.

(** What [captureStream] finds on an element. *)
Record CaptureEnv := mkCapture {
  hasCaptureStream : bool;      (* [videoElement.captureStream] is defined *)
  canvasContext : bool;         (* [canvas.getContext("2d")] is not null *)
  canvasCaptureStream : bool    (* [canvas.captureStream(30)] does not throw *)
}.

(** One recording of a segment, as the browser lets it go. *)
Record SegmentEnv := mkSegmentEnv {
  seg_loaded : bool;                 (* [onloadedmetadata], else [onerror] *)
  seg_capture : CaptureEnv;
  seg_recorder : option string;      (* [new MediaRecorder] throws this message *)
  seg_played : bool;                 (* [play()] does not reject while the
                                        recorder runs: it resolves, or is
                                        still pending when the timer stops
                                        the recorder; else it rejects *)
  seg_chunks : list (list nat)       (* the data of the [dataavailable] events *)
}.

(** One run of the [onloadedmetadata] handler of [combineVideoSegments],
    up to its call of [playNextSegment]. *)
Record HandlerEnv := mkHandlerEnv {
  run_canvasContext : bool;          (* [canvas.getContext("2d")] is not null *)
  run_capture : CaptureEnv;
  run_recorder : string -> option string
                                     (* [new MediaRecorder] with this
                                        [mimeType] throws this message *)
}.

(** What the element does first after [playNextSegment] has assigned
    [src] and called [play()].  The assignment starts a new load of the
    element, so no playback begins, and no [ended] is fired, before one of
    these:
    - [PlayRejected]: the promise of [play()] rejects with [error];
    - [ReloadError]: the new load fails, [onerror] runs;
    - [MetadataAgain]: the new load has its metadata, [loadedmetadata]
      fires again and the handler, which stays assigned to
      [onloadedmetadata], runs again as [again]; [abort] is the error
      with which the browser rejects a pending [play()] when [src] is
      assigned. *)
Inductive AfterPlay :=
| PlayRejected (error : string)
| ReloadError
| MetadataAgain (again : HandlerEnv) (abort : string).

(** One re-recording of several segments. *)
Record CombineEnv := mkCombineEnv {
  comb_loaded : bool;                (* [onloadedmetadata], else [onerror] *)
  comb_handler : HandlerEnv;         (* the first run of the handler *)
  comb_afterPlay : AfterPlay
}.

(** [MediaRecorder] exists in the browser; its constructor may still
    throw (see [seg_recorder]). *)
Record Browser := mkBrowser {
  isTypeSupported : string -> bool;          (* [MediaRecorder.isTypeSupported] *)
  sourceLoad : SourceLoad;
  segmentEnv : nat -> nat -> SegmentEnv;     (* by configuration and segment *)
  combineEnv : nat -> CombineEnv;            (* by configuration *)
  createObjectURL : nat -> string;           (* the URL made for a configuration *)
  cancelDuring : AwaitPoint -> bool          (* the user cancels while it waits *)
}.

(** *** Results, effects and the monad of the routine *)

Inductive Result (A : Type) :=
| Ok (value : A)
| Throw (message : string).
Arguments Ok {A} value.
Arguments Throw {A} message.

(** Who assigns [isCancelled]. *)
Inductive Writer := ByProcessVideos | ByCancelProcessing.

(** The steps of a run, in order; each stands at one place of the source:
    - [FlagWrite]: an assignment to [isCancelled], by [processVideos] on
      entry or by [cancelProcessing];
    - [FlagRead]: the test [if (isCancelled)] at the start of an iteration;
    - [ConfigStarted]: the iteration goes on after that test;
    - [SegmentStarted]: [extractVideoSegment] is called;
    - [SegmentRecorded]: its promise resolved and the blob was pushed onto
      [segmentBlobs];
    - [OnProgress]: the call [onProgress(progress)];
    - [CombineCalled]: [combineVideoSegments] is entered;
    - [Rerecording]: it goes past its two early exits and re-records;
    - [OutputPushed]: [outputVideos.push]. *)
Inductive Effect :=
| FlagWrite (who : Writer) (value : bool)
| FlagRead (configIndex : nat) (value : bool)
| ConfigStarted (configIndex : nat)
| SegmentStarted (configIndex segIdx : nat)
| SegmentRecorded (configIndex segIdx : nat) (segmentBlob : Blob)
| OnProgress (progress : Q)
| CombineCalled (configIndex : nat) (segmentBlobs : list Blob)
| Rerecording (configIndex : nat) (segmentBlobs : list Blob)
| OutputPushed (configIndex : nat) (video : OutputVideo).

(** A computation takes the module variable [isCancelled] and gives a
    result, the new [isCancelled] and the steps it made. *)
Record Outcome (A : Type) := mkOutcome {
  result : Result A;
  flag : bool;
  trace : list Effect
}.
Arguments mkOutcome {A} result flag trace.
Arguments result {A} o.
Arguments flag {A} o.
Arguments trace {A} o.

Definition M (A : Type) := bool -> Outcome A.

Definition ret {A} (a : A) : M A := fun isCancelled => mkOutcome (Ok a) isCancelled [].

Definition throw {A} (message : string) : M A :=
  fun isCancelled => mkOutcome (Throw message) isCancelled [].

Definition bind {A B} (m : M A) (k : A -> M B) : M B :=
  fun isCancelled =>
    let o := m isCancelled in
    match result o with
    | Ok a => let o' := k a (flag o) in
              mkOutcome (result o') (flag o') (trace o ++ trace o')
    | Throw message => mkOutcome (Throw message) (flag o) (trace o)
    end.

(** [try { m } catch (error) { handler(error.message) }] *)
Definition catch {A} (m : M A) (handler : string -> M A) : M A :=
  fun isCancelled =>
    let o := m isCancelled in
    match result o with
    | Ok a => o
    | Throw message => let o' := handler message (flag o) in
                       mkOutcome (result o') (flag o') (trace o ++ trace o')
    end.

Definition emit (e : Effect) : M unit := fun isCancelled => mkOutcome (Ok tt) isCancelled [e].

Definition readFlag (configIndex : nat) : M bool :=
  fun isCancelled => mkOutcome (Ok isCancelled) isCancelled [FlagRead configIndex isCancelled].

Definition writeFlag (who : Writer) (value : bool) : M unit :=
  fun _ => mkOutcome (Ok tt) value [FlagWrite who value].

Definition liftResult {A} (r : Result A) : M A :=
  fun isCancelled => mkOutcome r isCancelled [].

Declare Scope proc_scope.
Delimit Scope proc_scope with proc.
Notation "x <- m ;; k" := (bind m (fun x => k))
  (at level 100, m at next level, right associativity) : proc_scope.
Notation "m ;;; k" := (bind m (fun _ => k))
  (at level 100, right associativity) : proc_scope.
Local Open Scope proc_scope.

(** *** [cancelProcessing] *)

Definition cancelProcessing : M unit := writeFlag ByCancelProcessing true.

(** *** [VideoProperties] and [getVideoProperties] *)

Record VideoProperties := mkProperties {
  width : Z;
  height : Z;
  frameRate : Z;
  bitrate : Z;
  format : string;
  hasAudio : bool
}.

Definition formatOfExtension (extension : string) : string :=
  if String.eqb extension "mp4" then "video/mp4"
  else if String.eqb extension "webm" then "video/webm"
  else if String.eqb extension "ogg" then "video/ogg"
  else if String.eqb extension "mov" then "video/quicktime"
  else if String.eqb extension "m4a" || String.eqb extension "m4v" then "video/mp4"
  else if String.eqb extension "avi" then "video/x-msvideo"
  else "video/mp4".

Definition getVideoProperties (videoWidth videoHeight : Z) (mozHasAudio : bool)
    (videoUrl : string) : VideoProperties :=
  let extension := option_map JS.toLowerCase (JS.pop (JS.split "." videoUrl)) in
  let format :=
    match extension with
    | Some ext => if JS.truthy ext then formatOfExtension ext else "video/mp4"
    | None => "video/mp4"
    end in
  let bitrate :=
    (if 3840 <=? videoWidth then 20000000
     else if 1920 <=? videoWidth then 8000000
     else if 1280 <=? videoWidth then 5000000
     else 2500000)%Z in
  mkProperties videoWidth videoHeight 30%Z bitrate format (negb mozHasAudio).

(** *** [captureStream] *)

Inductive MediaStream := ElementStream | CanvasStream.

Definition captureStream (element : CaptureEnv) : option MediaStream :=
  if hasCaptureStream element then Some ElementStream
  else if canvasContext element then
    if canvasCaptureStream element then Some CanvasStream else None
  else None.

(** The bytes of [new Blob(chunks)], where a handler kept the chunks of
    positive size. *)
Definition keptChunks (chunks : list (list nat)) : list (list nat) :=
  List.filter (fun data => (0 <? List.length data)%nat) chunks.

Definition blobOfChunks (chunks : list (list nat)) (outputFormat : string) : Blob :=
  mkBlob (List.concat (keptChunks chunks)) (List.hd "" (JS.split ";" outputFormat)).

Section Run.

Variable browser : Browser.

(** The user may cancel while the routine waits at [p]. *)
Definition await (p : AwaitPoint) : M unit :=
  if cancelDuring browser p then cancelProcessing else ret tt.

(** *** [extractVideoSegment] *)

Definition segmentOutputFormat (videoProperties : VideoProperties) : string :=
  let f := format videoProperties in
  if JS.includes f "mp4" || JS.includes f "m4a" then
    if isTypeSupported browser "video/mp4;codecs=h264,aac" then "video/mp4;codecs=h264,aac"
    else if isTypeSupported browser "video/mp4" then "video/mp4"
    else "video/webm;codecs=vp9,opus"
  else if JS.includes f "webm" then
    if isTypeSupported browser "video/webm;codecs=vp9,opus" then "video/webm;codecs=vp9,opus"
    else if isTypeSupported browser "video/webm;codecs=vp8,opus" then "video/webm;codecs=vp8,opus"
    else "video/webm;codecs=vp9,opus"
  else "video/webm;codecs=vp9,opus".

(** How the promise of [extractVideoSegment] settles. *)
Definition extractSettles (videoProperties : VideoProperties) (env : SegmentEnv)
    : Result Blob :=
  let outputFormat := segmentOutputFormat videoProperties in
  if seg_loaded env then
    match captureStream (seg_capture env) with
    | None => Throw "Failed to capture stream from video element"
    | Some _ =>
        match seg_recorder env with
        | Some message => Throw message
        | None =>
            if seg_played env
            then Ok (blobOfChunks (seg_chunks env) outputFormat)
            else Throw "Failed to play video"
        end
    end
  else Throw "Video error during segment extraction".

Definition extractVideoSegment (videoUrl : string) (startTime endTime : Q)
    (videoProperties : VideoProperties) (configIndex segIdx : nat) : M Blob :=
  await (AtSegment configIndex segIdx) ;;;
  liftResult (extractSettles videoProperties (segmentEnv browser configIndex segIdx)).

(** *** [combineVideoSegments] *)

(** The type the recorders of the re-recording are made with. *)
Definition combineOutputFormat (videoProperties : VideoProperties) : string :=
  let f := format videoProperties in
  if JS.includes f "mp4" || JS.includes f "m4a" then
    if isTypeSupported browser "video/mp4;codecs=h264,aac" then "video/mp4;codecs=h264,aac"
    else if isTypeSupported browser "video/mp4" then "video/mp4"
    else "video/webm;codecs=vp9,opus"
  else if JS.includes f "webm" then
    if isTypeSupported browser "video/webm;codecs=vp9,opus" then "video/webm;codecs=vp9,opus"
    else "video/webm;codecs=vp9,opus"
  else "video/webm;codecs=vp9,opus".

(** The [try] block of the [onloadedmetadata] handler up to its call of
    [playNextSegment]: the message of the error it throws, which the
    [catch] block passes to [reject]; [None] when it gets to the call. *)
Definition handlerThrows (outputFormat : string) (run : HandlerEnv) : option string :=
  if run_canvasContext run then
    match captureStream (run_capture run) with
    | None => Some "Failed to capture stream from video element"
    | Some _ => run_recorder run outputFormat
    end
  else Some "Could not get canvas context".

(** [`Error playing segment ${currentSegmentIndex + 1}: ${error}`], the
    message of the [catch] of [play()] in [playNextSegment]. *)
Definition playError (currentSegmentIndex : nat) (error : string) : string :=
  "Error playing segment " ++ JS.numberToString (currentSegmentIndex + 1) ++ ": " ++ error.

(** How the promise of the re-recording of two or more blobs settles.

    The first run of the handler ends in [playNextSegment], which finds
    [currentSegmentIndex = 0] below the number of blobs, assigns [src],
    calls [play()] and leaves [currentSegmentIndex = 1] with the promise
    of [play()] pending.  When [loadedmetadata] fires for that
    assignment the handler runs again, with a recorder and a
    [playNextSegment] of its own over the same [currentSegmentIndex]; its
    [playNextSegment] finds [1] below the number of blobs, assigns [src],
    which rejects the pending promise of the first [play()], and leaves
    [currentSegmentIndex = 2]; the [catch] of the first [play()] then
    rejects the promise of the re-recording.  The [resolve] of [onstop]
    comes after a [reject] on every path. *)
Definition combineSettles (videoProperties : VideoProperties) (env : CombineEnv)
    : Result Blob :=
  let outputFormat := combineOutputFormat videoProperties in
  if comb_loaded env then
    match handlerThrows outputFormat (comb_handler env) with
    | Some message => Throw message
    | None =>
        match comb_afterPlay env with
        | PlayRejected error => Throw (playError 1 error)
        | ReloadError => Throw "Video error during combination"
        | MetadataAgain again abort =>
            match handlerThrows outputFormat again with
            | Some message => Throw message
            | None => Throw (playError 2 abort)
            end
        end
    end
  else Throw "Video error during combination".

Definition combineVideoSegments (segmentBlobs : list Blob)
    (videoProperties : VideoProperties) (configIndex : nat) : M Blob :=
  emit (CombineCalled configIndex segmentBlobs) ;;;
  match segmentBlobs with
  | [] => throw "No segments to combine"
  | [only] => ret only
  | _ :: _ :: _ =>
      emit (Rerecording configIndex segmentBlobs) ;;;
      await (AtCombine configIndex) ;;;
      liftResult (combineSettles videoProperties (combineEnv browser configIndex))
  end.

(** *** [processVideos] *)

(** [(processedSegments / totalSegments) * 100] *)
Definition progressValue (processedSegments totalSegments : nat) : Q :=
  ((inject_Z (Z.of_nat processedSegments) / inject_Z (Z.of_nat totalSegments)) * 100)%Q.

Definition totalSegmentsOf (videoConfigs : list VideoConfig) : nat :=
  List.fold_left (fun total config => total + List.length (segments config)) videoConfigs 0.

Section Loops.

Variable videoUrl : string.
Variable videoProperties : VideoProperties.
Variable totalSegments : nat.

(** The loop over [config.segments], from [segIdx] on; it carries
    [processedSegments] and [segmentBlobs]. *)
Fixpoint segmentLoop (configIndex : nat) (rest : list VideoSegment)
    (segIdx processedSegments : nat) (segmentBlobs : list Blob)
    : M (nat * list Blob) :=
  match rest with
  | [] => ret (processedSegments, segmentBlobs)
  | segment :: rest' =>
      step <- catch
        (emit (SegmentStarted configIndex segIdx) ;;;
         segmentBlob <- extractVideoSegment videoUrl (seg_start segment)
                          (seg_end segment) videoProperties configIndex segIdx ;;
         emit (SegmentRecorded configIndex segIdx segmentBlob) ;;;
         let segmentBlobs := segmentBlobs ++ [segmentBlob] in
         let processedSegments := S processedSegments in
         emit (OnProgress (progressValue processedSegments totalSegments)) ;;;
         ret (processedSegments, segmentBlobs))
        (fun error => throw error) ;;
      segmentLoop configIndex rest' (S segIdx) (fst step) (snd step)
  end.

(** The body of the loop over [videoConfigs], after the check of
    [isCancelled]. *)
Definition processConfig (configIndex : nat) (config : VideoConfig)
    (processedSegments : nat) : M (nat * OutputVideo) :=
  catch
    (done <- segmentLoop configIndex (segments config) 0 processedSegments [] ;;
     let segmentBlobs := snd done in
     finalBlob <-
       match segmentBlobs with
       | [only] => ret only
       | _ =>
           catch (combineVideoSegments segmentBlobs videoProperties configIndex)
             (fun message =>
                throw ("Failed to combine video segments: " ++ message)%string)
       end ;;
     let url := createObjectURL browser configIndex in
     let video := mkOutput (name config) url finalBlob (Some (format videoProperties)) in
     emit (OutputPushed configIndex video) ;;;
     ret (fst done, video))
    (fun error => throw error).

(** The loop over [videoConfigs], from [configIndex] on; it carries
    [processedSegments] and [outputVideos]. *)
Fixpoint configLoop (rest : list VideoConfig) (configIndex processedSegments : nat)
    (outputVideos : list OutputVideo) : M (list OutputVideo) :=
  match rest with
  | [] => ret outputVideos
  | config :: rest' =>
      cancelled <- readFlag configIndex ;;
      if cancelled : bool then throw "Processing cancelled"
      else
        emit (ConfigStarted configIndex) ;;;
        step <- processConfig configIndex config processedSegments ;;
        configLoop rest' (S configIndex) (fst step) (outputVideos ++ [snd step])
  end.

End Loops.

Definition processVideos (videoUrl : string) (videoConfigs : list VideoConfig)
    : M (list OutputVideo) :=
  writeFlag ByProcessVideos false ;;;
  await AtSourceLoad ;;;
  match sourceLoad browser with
  | LoadError => throw "Failed to load video"
  | LoadedMetadata videoWidth videoHeight mozHasAudio =>
      let videoProperties :=
        getVideoProperties videoWidth videoHeight mozHasAudio videoUrl in
      let totalSegments := totalSegmentsOf videoConfigs in
      configLoop videoUrl videoProperties totalSegments videoConfigs 0 0 []
  end.

End Run.

End VideoProcessor.

(** ** The application component *)

Module App.

Import VideoProcessor.

Record Toast := mkToast {
  title : string;
  description : string;
  destructive : bool
}.

Definition errorToast (description : string) : Toast := mkToast "Error" description true.

(** The state of [VideoSplitterApp] that the handlers use. *)
Record State := mkState {
  uploadedVideo : option File;
  videoUrl : option string;
  videoDuration : Q;
  outputVideos : list OutputVideo;
  isProcessing : bool;
  progress : Q;
  activeTab : string;
  videoConfigs : list VideoConfig
}.

Definition quote : string := String "034"%char EmptyString.

(** The loop over [config.segments] of the validation: the toast of the
    first segment that is refused. *)
Fixpoint validateSegments (videoDuration : Q) (configName : string)
    (segs : list VideoSegment) : option Toast :=
  match segs with
  | [] => None
  | segment :: rest =>
      if Qle_bool (seg_end segment) (seg_start segment) then
        Some (errorToast ("Invalid time range in " ++ quote ++ configName ++ quote
                          ++ ": start must be before end")%string)
      else if negb (Qle_bool (seg_end segment) videoDuration) then
        Some (errorToast ("End time exceeds video duration in " ++ quote ++ configName
                          ++ quote)%string)
      else validateSegments videoDuration configName rest
  end.

(** The loop over [videoConfigs] of the validation. *)
Fixpoint validateConfigs (videoDuration : Q) (configs : list VideoConfig)
    : option Toast :=
  match configs with
  | [] => None
  | config :: rest =>
      if negb (JS.truthy (JS.trim (name config))) then
        Some (errorToast "All videos must have a name")
      else if (List.length (segments config) =? 0)%nat then
        Some (errorToast ("Video " ++ quote ++ name config ++ quote
                          ++ " has no segments")%string)
      else
        match validateSegments videoDuration (name config) (segments config) with
        | Some toast => Some toast
        | None => validateConfigs videoDuration rest
        end
  end.

(** What [handleStartProcessing] leaves behind: the component state, the
    toasts shown, the module variable [isCancelled] of the processor and
    the steps the processor made. *)
Record Handled := mkHandled {
  state : State;
  toasts : list Toast;
  isCancelled : bool;
  steps : list Effect
}.

(** [handleStartProcessing]: [app] is the component state, [cancelled] the
    processor's [isCancelled] when the handler is called. *)
Definition handleStartProcessing (browser : Browser) (app : State) (cancelled : bool)
    : Handled :=
  match uploadedVideo app, videoUrl app with
  | Some _, Some url =>
      if JS.truthy url then
        match validateConfigs (videoDuration app) (videoConfigs app) with
        | Some toast => mkHandled app [toast] cancelled []
        | None =>
            let run := processVideos browser url (videoConfigs app) cancelled in
            let outputs :=
              match result run with
              | Ok results => results
              | Throw _ => outputVideos app
              end in
            let toast :=
              match result run with
              | Ok _ => mkToast "Success" "Videos processed successfully" false
              | Throw message => errorToast message
              end in
            mkHandled
              (mkState (uploadedVideo app) (videoUrl app) (videoDuration app)
                 outputs false 100%Q "results" (videoConfigs app))
              [toast] (flag run) (trace run)
        end
      else mkHandled app [errorToast "Please upload a video first"] cancelled []
  | _, _ => mkHandled app [errorToast "Please upload a video first"] cancelled []
  end.

End App.

(** ** The download name, in the words of the interface description

    The extension is inferred from the declared format when it is present,
    else from the media type of the blob, and is [mp4] when nothing known
    is found. *)

Module DownloadSpec.

(** The format field when it is present: defined and not empty. *)
Definition declaredFormat (video : OutputVideo) : option string :=
  match out_format video with
  | Some f => if JS.truthy f then Some f else None
  | None => None
  end.

(** The known extensions of a format field. *)
Definition knownOfFormat (f : string) : option string :=
  if JS.includes f "webm" then Some "webm"
  else if JS.includes f "ogg" then Some "ogg"
  else if JS.includes f "quicktime" then Some "mov"
  else if JS.includes f "m4a" then Some "m4a"
  else None.

(** The known extensions of a blob's media type. *)
Definition knownOfMediaType (t : string) : option string :=
  if JS.includes t "webm" then Some "webm"
  else if JS.includes t "ogg" then Some "ogg"
  else if JS.includes t "quicktime" then Some "mov"
  else None.

Definition orMp4 (known : option string) : string :=
  match known with
  | Some e => e
  | None => "mp4"
  end.

Definition inferredExtension (video : OutputVideo) : string :=
  match declaredFormat video with
  | Some f => orMp4 (knownOfFormat f)
  | None => orMp4 (knownOfMediaType (blob_type (out_blob video)))
  end.

End DownloadSpec.

(** ** Sample inputs *)

Module Samples.

Import VideoProcessor.

Definition textFile : File := mkFile "notes.txt" "text/plain".

Definition fullCapture : CaptureEnv := mkCapture true true true.

(** A recording that goes well and delivers [data] twice around an empty
    chunk. *)
Definition goodSegment (data : list nat) : SegmentEnv :=
  mkSegmentEnv true fullCapture None true [data; []; data].

(** The error of a [play()] that a new assignment of [src] interrupts. *)
Definition abortError : string :=
  "AbortError: The play() request was interrupted by a new load request.".

(** A re-recording in which every step of the setup works, both times. *)
Definition goodCombine : CombineEnv :=
  mkCombineEnv true (mkHandlerEnv true fullCapture (fun _ => None))
    (MetadataAgain (mkHandlerEnv true fullCapture (fun _ => None)) abortError).

Definition never : AwaitPoint -> bool := fun _ => false.

(** A browser in which every step of a recording works; [cancels] says
    when the user cancels. *)
Definition goodBrowser (cancels : AwaitPoint -> bool) : Browser :=
  mkBrowser (fun _ => true) (LoadedMetadata 1920 1080 false)
    (fun configIndex segIdx => goodSegment [configIndex; segIdx])
    (fun _ => goodCombine)
    (fun configIndex => "blob:result")
    cancels.

Definition sourceUrl : string := "blob:http://localhost/source".

(** The two scenarios of the description: a ten second source, one
    configuration of one segment and one of two; and a third
    configuration of one segment. *)
Definition clipA : VideoConfig := mkConfig "Clip A" [mkSegment 0%Q 5%Q].
Definition clipB : VideoConfig := mkConfig "Clip B" [mkSegment 0%Q 3%Q; mkSegment 6%Q 9%Q].
Definition clipC : VideoConfig := mkConfig "Clip C" [mkSegment 6%Q 9%Q].

(** The user cancels while the first segment of the second configuration
    is being recorded. *)
Definition cancelInSecond (p : AwaitPoint) : bool :=
  match p with
  | AtSegment 1 0 => true
  | _ => false
  end.

(** The user cancels while the only segment of the first configuration
    is being recorded. *)
Definition cancelInFirst (p : AwaitPoint) : bool :=
  match p with
  | AtSegment 0 0 => true
  | _ => false
  end.

(** A browser that refuses to play the first segment of the second
    configuration. *)
Definition noPlayback : Browser :=
  mkBrowser (fun _ => true) (LoadedMetadata 1920 1080 false)
    (fun configIndex segIdx =>
       match configIndex, segIdx with
       | 1, 0 => mkSegmentEnv true fullCapture None false []
       | _, _ => goodSegment [configIndex; segIdx]
       end)
    (fun _ => goodCombine)
    (fun configIndex => "blob:result")
    never.

(** The properties computed for the sample source. *)
Definition sourceProperties : VideoProperties :=
  getVideoProperties 1920 1080 false sourceUrl.

(** The outputs of [[clipA; clipC]] in the good browser. *)
Definition expectedOutputs : list OutputVideo :=
  [mkOutput "Clip A" "blob:result" (mkBlob [0; 0; 0; 0] "video/mp4") (Some "video/mp4");
   mkOutput "Clip C" "blob:result" (mkBlob [1; 0; 1; 0] "video/mp4") (Some "video/mp4")].

(** The message with which the second scenario ends in the good browser. *)
Definition combineFailure : string :=
  "Failed to combine video segments: Error playing segment 3: AbortError: The play() request was interrupted by a new load request.".

(** Configurations that the validation refuses. *)
Definition backwards : VideoConfig := mkConfig "Backwards" [mkSegment 5%Q 3%Q].
Definition blank : VideoConfig := mkConfig "   " [mkSegment 0%Q 5%Q].

Definition uploaded : File := mkFile "source.mp4" "video/mp4".

Definition readyApp (configs : list VideoConfig) : App.State :=
  App.mkState (Some uploaded) (Some sourceUrl) 10%Q [] false 0%Q "configure" configs.

End Samples.

(** ** Predicates of the validation *)

(** The range invariant of a segment against the duration of the source. *)
Definition inRange (videoDuration : Q) (segment : VideoSegment) : Prop :=
  (seg_start segment < seg_end segment)%Q /\ (seg_end segment <= videoDuration)%Q.

(** A configuration that the validation lets through. *)
Definition wellFormed (videoDuration : Q) (config : VideoConfig) : Prop :=
  JS.allWhiteSpace (name config) = false
  /\ segments config <> []
  /\ Forall (inRange videoDuration) (segments config).

(** The handler refused to start: the component state is the one it was
    called with (so [outputVideos] is untouched), one error toast is shown,
    and the processor made no step and kept its [isCancelled]. *)
Definition refused (app : App.State) (cancelled : bool) (h : App.Handled) : Prop :=
  App.state h = app
  /\ App.steps h = []
  /\ App.isCancelled h = cancelled
  /\ exists description, App.toasts h = [App.errorToast description].

(** ** Readings of a run *)

Module Reading.

Import VideoProcessor.

(** What the user's cancelling at [p] adds to the trace and does to the
    flag. *)
Definition cancelSteps (browser : Browser) (p : AwaitPoint) : list Effect :=
  if cancelDuring browser p then [FlagWrite ByCancelProcessing true] else [].

Definition flagAfter (browser : Browser) (p : AwaitPoint) (isCancelled : bool) : bool :=
  if cancelDuring browser p then true else isCancelled.

(** The properties that a run computes from the loaded source. *)
Definition runProperties (browser : Browser) (videoUrl : string) : option VideoProperties :=
  match sourceLoad browser with
  | LoadedMetadata videoWidth videoHeight mozHasAudio =>
      Some (getVideoProperties videoWidth videoHeight mozHasAudio videoUrl)
  | LoadError => None
  end.

(** The blobs recorded for configuration [i], in order. *)
Fixpoint recordedBlobs (i : nat) (t : list Effect) : list Blob :=
  match t with
  | [] => []
  | SegmentRecorded configIndex _ b :: rest =>
      if (configIndex =? i)%nat then b :: recordedBlobs i rest else recordedBlobs i rest
  | _ :: rest => recordedBlobs i rest
  end.

(** The arguments of the calls of [combineVideoSegments] made for
    configuration [i], in order. *)
Fixpoint combineCalls (i : nat) (t : list Effect) : list (list Blob) :=
  match t with
  | [] => []
  | CombineCalled configIndex blobs :: rest =>
      if (configIndex =? i)%nat then blobs :: combineCalls i rest else combineCalls i rest
  | _ :: rest => combineCalls i rest
  end.

(** The records pushed onto [outputVideos], in order. *)
Fixpoint pushedOutputs (t : list Effect) : list OutputVideo :=
  match t with
  | [] => []
  | OutputPushed _ video :: rest => video :: pushedOutputs rest
  | _ :: rest => pushedOutputs rest
  end.

(** The values given to the progress callback, in order. *)
Fixpoint progressValues (t : list Effect) : list Q :=
  match t with
  | [] => []
  | OnProgress p :: rest => p :: progressValues rest
  | _ :: rest => progressValues rest
  end.

(** The completions of segments and the progress calls of a trace. *)
Definition isCompletionOrProgress (e : Effect) : bool :=
  match e with
  | SegmentRecorded _ _ _ | OnProgress _ => true
  | _ => false
  end.

(** The number of segments completed in a trace. *)
Definition completed (t : list Effect) : nat :=
  List.length (List.filter (fun e => match e with SegmentRecorded _ _ _ => true | _ => false end) t).

(** The configuration indices at which the flag was read, in order. *)
Fixpoint flagReads (t : list Effect) : list nat :=
  match t with
  | [] => []
  | FlagRead configIndex _ :: rest => configIndex :: flagReads rest
  | _ :: rest => flagReads rest
  end.

Definition isFlagWrite (e : Effect) : bool :=
  match e with
  | FlagWrite _ _ => true
  | _ => false
  end.

(** A write of the flag is one of [cancelProcessing]. *)
Definition writesOnlyByCancel (e : Effect) : Prop :=
  forall who value, e = FlagWrite who value -> who = ByCancelProcessing /\ value = true.

(** The same browser with a user who never cancels. *)
Definition neverCancelled (browser : Browser) : Browser :=
  mkBrowser (isTypeSupported browser) (sourceLoad browser) (segmentEnv browser)
    (combineEnv browser) (createObjectURL browser) (fun _ => false).

End Reading.

(** ** The end of one configuration *)

Module Finish.

Import VideoProcessor Reading.

(** What [processConfig] does once the blobs of its segments are there:
    the choice between the single blob and [combineVideoSegments], and
    the push of the output. *)
Definition finish (browser : Browser) (videoProperties : VideoProperties)
    (configIndex : nat) (config : VideoConfig) (processedSegments : nat)
    (segmentBlobs : list Blob) (isCancelled : bool) : Outcome (nat * OutputVideo) :=
  let video finalBlob :=
    mkOutput (name config) (createObjectURL browser configIndex) finalBlob
      (Some (format videoProperties)) in
  match segmentBlobs with
  | [] =>
      mkOutcome (Throw "Failed to combine video segments: No segments to combine")
        isCancelled [CombineCalled configIndex []]
  | [only] =>
      mkOutcome (Ok (processedSegments, video only)) isCancelled
        [OutputPushed configIndex (video only)]
  | _ :: _ :: _ =>
      let waited := flagAfter browser (AtCombine configIndex) isCancelled in
      let before :=
        [CombineCalled configIndex segmentBlobs; Rerecording configIndex segmentBlobs]
          ++ cancelSteps browser (AtCombine configIndex) in
      match combineSettles browser videoProperties (combineEnv browser configIndex) with
      | Ok finalBlob =>
          mkOutcome (Ok (processedSegments, video finalBlob)) waited
            (before ++ [OutputPushed configIndex (video finalBlob)])
      | Throw message =>
          mkOutcome (Throw ("Failed to combine video segments: " ++ message)%string)
            waited before
      end
  end.

End Finish.

(** ** Kinds of steps *)

Module Steps.

Import VideoProcessor.

(** The user's [cancelProcessing]. *)
Definition cancelWrite : Effect := FlagWrite ByCancelProcessing true.

Definition isCancelWrite (e : Effect) : bool :=
  match e with
  | FlagWrite ByCancelProcessing true => true
  | _ => false
  end.

(** Some step of the trace is a [cancelProcessing]. *)
Definition cancelRequested (t : list Effect) : bool := List.existsb isCancelWrite t.

(** The user cancels at some point where the routine waits. *)
Definition userCancels (browser : Browser) : Prop :=
  exists p, cancelDuring browser p = true.

(** The steps that the segment loop of configuration [i] can make. *)
Definition segmentStep (browser : Browser) (i : nat) (e : Effect) : Prop :=
  match e with
  | SegmentStarted configIndex _ | SegmentRecorded configIndex _ _ => configIndex = i
  | OnProgress _ => True
  | FlagWrite ByCancelProcessing true => userCancels browser
  | _ => False
  end.

(** The steps that the processing of configuration [i] can make. *)
Definition configStep (browser : Browser) (i : nat) (e : Effect) : Prop :=
  match e with
  | SegmentStarted configIndex _ | SegmentRecorded configIndex _ _
  | CombineCalled configIndex _ | Rerecording configIndex _
  | OutputPushed configIndex _ => configIndex = i
  | OnProgress _ => True
  | FlagWrite ByCancelProcessing true => userCancels browser
  | _ => False
  end.

Definition notFlagWrite (e : Effect) : bool :=
  match e with
  | FlagWrite _ _ => false
  | _ => true
  end.

(** The number of outputs pushed before the first [cancelProcessing]. *)
Fixpoint pushedBeforeCancel (t : list Effect) : nat :=
  match t with
  | [] => 0
  | FlagWrite ByCancelProcessing true :: _ => 0
  | OutputPushed _ _ :: rest => S (pushedBeforeCancel rest)
  | _ :: rest => pushedBeforeCancel rest
  end.

(** Every completion of a segment is directly followed by one progress
    call, and there is no other progress call.  [expecting] says that the
    last step was a completion. *)
Fixpoint progressFollows (expecting : bool) (t : list Effect) : bool :=
  match t with
  | [] => negb expecting
  | SegmentRecorded _ _ _ :: rest => negb expecting && progressFollows true rest
  | OnProgress _ :: rest => expecting && progressFollows false rest
  | _ :: rest => negb expecting && progressFollows false rest
  end.

End Steps.

(** ** What a configuration's processing gives and how it fails *)

Module Contract.

Import VideoProcessor Reading.

(** The output [video] of configuration [i], read against the trace [t] of
    the run: a configuration of one segment gives the recorded blob
    itself and [combineVideoSegments] is not called for it; one of several
    segments gives the blob of one re-recording, called once, on all the
    recorded blobs. *)
Definition outputOf (browser : Browser) (videoProperties : VideoProperties)
    (i : nat) (config : VideoConfig) (video : OutputVideo) (t : list Effect) : Prop :=
  out_name video = name config
  /\ List.length (recordedBlobs i t) = List.length (segments config)
  /\ (List.length (segments config) = 1 ->
      combineCalls i t = [] /\ recordedBlobs i t = [out_blob video])
  /\ (1 < List.length (segments config) ->
      combineCalls i t = [recordedBlobs i t]
      /\ combineSettles browser videoProperties (combineEnv browser i) = Ok (out_blob video)).

(** The failures of the processing of configuration [i], with their
    messages. *)
Inductive Failure (browser : Browser) (videoProperties : VideoProperties)
    (i : nat) (config : VideoConfig) : string -> Prop :=
| SegmentFailed (j : nat) (message : string) :
    j < List.length (segments config) ->
    extractSettles browser videoProperties (segmentEnv browser i j) = Throw message ->
    Failure browser videoProperties i config message
| NothingToCombine :
    segments config = [] ->
    Failure browser videoProperties i config
      "Failed to combine video segments: No segments to combine"
| CombineFailed (message : string) :
    2 <= List.length (segments config) ->
    combineSettles browser videoProperties (combineEnv browser i) = Throw message ->
    Failure browser videoProperties i config
      ("Failed to combine video segments: " ++ message)%string.

End Contract.

(** ** The configurator component *)

From Stdlib Require Import Qround.

Module VideoConfigurator.

(** [Math.floor(videoDuration)] *)
Definition floorOf (videoDuration : Q) : Q := inject_Z (Qfloor videoDuration).

(** The segment that a new configuration or a new segment starts with:
    [{ start: 0, end: Math.floor(videoDuration) }]. *)
Definition defaultSegment (videoDuration : Q) : VideoSegment :=
  mkSegment 0%Q (floorOf videoDuration).

(** A length written into a template string. *)
Definition decimal (n : nat) : string :=
  DecimalString.NilZero.string_of_uint (Nat.to_uint n).

(** [a.filter((_, index) => keep(index))], counting from [index]. *)
Fixpoint filterIndex {A} (keep : nat -> bool) (index : nat) (l : list A) : list A :=
  match l with
  | [] => []
  | a :: rest =>
      if keep index then a :: filterIndex keep (S index) rest
      else filterIndex keep (S index) rest
  end.

(** The assignment [a[index] = change(a[index])] where the source reaches
    into [a[index]]: [None] is the [TypeError] of reaching into
    [undefined], for an index out of range or a failing [change]. *)
Fixpoint updateAt {A} (l : list A) (index : nat) (change : A -> option A)
    : option (list A) :=
  match l, index with
  | [], _ => None
  | a :: rest, 0 => option_map (fun a' => a' :: rest) (change a)
  | a :: rest, S index' => option_map (cons a) (updateAt rest index' change)
  end.

(** The handlers give the new [videoConfigs]; the configuration objects of
    the old array that they assign into are not used again. *)

Definition addNewVideo (videoConfigs : list VideoConfig) (videoDuration : Q)
    : list VideoConfig :=
  videoConfigs
    ++ [mkConfig ("Video " ++ decimal (List.length videoConfigs + 1))%string
          [defaultSegment videoDuration]].

Definition removeVideo (videoConfigs : list VideoConfig) (videoIndex : nat)
    : list VideoConfig :=
  filterIndex (fun index => negb (index =? videoIndex)%nat) 0 videoConfigs.

Definition updateVideoName (videoConfigs : list VideoConfig) (videoIndex : nat)
    (newName : string) : option (list VideoConfig) :=
  updateAt videoConfigs videoIndex (fun config => Some (mkConfig newName (segments config))).

Definition addSegment (videoConfigs : list VideoConfig) (videoDuration : Q)
    (videoIndex : nat) : option (list VideoConfig) :=
  updateAt videoConfigs videoIndex
    (fun config =>
       Some (mkConfig (name config) (segments config ++ [defaultSegment videoDuration]))).

Definition removeSegment (videoConfigs : list VideoConfig) (videoIndex segmentIndex : nat)
    : option (list VideoConfig) :=
  updateAt videoConfigs videoIndex
    (fun config =>
       Some (mkConfig (name config)
               (filterIndex (fun index => negb (index =? segmentIndex)%nat) 0
                  (segments config)))).

(** The parameter [type: "start" | "end"]. *)
Inductive TimeField := StartField | EndField.

Definition setTime (field : TimeField) (value : Q) (segment : VideoSegment) : VideoSegment :=
  match field with
  | StartField => mkSegment value (seg_end segment)
  | EndField => mkSegment (seg_start segment) value
  end.

Definition updateSegmentTime (videoConfigs : list VideoConfig)
    (videoIndex segmentIndex : nat) (field : TimeField) (value : Q)
    : option (list VideoConfig) :=
  updateAt videoConfigs videoIndex
    (fun config =>
       option_map (mkConfig (name config))
         (updateAt (segments config) segmentIndex
            (fun segment => Some (setTime field value segment)))).

(** What the user can do on the rendered component.  The button that
    removes a segment is rendered with
    [disabled={videoConfig.segments.length <= 1}]. *)
Inductive Action :=
| ClickAddNewVideo
| ClickRemoveVideo (videoIndex : nat)
| TypeVideoName (videoIndex : nat) (newName : string)
| ClickAddSegment (videoIndex : nat)
| ClickRemoveSegment (videoIndex segmentIndex : nat)
| SlideTime (videoIndex segmentIndex : nat) (field : TimeField) (value : Q).

Definition removeSegmentDisabled (config : VideoConfig) : bool :=
  (List.length (segments config) <=? 1)%nat.

(** The new [videoConfigs] after an action; a click on a disabled button
    does nothing. *)
Definition perform (videoDuration : Q) (videoConfigs : list VideoConfig) (a : Action)
    : option (list VideoConfig) :=
  match a with
  | ClickAddNewVideo => Some (addNewVideo videoConfigs videoDuration)
  | ClickRemoveVideo videoIndex => Some (removeVideo videoConfigs videoIndex)
  | TypeVideoName videoIndex newName => updateVideoName videoConfigs videoIndex newName
  | ClickAddSegment videoIndex => addSegment videoConfigs videoDuration videoIndex
  | ClickRemoveSegment videoIndex segmentIndex =>
      match nth_error videoConfigs videoIndex with
      | Some config =>
          if removeSegmentDisabled config then Some videoConfigs
          else removeSegment videoConfigs videoIndex segmentIndex
      | None => None
      end
  | SlideTime videoIndex segmentIndex field value =>
      updateSegmentTime videoConfigs videoIndex segmentIndex field value
  end.

(** The configuration has a segment. *)
Definition hasSegments (config : VideoConfig) : Prop := segments config <> [].

(** [l] without its element at [index]. *)
Definition without {A} (index : nat) (l : list A) : list A :=
  List.firstn index l ++ List.skipn (S index) l.

(** [l] with [a] in the place of its element at [index]. *)
Definition replaced {A} (index : nat) (a : A) (l : list A) : list A :=
  List.firstn index l ++ a :: List.skipn (S index) l.

End VideoConfigurator.

(** ** The other handlers of the application component *)

Module AppHandlers.

(** The state that [useState] starts with. *)
Definition initialState : App.State :=
  App.mkState None None 0%Q [] false 0%Q "upload"
    [mkConfig "Video 1" [mkSegment 0%Q 0%Q]].

(** [handleVideoUpload]: [objectUrl] is what [URL.createObjectURL(file)]
    gives; [metadata] is the duration given by [onloadedmetadata] of the
    probing element, or [None] when that event never comes. *)
Definition handleVideoUpload (objectUrl : string) (metadata : option Q) (file : File)
    (app : App.State) : App.State :=
  match metadata with
  | Some duration =>
      App.mkState (Some file) (Some objectUrl) duration (App.outputVideos app)
        (App.isProcessing app) (App.progress app) (App.activeTab app)
        [mkConfig "Video 1" [mkSegment 0%Q (VideoConfigurator.floorOf duration)]]
  | None =>
      App.mkState (Some file) (Some objectUrl) (App.videoDuration app)
        (App.outputVideos app) (App.isProcessing app) (App.progress app)
        (App.activeTab app) (App.videoConfigs app)
  end.

End AppHandlers.

(** ** Readings for the further properties *)

Module Further.

Import VideoProcessor.

(** No code unit of [s] is a dot. *)
Fixpoint noDot (s : string) : bool :=
  match s with
  | EmptyString => true
  | String c rest => negb (Ascii.eqb c ".") && noDot rest
  end.

(** The media types that a recorder of this module is asked for. *)
Definition recordedType (t : string) : Prop := t = "video/mp4" \/ t = "video/webm".

(** The source format asks for an MP4 recording and the browser has one. *)
Definition mp4Recording (browser : Browser) (videoProperties : VideoProperties) : Prop :=
  (JS.includes (format videoProperties) "mp4" = true
   \/ JS.includes (format videoProperties) "m4a" = true)
  /\ (isTypeSupported browser "video/mp4;codecs=h264,aac" = true
      \/ isTypeSupported browser "video/mp4" = true).

(** Where the blob of the output of configuration [i] comes from: the
    recording of its only segment, or the re-recording of its several. *)
Definition blobOrigin (browser : Browser) (videoProperties : VideoProperties)
    (i : nat) (config : VideoConfig) (finalBlob : Blob) : Prop :=
  (List.length (segments config) = 1
   /\ extractSettles browser videoProperties (segmentEnv browser i 0) = Ok finalBlob)
  \/ (2 <= List.length (segments config)
      /\ combineSettles browser videoProperties (combineEnv browser i) = Ok finalBlob).

(** What a configuration that was processed to its end has recorded: one
    blob for each of its segments, in order, each the recording of its
    segment. *)
Definition recordedInOrder (browser : Browser) (videoProperties : VideoProperties)
    (i : nat) (config : VideoConfig) (blobs : list Blob) : Prop :=
  List.length blobs = List.length (segments config)
  /\ forall j b,
       nth_error blobs j = Some b ->
       extractSettles browser videoProperties (segmentEnv browser i j) = Ok b.

(** What its output is: the name of the configuration, the URL made for
    it, the format of the source, and a blob of the origin above. *)
Definition outputFrom (browser : Browser) (videoProperties : VideoProperties)
    (i : nat) (config : VideoConfig) (video : OutputVideo) : Prop :=
  video = mkOutput (name config) (createObjectURL browser i) (out_blob video)
            (Some (format videoProperties))
  /\ blobOrigin browser videoProperties i config (out_blob video).

(** The extension that the results viewer derives from a format field. *)
Definition extensionOfFormat (f : string) : string :=
  DownloadSpec.orMp4 (DownloadSpec.knownOfFormat f).

End Further.

(** * Properties *)

(** ** Strings *)

Lemma trimEnd_keeps_first (c : ascii) (rest : string) :
  JS.isWhiteSpace c = false -> JS.truthy (JS.trimEnd (String c rest)) = true.
Proof.
  intros Hc. simpl. destruct (JS.trimEnd rest); [rewrite Hc|]; reflexivity.
Qed.

Lemma trimStart_allWhiteSpace (s : string) :
  JS.allWhiteSpace s = true -> JS.trimStart s = EmptyString.
Proof.
  induction s as [|c rest IH]; simpl; intros H; [reflexivity|].
  apply andb_true_iff in H as [Hc Hrest]. rewrite Hc. auto.
Qed.

Lemma trimStart_first (s : string) :
  JS.allWhiteSpace s = false ->
  exists c rest, JS.trimStart s = String c rest /\ JS.isWhiteSpace c = false.
Proof.
  induction s as [|c rest IH]; simpl; intros H; [discriminate|].
  destruct (JS.isWhiteSpace c) eqn:Hc; simpl in H.
  - auto.
  - exists c, rest. auto.
Qed.

(** [!name.trim()] holds exactly for the names made of white space only. *)
Lemma trim_truthy (s : string) :
  JS.truthy (JS.trim s) = negb (JS.allWhiteSpace s).
Proof.
  unfold JS.trim. destruct (JS.allWhiteSpace s) eqn:H.
  - rewrite trimStart_allWhiteSpace by assumption. reflexivity.
  - destruct (trimStart_first s H) as (c & rest & -> & Hc).
    now rewrite trimEnd_keeps_first.
Qed.

(** ** The uploader *)

(** A dropped file reaches [onVideoUpload] exactly when its type starts
    with [video/]. *)
Lemma handleDrop_video_only (file : File) (others : list File) :
  VideoUploader.onVideoUpload (VideoUploader.handleDrop (Some (file :: others)))
  = if JS.startsWith (file_type file) "video/" then [file] else [].
Proof.
  simpl. destruct (JS.startsWith (file_type file) "video/"); reflexivity.
Qed.

(** C7, on the file picker: [handleFileChange] gives the chosen file to
    [onVideoUpload] whatever its type is.  For a file of type [text/plain],
    which does not start with [video/], the callback is invoked, and the
    same file dropped on the surface is refused. *)
Theorem C7_handleFileChange_ignores_type :
  JS.startsWith (file_type Samples.textFile) "video/" = false
  /\ VideoUploader.onVideoUpload
       (VideoUploader.handleFileChange false (Some [Samples.textFile]))
     = [Samples.textFile]
  /\ VideoUploader.onVideoUpload (VideoUploader.handleDrop (Some [Samples.textFile])) = [].
Proof. repeat split. Qed.

(** ** The results viewer *)

Lemma includes_empty (sub : string) :
  JS.truthy sub = true -> JS.includes EmptyString sub = false.
Proof. destruct sub; [discriminate|reflexivity]. Qed.

(** C8: the download name is the configured name, a dot, and the extension
    inferred from the format field when it is present, else from the media
    type of the blob, [mp4] when no known extension is found. *)
Theorem C8_download_name (video : OutputVideo) :
  ResultsViewer.download (ResultsViewer.handleDownload video)
  = (out_name video ++ "." ++ DownloadSpec.inferredExtension video)%string.
Proof.
  unfold ResultsViewer.handleDownload, ResultsViewer.extension,
    DownloadSpec.inferredExtension, DownloadSpec.declaredFormat; simpl.
  do 2 f_equal.
  destruct (out_format video) as [f|].
  - destruct (JS.truthy f).
    + unfold DownloadSpec.knownOfFormat.
      repeat match goal with
             | |- context [if JS.includes f ?x then _ else _] =>
                 destruct (JS.includes f x); try reflexivity
             end.
    + unfold DownloadSpec.knownOfMediaType.
      destruct (blob_type (out_blob video)) as [|c t]; [reflexivity|].
      cbn [JS.truthy].
      repeat match goal with
             | |- context [if JS.includes ?s ?x then _ else _] =>
                 destruct (JS.includes s x); try reflexivity
             end.
  - unfold DownloadSpec.knownOfMediaType.
    destruct (blob_type (out_blob video)) as [|c t]; [reflexivity|].
    cbn [JS.truthy].
    repeat match goal with
           | |- context [if JS.includes ?s ?x then _ else _] =>
               destruct (JS.includes s x); try reflexivity
           end.
Qed.

(** ** Validation in [handleStartProcessing] *)

Lemma validateSegments_passes (videoDuration : Q) (configName : string)
    (segs : list VideoSegment) :
  App.validateSegments videoDuration configName segs = None
  <-> Forall (inRange videoDuration) segs.
Proof.
  induction segs as [|segment rest IH]; simpl.
  - split; auto.
  - destruct (Qle_bool (seg_end segment) (seg_start segment)) eqn:Hse.
    + split; [discriminate|]. intros H. inversion_clear H as [|? ? [Hlt _] _].
      apply Qle_bool_iff in Hse. exfalso. exact (Qlt_not_le _ _ Hlt Hse).
    + destruct (Qle_bool (seg_end segment) videoDuration) eqn:Hed; simpl.
      * rewrite IH. split.
        -- intros H. constructor; [|assumption]. split.
           ++ apply Qnot_le_lt. intros Hle. apply Qle_bool_iff in Hle. congruence.
           ++ now apply Qle_bool_iff.
        -- intros H. now inversion H.
      * split; [discriminate|]. intros H. inversion_clear H as [|? ? [_ Hle] _].
        apply Qle_bool_iff in Hle. congruence.
Qed.

Lemma validateConfigs_passes (videoDuration : Q) (configs : list VideoConfig) :
  App.validateConfigs videoDuration configs = None
  <-> Forall (wellFormed videoDuration) configs.
Proof.
  induction configs as [|config rest IH]; simpl.
  - split; auto.
  - rewrite trim_truthy, negb_involutive.
    destruct (JS.allWhiteSpace (name config)) eqn:Hname.
    + split; [discriminate|]. intros H. inversion_clear H as [|? ? [Hn _] _]. congruence.
    + destruct (segments config) as [|segment segs] eqn:Hsegs.
      * simpl. split; [discriminate|]. intros H.
        inversion_clear H as [|? ? (_ & Hne & _) _]. congruence.
      * cbn [List.length Nat.eqb].
        destruct (App.validateSegments videoDuration (name config) (segment :: segs))
          as [toast|] eqn:Hv.
        -- split; [discriminate|]. intros H.
           inversion_clear H as [|? ? (_ & _ & Hall) _].
           rewrite Hsegs in Hall.
           apply (validateSegments_passes videoDuration (name config)) in Hall. congruence.
        -- rewrite IH. split.
           ++ intros H. constructor; [|assumption]. repeat split; try assumption.
              ** rewrite Hsegs. discriminate.
              ** rewrite Hsegs. now apply (validateSegments_passes videoDuration (name config)).
           ++ intros H. now inversion H.
Qed.

(** Every toast of the validation is an error toast. *)
Lemma validateSegments_toast (videoDuration : Q) (configName : string)
    (segs : list VideoSegment) (toast : App.Toast) :
  App.validateSegments videoDuration configName segs = Some toast ->
  exists description, toast = App.errorToast description.
Proof.
  induction segs as [|segment rest IH]; simpl; [discriminate|].
  destruct (Qle_bool (seg_end segment) (seg_start segment)).
  - intros [= <-]. eauto.
  - destruct (negb (Qle_bool (seg_end segment) videoDuration)); [|assumption].
    intros [= <-]. eauto.
Qed.

Lemma validateConfigs_toast (videoDuration : Q) (configs : list VideoConfig)
    (toast : App.Toast) :
  App.validateConfigs videoDuration configs = Some toast ->
  exists description, toast = App.errorToast description.
Proof.
  induction configs as [|config rest IH]; simpl; [discriminate|].
  destruct (negb (JS.truthy (JS.trim (name config)))); [intros [= <-]; eauto|].
  destruct (List.length (segments config) =? 0)%nat; [intros [= <-]; eauto|].
  destruct (App.validateSegments videoDuration (name config) (segments config)) eqn:Hv.
  - intros [= <-]. eapply validateSegments_toast; eassumption.
  - assumption.
Qed.

Lemma handleStartProcessing_refuses (browser : VideoProcessor.Browser)
    (app : App.State) (cancelled : bool) :
  ~ Forall (wellFormed (App.videoDuration app)) (App.videoConfigs app) ->
  refused app cancelled (App.handleStartProcessing browser app cancelled).
Proof.
  intros Hbad. unfold App.handleStartProcessing, refused.
  destruct (App.uploadedVideo app); [destruct (App.videoUrl app) as [url|]|];
    simpl; eauto 6.
  destruct (JS.truthy url); simpl; eauto 6.
  destruct (App.validateConfigs (App.videoDuration app) (App.videoConfigs app))
    as [toast|] eqn:Hv.
  - simpl. destruct (validateConfigs_toast _ _ _ Hv) as [d ->]. eauto 6.
  - apply validateConfigs_passes in Hv. contradiction.
Qed.

Lemma processVideos_makes_a_step (browser : VideoProcessor.Browser) (url : string)
    (configs : list VideoConfig) (cancelled : bool) :
  VideoProcessor.trace (VideoProcessor.processVideos browser url configs cancelled) <> [].
Proof.
  unfold VideoProcessor.processVideos, VideoProcessor.bind, VideoProcessor.writeFlag.
  simpl. destruct (VideoProcessor.result _); simpl; discriminate.
Qed.

Lemma handleStartProcessing_started (browser : VideoProcessor.Browser)
    (app : App.State) (cancelled : bool) :
  App.steps (App.handleStartProcessing browser app cancelled) <> [] ->
  Forall (wellFormed (App.videoDuration app)) (App.videoConfigs app).
Proof.
  unfold App.handleStartProcessing.
  destruct (App.uploadedVideo app); [destruct (App.videoUrl app) as [url|]|];
    simpl; try congruence.
  destruct (JS.truthy url); simpl; try congruence.
  destruct (App.validateConfigs (App.videoDuration app) (App.videoConfigs app))
    as [toast|] eqn:Hv; simpl; try congruence.
  intros _. now apply validateConfigs_passes.
Qed.

(** C1: when [handleStartProcessing] lets the processor make a step, every
    segment of every configuration has [start < end] and [end <= duration];
    and when some segment breaks this, the handler refuses before the
    processor is called: no step is made and the outputs are untouched. *)
Theorem C1_range_checked_before_processing (browser : VideoProcessor.Browser)
    (app : App.State) (cancelled : bool) :
  (App.steps (App.handleStartProcessing browser app cancelled) <> [] ->
   forall config segment,
     In config (App.videoConfigs app) -> In segment (segments config) ->
     inRange (App.videoDuration app) segment)
  /\
  (forall config segment,
     In config (App.videoConfigs app) -> In segment (segments config) ->
     ~ inRange (App.videoDuration app) segment ->
     refused app cancelled (App.handleStartProcessing browser app cancelled)
     /\ App.outputVideos (App.state (App.handleStartProcessing browser app cancelled))
        = App.outputVideos app).
Proof.
  split.
  - intros Hsteps config segment Hc Hs.
    apply handleStartProcessing_started in Hsteps.
    rewrite Forall_forall in Hsteps. destruct (Hsteps config Hc) as (_ & _ & Hall).
    rewrite Forall_forall in Hall. auto.
  - intros config segment Hc Hs Hbad.
    assert (Href : refused app cancelled (App.handleStartProcessing browser app cancelled)).
    { apply handleStartProcessing_refuses. intros Hall.
      rewrite Forall_forall in Hall. destruct (Hall config Hc) as (_ & _ & Hsegs).
      rewrite Forall_forall in Hsegs. auto. }
    split; [assumption|]. destruct Href as (-> & _). reflexivity.
Qed.

(** C10: a configuration whose name is empty or white space only, or whose
    segment list is empty, makes [handleStartProcessing] refuse before the
    processor is called: no step is made and the outputs are untouched. *)
Theorem C10_name_and_segments_checked (browser : VideoProcessor.Browser)
    (app : App.State) (cancelled : bool) (config : VideoConfig) :
  In config (App.videoConfigs app) ->
  JS.allWhiteSpace (name config) = true \/ segments config = [] ->
  refused app cancelled (App.handleStartProcessing browser app cancelled)
  /\ App.outputVideos (App.state (App.handleStartProcessing browser app cancelled))
     = App.outputVideos app.
Proof.
  intros Hc Hbad.
  assert (Href : refused app cancelled (App.handleStartProcessing browser app cancelled)).
  { apply handleStartProcessing_refuses. intros Hall.
    rewrite Forall_forall in Hall. destruct (Hall config Hc) as (Hn & Hs & _).
    destruct Hbad; congruence. }
  split; [assumption|]. destruct Href as (-> & _). reflexivity.
Qed.

(** ** The processing routine: the monad and the loops, unfolded *)

Section Unfolding.

Import VideoProcessor Reading.

Lemma bind_ok {A B} (m : M A) (k : A -> M B) (isCancelled : bool)
    (a : A) (after : bool) (t : list Effect) :
  m isCancelled = mkOutcome (Ok a) after t ->
  bind m k isCancelled
  = mkOutcome (result (k a after)) (flag (k a after)) (t ++ trace (k a after)).
Proof. intros H. unfold bind. now rewrite H. Qed.

Lemma bind_throw {A B} (m : M A) (k : A -> M B) (isCancelled : bool)
    (message : string) (after : bool) (t : list Effect) :
  m isCancelled = mkOutcome (Throw message) after t ->
  bind m k isCancelled = mkOutcome (Throw message) after t.
Proof. intros H. unfold bind. now rewrite H. Qed.

(** [catch (error) { throw error }] changes nothing. *)
Lemma catch_rethrow {A} (m : M A) (isCancelled : bool) :
  catch m (fun error => throw error) isCancelled = m isCancelled.
Proof.
  unfold catch. destruct (m isCancelled) as [[a|message] after t]; cbn; [reflexivity|].
  now rewrite app_nil_r.
Qed.

Variable browser : Browser.

Lemma await_run (p : AwaitPoint) (isCancelled : bool) :
  await browser p isCancelled
  = mkOutcome (Ok tt) (flagAfter browser p isCancelled) (cancelSteps browser p).
Proof.
  unfold await, flagAfter, cancelSteps. destruct (cancelDuring browser p); reflexivity.
Qed.

Lemma extractVideoSegment_run (videoUrl : string) (startTime endTime : Q)
    (videoProperties : VideoProperties) (configIndex segIdx : nat) (isCancelled : bool) :
  extractVideoSegment browser videoUrl startTime endTime videoProperties
    configIndex segIdx isCancelled
  = mkOutcome (extractSettles browser videoProperties (segmentEnv browser configIndex segIdx))
      (flagAfter browser (AtSegment configIndex segIdx) isCancelled)
      (cancelSteps browser (AtSegment configIndex segIdx)).
Proof.
  unfold extractVideoSegment. rewrite (bind_ok _ _ _ _ _ _ (await_run _ _)).
  cbn. now rewrite app_nil_r.
Qed.

Variable videoUrl : string.
Variable videoProperties : VideoProperties.
Variable totalSegments : nat.

Lemma segmentLoop_cons (configIndex : nat) (segment : VideoSegment)
    (rest : list VideoSegment) (segIdx processedSegments : nat)
    (segmentBlobs : list Blob) (isCancelled : bool) :
  segmentLoop browser videoUrl videoProperties totalSegments configIndex
    (segment :: rest) segIdx processedSegments segmentBlobs isCancelled
  = let waited := flagAfter browser (AtSegment configIndex segIdx) isCancelled in
    let before :=
      SegmentStarted configIndex segIdx :: cancelSteps browser (AtSegment configIndex segIdx) in
    match extractSettles browser videoProperties (segmentEnv browser configIndex segIdx) with
    | Ok segmentBlob =>
        let o := segmentLoop browser videoUrl videoProperties totalSegments configIndex
                   rest (S segIdx) (S processedSegments) (segmentBlobs ++ [segmentBlob])
                   waited in
        mkOutcome (result o) (flag o)
          (before
             ++ [SegmentRecorded configIndex segIdx segmentBlob;
                 OnProgress (progressValue (S processedSegments) totalSegments)]
             ++ trace o)
    | Throw message => mkOutcome (Throw message) waited before
    end.
Proof.
  cbn [segmentLoop]. cbv zeta.
  match goal with |- bind ?m _ _ = _ => set (body := m) end.
  destruct (extractSettles browser videoProperties (segmentEnv browser configIndex segIdx))
    as [segmentBlob|message] eqn:Hsettles.
  - assert (Hbody : body isCancelled
                    = mkOutcome (Ok (S processedSegments, segmentBlobs ++ [segmentBlob]))
                        (flagAfter browser (AtSegment configIndex segIdx) isCancelled)
                        ((SegmentStarted configIndex segIdx
                            :: cancelSteps browser (AtSegment configIndex segIdx))
                           ++ [SegmentRecorded configIndex segIdx segmentBlob;
                               OnProgress (progressValue (S processedSegments) totalSegments)])).
    { subst body. rewrite catch_rethrow. unfold bind, emit, ret.
      rewrite extractVideoSegment_run. cbn. rewrite Hsettles. reflexivity. }
    rewrite (bind_ok _ _ _ _ _ _ Hbody). cbn [fst snd]. now rewrite <- app_assoc.
  - assert (Hbody : body isCancelled
                    = mkOutcome (Throw message)
                        (flagAfter browser (AtSegment configIndex segIdx) isCancelled)
                        (SegmentStarted configIndex segIdx
                           :: cancelSteps browser (AtSegment configIndex segIdx))).
    { subst body. rewrite catch_rethrow. unfold bind, emit, ret.
      rewrite extractVideoSegment_run. cbn. rewrite Hsettles. reflexivity. }
    now rewrite (bind_throw _ _ _ _ _ _ Hbody).
Qed.

Lemma combineVideoSegments_run (segmentBlobs : list Blob) (configIndex : nat)
    (isCancelled : bool) :
  combineVideoSegments browser segmentBlobs videoProperties configIndex isCancelled
  = match segmentBlobs with
    | [] => mkOutcome (Throw "No segments to combine") isCancelled
              [CombineCalled configIndex []]
    | [only] => mkOutcome (Ok only) isCancelled [CombineCalled configIndex [only]]
    | _ :: _ :: _ =>
        mkOutcome (combineSettles browser videoProperties (combineEnv browser configIndex))
          (flagAfter browser (AtCombine configIndex) isCancelled)
          ([CombineCalled configIndex segmentBlobs; Rerecording configIndex segmentBlobs]
             ++ cancelSteps browser (AtCombine configIndex))
    end.
Proof.
  unfold combineVideoSegments.
  destruct segmentBlobs as [|only [|second others]]; try reflexivity.
  unfold bind, emit. rewrite await_run. cbn. rewrite app_nil_r.
  now destruct (combineSettles _ _ _).
Qed.

Lemma processConfig_run (configIndex : nat) (config : VideoConfig)
    (processedSegments : nat) (isCancelled : bool) :
  processConfig browser videoUrl videoProperties totalSegments configIndex config
    processedSegments isCancelled
  = let o := segmentLoop browser videoUrl videoProperties totalSegments configIndex
               (segments config) 0 processedSegments [] isCancelled in
    match result o with
    | Ok (processed, segmentBlobs) =>
        let o' := Finish.finish browser videoProperties configIndex config processed
                    segmentBlobs (flag o) in
        mkOutcome (result o') (flag o') (trace o ++ trace o')
    | Throw message => mkOutcome (Throw message) (flag o) (trace o)
    end.
Proof.
  unfold processConfig. rewrite catch_rethrow. cbv zeta.
  destruct (segmentLoop _ _ _ _ _ _ _ _ _ _) as [[[processed segmentBlobs]|message] fl t] eqn:Hloop.
  - rewrite (bind_ok _ _ _ _ _ _ Hloop). cbn [result flag trace fst snd].
    destruct segmentBlobs as [|only [|second others]].
    + unfold bind, catch. rewrite combineVideoSegments_run. reflexivity.
    + reflexivity.
    + unfold bind, catch. rewrite combineVideoSegments_run.
      unfold Finish.finish.
      destruct (combineSettles browser videoProperties (combineEnv browser configIndex));
        cbn; rewrite ?app_nil_r; reflexivity.
  - now rewrite (bind_throw _ _ _ _ _ _ Hloop).
Qed.

Lemma configLoop_cons (config : VideoConfig) (rest : list VideoConfig)
    (configIndex processedSegments : nat) (outputVideos : list OutputVideo)
    (isCancelled : bool) :
  configLoop browser videoUrl videoProperties totalSegments (config :: rest)
    configIndex processedSegments outputVideos isCancelled
  = if isCancelled then
      mkOutcome (Throw "Processing cancelled") true [FlagRead configIndex true]
    else
      let o := processConfig browser videoUrl videoProperties totalSegments configIndex
                 config processedSegments false in
      match result o with
      | Ok (processed, video) =>
          let o' := configLoop browser videoUrl videoProperties totalSegments rest
                      (S configIndex) processed (outputVideos ++ [video]) (flag o) in
          mkOutcome (result o') (flag o')
            ([FlagRead configIndex false; ConfigStarted configIndex] ++ trace o ++ trace o')
      | Throw message =>
          mkOutcome (Throw message) (flag o)
            ([FlagRead configIndex false; ConfigStarted configIndex] ++ trace o)
      end.
Proof.
  cbn [configLoop]. unfold bind at 1. cbn [readFlag result flag trace].
  destruct isCancelled; [reflexivity|].
  unfold bind at 1. cbn [emit result flag trace]. cbv zeta.
  destruct (processConfig _ _ _ _ _ _ _ _) as [[[processed video]|message] fl t] eqn:Hconfig;
    cbn [result flag trace].
  - cbn. rewrite (bind_ok _ _ _ _ _ _ Hconfig). reflexivity.
  - cbn. rewrite (bind_throw _ _ _ _ _ _ Hconfig). reflexivity.
Qed.

End Unfolding.

Lemma processVideos_run (browser : VideoProcessor.Browser) (videoUrl : string)
    (videoConfigs : list VideoConfig) (isCancelled : bool) :
  VideoProcessor.processVideos browser videoUrl videoConfigs isCancelled
  = let waited := Reading.flagAfter browser VideoProcessor.AtSourceLoad false in
    let before :=
      VideoProcessor.FlagWrite VideoProcessor.ByProcessVideos false
        :: Reading.cancelSteps browser VideoProcessor.AtSourceLoad in
    match Reading.runProperties browser videoUrl with
    | None => VideoProcessor.mkOutcome (VideoProcessor.Throw "Failed to load video") waited before
    | Some videoProperties =>
        let o := VideoProcessor.configLoop browser videoUrl videoProperties
                   (VideoProcessor.totalSegmentsOf videoConfigs) videoConfigs 0 0 [] waited in
        VideoProcessor.mkOutcome (VideoProcessor.result o) (VideoProcessor.flag o)
          (before ++ VideoProcessor.trace o)
    end.
Proof.
  unfold VideoProcessor.processVideos, Reading.runProperties.
  unfold VideoProcessor.bind at 1. cbn [VideoProcessor.writeFlag VideoProcessor.result
    VideoProcessor.flag VideoProcessor.trace].
  rewrite (bind_ok _ _ _ _ _ _ (await_run browser _ _)).
  destruct (VideoProcessor.sourceLoad browser); cbn.
  - reflexivity.
  - now rewrite app_nil_r.
Qed.

(** ** Invariants of the loops *)

Section Invariants.

Import VideoProcessor Reading Steps.

Variable browser : Browser.

Lemma segmentStep_configStep (i : nat) (e : Effect) :
  segmentStep browser i e -> configStep browser i e.
Proof. destruct e as [[] []| | | | | | | |]; simpl; tauto. Qed.

Lemma cancelRequested_app (t1 t2 : list Effect) :
  cancelRequested (t1 ++ t2) = cancelRequested t1 || cancelRequested t2.
Proof. apply existsb_app. Qed.

Lemma cancelRequested_In (t : list Effect) :
  cancelRequested t = true <-> In cancelWrite t.
Proof.
  unfold cancelRequested. rewrite existsb_exists. split.
  - intros (e & Hin & He). destruct e as [[] []| | | | | | | |]; try discriminate. exact Hin.
  - intros Hin. exists cancelWrite. auto.
Qed.

Lemma recordedBlobs_app (i : nat) (t1 t2 : list Effect) :
  recordedBlobs i (t1 ++ t2) = recordedBlobs i t1 ++ recordedBlobs i t2.
Proof.
  induction t1 as [|e t1 IH]; [reflexivity|].
  destruct e; simpl; try assumption.
  destruct (_ =? i)%nat; simpl; now rewrite IH.
Qed.

Lemma combineCalls_app (i : nat) (t1 t2 : list Effect) :
  combineCalls i (t1 ++ t2) = combineCalls i t1 ++ combineCalls i t2.
Proof.
  induction t1 as [|e t1 IH]; [reflexivity|].
  destruct e; simpl; try assumption.
  destruct (_ =? i)%nat; simpl; now rewrite IH.
Qed.

Lemma pushedOutputs_app (t1 t2 : list Effect) :
  pushedOutputs (t1 ++ t2) = pushedOutputs t1 ++ pushedOutputs t2.
Proof.
  induction t1 as [|e t1 IH]; [reflexivity|].
  destruct e; simpl; try assumption. now rewrite IH.
Qed.

Lemma progressValues_app (t1 t2 : list Effect) :
  progressValues (t1 ++ t2) = progressValues t1 ++ progressValues t2.
Proof.
  induction t1 as [|e t1 IH]; [reflexivity|].
  destruct e; simpl; try assumption. now rewrite IH.
Qed.

Lemma flagReads_app (t1 t2 : list Effect) :
  flagReads (t1 ++ t2) = flagReads t1 ++ flagReads t2.
Proof.
  induction t1 as [|e t1 IH]; [reflexivity|].
  destruct e; simpl; try assumption. now rewrite IH.
Qed.

Lemma completed_app (t1 t2 : list Effect) :
  completed (t1 ++ t2) = completed t1 + completed t2.
Proof. unfold completed. now rewrite filter_app, length_app. Qed.

Lemma progressFollows_app (t1 t2 : list Effect) (expecting : bool) :
  progressFollows expecting t1 = true ->
  progressFollows expecting (t1 ++ t2) = progressFollows false t2.
Proof.
  revert expecting. induction t1 as [|e t1 IH]; intros expecting H.
  - destruct expecting; [discriminate|reflexivity].
  - destruct e; cbn [progressFollows app] in *;
      apply andb_true_iff in H as [-> H]; cbn [andb]; auto.
Qed.

(** A trace of configuration steps has no step of the outer loop and
    nothing of another configuration; its writes of the flag are the
    user's. *)
Lemma configSteps_quiet (i : nat) (t : list Effect) :
  Forall (configStep browser i) t ->
  flagReads t = []
  /\ (forall k, ~ In (ConfigStarted k) t)
  /\ (forall k v, ~ In (FlagRead k v) t)
  /\ Forall writesOnlyByCancel t
  /\ (forall j, j <> i -> recordedBlobs j t = [] /\ combineCalls j t = [])
  /\ (In cancelWrite t -> userCancels browser).
Proof.
  induction 1 as [|e t He Ht (IH1 & IH2 & IH3 & IH4 & IH5 & IH6)].
  - repeat split; auto; try constructor. intros [].
  - destruct e as [[] []| | | | | | | |]; simpl in He; try contradiction;
      (repeat split;
       [ assumption
       | intros k [Heq|Hin]; [discriminate|exact (IH2 k Hin)]
       | intros k v [Heq|Hin]; [discriminate|exact (IH3 k v Hin)]
       | constructor; [intros who value Heq; inversion Heq; auto|assumption]
       | simpl; try (destruct (Nat.eqb_spec configIndex j); [congruence|]); now apply IH5
       | simpl; try (destruct (Nat.eqb_spec configIndex j); [congruence|]); now apply IH5
       | intros [Heq|Hin]; [try discriminate; assumption|exact (IH6 Hin)] ]).
Qed.

Lemma segmentSteps_no_combine (i : nat) (t : list Effect) :
  Forall (segmentStep browser i) t -> forall j, combineCalls j t = [].
Proof.
  induction 1 as [|e t He Ht IH]; intros j; [reflexivity|].
  destruct e as [[] []| | | | | | | |]; simpl in He; try contradiction; simpl; auto.
Qed.

Lemma segmentSteps_no_push (i : nat) (t : list Effect) :
  Forall (segmentStep browser i) t -> pushedOutputs t = [].
Proof.
  induction 1 as [|e t He Ht IH]; [reflexivity|].
  destruct e as [[] []| | | | | | | |]; simpl in He; try contradiction; simpl; auto.
Qed.

End Invariants.

(** ** The loop over the segments of one configuration *)

Section SegmentLoop.

Import VideoProcessor Reading Steps.

Variable browser : Browser.
Variable videoUrl : string.
Variable videoProperties : VideoProperties.
Variable totalSegments : nat.
Variable configIndex : nat.

Local Abbreviation loop :=
  (segmentLoop browser videoUrl videoProperties totalSegments configIndex).
Local Abbreviation settles segIdx :=
  (extractSettles browser videoProperties (segmentEnv browser configIndex segIdx)).

Ltac step segIdx :=
  rewrite segmentLoop_cons; cbv zeta;
  destruct (settles segIdx) as [segmentBlob|message] eqn:Hsettles;
  cbn [result flag trace].

Lemma cancelSteps_segmentStep (p : AwaitPoint) :
  Forall (segmentStep browser configIndex) (cancelSteps browser p).
Proof.
  unfold cancelSteps. destruct (cancelDuring browser p) eqn:Hp; repeat constructor.
  now exists p.
Qed.

Lemma cancelSteps_requested (p : AwaitPoint) (isCancelled : bool) :
  flagAfter browser p isCancelled = isCancelled || cancelRequested (cancelSteps browser p).
Proof.
  unfold flagAfter, cancelSteps.
  destruct (cancelDuring browser p), isCancelled; reflexivity.
Qed.

Lemma cancelSteps_plain (p : AwaitPoint) :
  progressValues (cancelSteps browser p) = []
  /\ completed (cancelSteps browser p) = 0
  /\ recordedBlobs configIndex (cancelSteps browser p) = []
  /\ (forall t, progressFollows false (cancelSteps browser p ++ t) = progressFollows false t).
Proof.
  unfold cancelSteps. destruct (cancelDuring browser p); repeat split.
Qed.

Lemma segmentLoop_steps (rest : list VideoSegment) (segIdx processed : nat)
    (blobs : list Blob) (isCancelled : bool) :
  Forall (segmentStep browser configIndex)
    (trace (loop rest segIdx processed blobs isCancelled)).
Proof.
  revert segIdx processed blobs isCancelled.
  induction rest as [|segment rest IH]; intros; [constructor|].
  step segIdx.
  - constructor; [reflexivity|]. apply Forall_app. split; [apply cancelSteps_segmentStep|].
    constructor; [reflexivity|]. constructor; [exact I|]. apply IH.
  - constructor; [reflexivity|]. apply cancelSteps_segmentStep.
Qed.

Lemma segmentLoop_flag (rest : list VideoSegment) (segIdx processed : nat)
    (blobs : list Blob) (isCancelled : bool) :
  flag (loop rest segIdx processed blobs isCancelled)
  = isCancelled || cancelRequested (trace (loop rest segIdx processed blobs isCancelled)).
Proof.
  revert segIdx processed blobs isCancelled.
  induction rest as [|segment rest IH]; intros; [cbn; now rewrite orb_false_r|].
  step segIdx.
  - rewrite IH, cancelSteps_requested. cbn [app cancelRequested existsb isCancelWrite orb].
    fold (cancelRequested (cancelSteps browser (AtSegment configIndex segIdx)
                             ++ SegmentRecorded configIndex segIdx segmentBlob
                             :: OnProgress (progressValue (S processed) totalSegments)
                             :: trace (loop rest (S segIdx) (S processed)
                                         (blobs ++ [segmentBlob])
                                         (flagAfter browser (AtSegment configIndex segIdx)
                                            isCancelled)))).
    rewrite cancelRequested_app. cbn [cancelRequested existsb isCancelWrite orb].
    now rewrite orb_assoc.
  - now rewrite cancelSteps_requested.
Qed.

(** The progress calls of the loop: one directly after each completion,
    with the values for the counts [processed + 1], [processed + 2], ... *)
Lemma segmentLoop_progress (rest : list VideoSegment) (segIdx processed : nat)
    (blobs : list Blob) (isCancelled : bool) :
  let t := trace (loop rest segIdx processed blobs isCancelled) in
  progressValues t
  = List.map (fun k => progressValue k totalSegments) (List.seq (S processed) (completed t))
  /\ progressFollows false t = true
  /\ completed t <= List.length rest.
Proof.
  revert segIdx processed blobs isCancelled.
  induction rest as [|segment rest IH]; intros; [cbn; auto|].
  subst t. step segIdx.
  - destruct (cancelSteps_plain (AtSegment configIndex segIdx)) as (Hp & Hc & _ & Hf).
    specialize (IH (S segIdx) (S processed) (blobs ++ [segmentBlob])
                  (flagAfter browser (AtSegment configIndex segIdx) isCancelled)).
    cbv zeta in IH. destruct IH as (IHp & IHf & IHc).
    cbn [app progressValues completed progressFollows negb andb].
    change (completed (SegmentStarted configIndex segIdx :: ?t)) with (completed t).
    rewrite progressValues_app, completed_app, Hp, Hc, Hf.
    cbn [app progressValues progressFollows negb andb plus].
    change (completed (SegmentRecorded configIndex segIdx segmentBlob :: OnProgress ?q :: ?t))
      with (S (completed t)).
    cbn [List.seq List.map List.length]. rewrite IHp, IHf. repeat split. lia.
  - destruct (cancelSteps_plain (AtSegment configIndex segIdx)) as (Hp & Hc & _ & Hf).
    cbn [progressValues progressFollows negb andb].
    change (completed (SegmentStarted configIndex segIdx :: ?t)) with (completed t).
    rewrite Hp, Hc. rewrite <- (app_nil_r (cancelSteps _ _)), Hf. cbn. repeat split. lia.
Qed.

(** A loop that returns has recorded every segment; its blobs are the
    recorded ones, in order. *)
Lemma segmentLoop_ok (rest : list VideoSegment) (segIdx processed : nat)
    (blobs : list Blob) (isCancelled : bool) (processed' : nat) (blobs' : list Blob) :
  result (loop rest segIdx processed blobs isCancelled) = Ok (processed', blobs') ->
  let t := trace (loop rest segIdx processed blobs isCancelled) in
  processed' = processed + List.length rest
  /\ completed t = List.length rest
  /\ List.length (recordedBlobs configIndex t) = List.length rest
  /\ blobs' = blobs ++ recordedBlobs configIndex t.
Proof.
  revert segIdx processed blobs isCancelled.
  induction rest as [|segment rest IH]; intros segIdx processed blobs isCancelled.
  - cbn. intros [= <- <-]. now rewrite Nat.add_0_r, app_nil_r.
  - step segIdx; [|discriminate].
    intros Hok. apply IH in Hok. cbv zeta in Hok. destruct Hok as (-> & Hc & Hl & ->).
    destruct (cancelSteps_plain (AtSegment configIndex segIdx)) as (_ & Hc0 & Hr0 & _).
    cbn [app recordedBlobs].
    change (completed (SegmentStarted configIndex segIdx :: ?t)) with (completed t).
    rewrite recordedBlobs_app, completed_app, Hc0, Hr0.
    cbn [app recordedBlobs plus]. rewrite Nat.eqb_refl.
    change (completed (SegmentRecorded configIndex segIdx segmentBlob :: OnProgress ?q :: ?t))
      with (S (completed t)).
    cbn [List.length]. rewrite Hc, Hl, <- app_assoc. cbn [app]. repeat split. lia.
Qed.

(** A failing segment makes the loop fail. *)
Lemma segmentLoop_fails (rest : list VideoSegment) (segIdx processed : nat)
    (blobs : list Blob) (isCancelled : bool) (j : nat) (why : string) :
  j < List.length rest ->
  settles (segIdx + j) = Throw why ->
  exists message', result (loop rest segIdx processed blobs isCancelled) = Throw message'.
Proof.
  revert segIdx processed blobs isCancelled j.
  induction rest as [|segment rest IH]; intros segIdx processed blobs isCancelled j Hj Hfail;
    [cbn in Hj; lia|].
  step segIdx; [|eauto].
  destruct j as [|j].
  - rewrite Nat.add_0_r in Hfail. congruence.
  - apply (IH (S segIdx) _ _ _ j); [cbn in Hj; lia|].
    now replace (S segIdx + j) with (segIdx + S j) by lia.
Qed.

(** The failure of the loop is the failure of one of its segments. *)
Lemma segmentLoop_throws (rest : list VideoSegment) (segIdx processed : nat)
    (blobs : list Blob) (isCancelled : bool) (why : string) :
  result (loop rest segIdx processed blobs isCancelled) = Throw why ->
  exists j, j < List.length rest /\ settles (segIdx + j) = Throw why.
Proof.
  revert segIdx processed blobs isCancelled.
  induction rest as [|segment rest IH]; intros segIdx processed blobs isCancelled;
    [discriminate|].
  step segIdx.
  - intros Hthrow. apply IH in Hthrow as (j & Hj & Hfail).
    exists (S j). split; [cbn; lia|].
    now replace (segIdx + S j) with (S segIdx + j) by lia.
  - intros [= <-]. exists 0. split; [cbn; lia|]. now rewrite Nat.add_0_r.
Qed.

End SegmentLoop.

(** ** The processing of one configuration *)

Section ProcessConfig.

Import VideoProcessor Reading Steps Contract.

Variable browser : Browser.
Variable videoUrl : string.
Variable videoProperties : VideoProperties.
Variable totalSegments : nat.
Variable configIndex : nat.
Variable config : VideoConfig.

Local Abbreviation segs :=
  (segmentLoop browser videoUrl videoProperties totalSegments configIndex (segments config) 0).
Local Abbreviation process :=
  (processConfig browser videoUrl videoProperties totalSegments configIndex config).
Local Abbreviation finished := (Finish.finish browser videoProperties configIndex config).

(** The end of a configuration records nothing and reports no progress. *)
Lemma finish_plain (processed : nat) (blobs : list Blob) (isCancelled : bool) :
  let t := trace (finished processed blobs isCancelled) in
  Forall (configStep browser configIndex) t
  /\ flag (finished processed blobs isCancelled) = isCancelled || cancelRequested t
  /\ progressValues t = []
  /\ completed t = 0
  /\ recordedBlobs configIndex t = []
  /\ progressFollows false t = true.
Proof.
  unfold Finish.finish.
  destruct blobs as [|only [|second others]]; cbn.
  - rewrite orb_false_r. repeat split. repeat constructor.
  - rewrite orb_false_r. repeat split. repeat constructor.
  - unfold flagAfter, cancelSteps.
    destruct (combineSettles _ _ _),
      (cancelDuring browser (AtCombine configIndex)) eqn:Hp,
      isCancelled; cbn; repeat split; repeat constructor;
      now exists (AtCombine configIndex).
Qed.

Lemma processConfig_steps (processed : nat) (isCancelled : bool) :
  Forall (configStep browser configIndex) (trace (process processed isCancelled)).
Proof.
  rewrite processConfig_run. cbv zeta.
  pose proof (segmentLoop_steps browser videoUrl videoProperties totalSegments configIndex
                (segments config) 0 processed [] isCancelled) as Hsegs.
  assert (Hsegs' : Forall (configStep browser configIndex)
                     (trace (segs processed [] isCancelled))).
  { eapply Forall_impl; [|exact Hsegs]. apply segmentStep_configStep. }
  destruct (result (segs processed [] isCancelled)) as [[processed' blobs]|message];
    cbn [trace]; [|assumption].
  apply Forall_app. split; [assumption|].
  apply (finish_plain processed' blobs).
Qed.

Lemma processConfig_flag (processed : nat) (isCancelled : bool) :
  flag (process processed isCancelled)
  = isCancelled || cancelRequested (trace (process processed isCancelled)).
Proof.
  rewrite processConfig_run. cbv zeta.
  pose proof (segmentLoop_flag browser videoUrl videoProperties totalSegments configIndex
                (segments config) 0 processed [] isCancelled) as Hflag.
  destruct (result (segs processed [] isCancelled)) as [[processed' blobs]|message];
    cbn [flag trace]; [|assumption].
  destruct (finish_plain processed' blobs (flag (segs processed [] isCancelled)))
    as (_ & -> & _).
  now rewrite cancelRequested_app, Hflag, orb_assoc.
Qed.

Lemma processConfig_progress (processed : nat) (isCancelled : bool) :
  let t := trace (process processed isCancelled) in
  progressValues t
  = List.map (fun k => progressValue k totalSegments) (List.seq (S processed) (completed t))
  /\ progressFollows false t = true
  /\ completed t <= List.length (segments config)
  /\ (forall processed' video,
        result (process processed isCancelled) = Ok (processed', video) ->
        processed' = processed + List.length (segments config)
        /\ completed t = List.length (segments config)).
Proof.
  rewrite processConfig_run. cbv zeta.
  destruct (segmentLoop_progress browser videoUrl videoProperties totalSegments configIndex
              (segments config) 0 processed [] isCancelled) as (Hp & Hf & Hc).
  destruct (result (segs processed [] isCancelled)) as [[processed' blobs]|message] eqn:Hres;
    cbn [result trace].
  - destruct (finish_plain processed' blobs (flag (segs processed [] isCancelled)))
      as (_ & _ & Hp' & Hc' & _ & Hf').
    rewrite progressValues_app, completed_app, Hp', Hc', app_nil_r, Nat.add_0_r.
    rewrite (progressFollows_app _ _ _ Hf).
    destruct (finish_plain processed' blobs (flag (segs processed [] isCancelled)))
      as (_ & _ & _ & _ & _ & Hf'').
    split; [assumption|]. split; [assumption|]. split; [assumption|].
    intros done video Hok.
    destruct (segmentLoop_ok _ _ _ _ _ _ _ _ _ _ _ _ Hres) as (Hdone & Hall & _).
    split; [|assumption]. rewrite <- Hdone.
    unfold Finish.finish in Hok.
    destruct blobs as [|only [|second others]]; cbn in Hok; try discriminate.
    + now injection Hok as <- _.
    + destruct (combineSettles _ _ _); cbn in Hok; [now injection Hok as <- _|discriminate].
  - split; [assumption|]. split; [assumption|]. split; [assumption|]. discriminate.
Qed.

(** The output of a configuration that was processed to its end. *)
Lemma processConfig_ok (processed : nat) (isCancelled : bool)
    (processed' : nat) (video : OutputVideo) :
  result (process processed isCancelled) = Ok (processed', video) ->
  outputOf browser videoProperties configIndex config video
    (trace (process processed isCancelled)).
Proof.
  rewrite processConfig_run. cbv zeta.
  pose proof (segmentLoop_steps browser videoUrl videoProperties totalSegments configIndex
                (segments config) 0 processed [] isCancelled) as Hsteps.
  destruct (result (segs processed [] isCancelled)) as [[done blobs]|message] eqn:Hres;
    cbn [result trace]; [|discriminate].
  destruct (segmentLoop_ok _ _ _ _ _ _ _ _ _ _ _ _ Hres) as (_ & _ & Hlen & Hblobs).
  cbn [app] in Hblobs.
  destruct (finish_plain done blobs (flag (segs processed [] isCancelled)))
    as (_ & _ & _ & _ & Hrec & _).
  pose proof (segmentSteps_no_combine _ _ _ Hsteps configIndex) as Hnone.
  unfold outputOf. rewrite recordedBlobs_app, combineCalls_app, Hrec, Hnone, app_nil_r.
  rewrite <- Hblobs in Hlen |- *. clear Hrec Hnone Hsteps.
  unfold Finish.finish.
  destruct blobs as [|only [|second others]]; cbn [result trace]; [discriminate| |].
  - intros [= _ <-]. cbn. rewrite <- Hlen. cbn. repeat split; auto; lia.
  - destruct (combineSettles browser videoProperties (combineEnv browser configIndex))
      as [finalBlob|message] eqn:Hcomb; cbn [result trace]; [|discriminate].
    intros [= _ <-]. cbn [out_name out_blob]. rewrite <- Hlen.
    cbn [combineCalls app]. rewrite Nat.eqb_refl.
    replace (combineCalls configIndex
               (cancelSteps browser (AtCombine configIndex)
                  ++ [OutputPushed configIndex
                        (mkOutput (name config) (createObjectURL browser configIndex)
                           finalBlob (Some (format videoProperties)))]))
      with (@nil (list Blob))
      by (unfold cancelSteps; now destruct (cancelDuring browser (AtCombine configIndex))).
    cbn. repeat split; auto; lia.
Qed.

(** A configuration that was processed to its end has pushed its output,
    once. *)
Lemma processConfig_pushed (processed : nat) (isCancelled : bool)
    (processed' : nat) (video : OutputVideo) :
  result (process processed isCancelled) = Ok (processed', video) ->
  pushedOutputs (trace (process processed isCancelled)) = [video].
Proof.
  rewrite processConfig_run. cbv zeta.
  pose proof (segmentLoop_steps browser videoUrl videoProperties totalSegments configIndex
                (segments config) 0 processed [] isCancelled) as Hsteps.
  apply segmentSteps_no_push in Hsteps.
  destruct (result (segs processed [] isCancelled)) as [[done blobs]|message];
    cbn [result trace]; [|discriminate].
  rewrite pushedOutputs_app, Hsteps. unfold Finish.finish.
  destruct blobs as [|only [|second others]]; cbn [result trace app]; [discriminate| |].
  - now intros [= _ <-].
  - destruct (combineSettles browser videoProperties (combineEnv browser configIndex));
      cbn [result trace app pushedOutputs]; [|discriminate].
    intros [= _ <-]. rewrite pushedOutputs_app. unfold cancelSteps.
    now destruct (cancelDuring browser (AtCombine configIndex)).
Qed.

(** Every failure of the configuration makes its processing fail. *)
Lemma processConfig_fails (processed : nat) (isCancelled : bool) (why : string) :
  Failure browser videoProperties configIndex config why ->
  exists message, result (process processed isCancelled) = Throw message.
Proof.
  intros Hfail. rewrite processConfig_run. cbv zeta.
  destruct (result (segs processed [] isCancelled)) as [[done blobs]|message] eqn:Hres;
    cbn [result]; [|eauto].
  destruct (segmentLoop_ok _ _ _ _ _ _ _ _ _ _ _ _ Hres) as (_ & _ & Hlen & Hblobs).
  cbn [app] in Hblobs. rewrite <- Hblobs in Hlen.
  destruct Hfail as [j why Hj Hsettles|Hempty|why Hmany Hcomb].
  - destruct (segmentLoop_fails browser videoUrl videoProperties totalSegments configIndex
                (segments config) 0 processed [] isCancelled j why Hj Hsettles) as [m Hm].
    congruence.
  - rewrite Hempty in Hlen. destruct blobs; [|discriminate]. cbn. eauto.
  - unfold Finish.finish. destruct blobs as [|only [|second others]]; cbn in Hlen; try lia.
    rewrite Hcomb. cbn. eauto.
Qed.

(** The failure of the processing is a failure of the configuration, with
    its message. *)
Lemma processConfig_throws (processed : nat) (isCancelled : bool) (why : string) :
  result (process processed isCancelled) = Throw why ->
  Failure browser videoProperties configIndex config why.
Proof.
  rewrite processConfig_run. cbv zeta.
  destruct (result (segs processed [] isCancelled)) as [[done blobs]|message] eqn:Hres;
    cbn [result].
  - destruct (segmentLoop_ok _ _ _ _ _ _ _ _ _ _ _ _ Hres) as (_ & _ & Hlen & Hblobs).
    cbn [app] in Hblobs. rewrite <- Hblobs in Hlen.
    unfold Finish.finish. destruct blobs as [|only [|second others]]; cbn [result].
    + intros [= <-]. apply NothingToCombine.
      destruct (segments config); [reflexivity|discriminate].
    + discriminate.
    + destruct (combineSettles browser videoProperties (combineEnv browser configIndex))
        as [finalBlob|message] eqn:Hcomb; cbn [result]; [discriminate|].
      intros [= <-]. apply CombineFailed; [|assumption]. rewrite <- Hlen. cbn. lia.
  - intros [= <-].
    destruct (segmentLoop_throws _ _ _ _ _ _ _ _ _ _ _ Hres) as (j & Hj & Hsettles).
    now apply (SegmentFailed _ _ _ _ j).
Qed.

End ProcessConfig.

(** ** The loop over the configurations *)

Section ConfigLoop.

Import VideoProcessor Reading Steps Contract.

Variable browser : Browser.
Variable videoUrl : string.
Variable videoProperties : VideoProperties.
Variable totalSegments : nat.

Local Abbreviation configs :=
  (configLoop browser videoUrl videoProperties totalSegments).
Local Abbreviation process :=
  (processConfig browser videoUrl videoProperties totalSegments).

Lemma reduce_from (rest : list VideoConfig) (base : nat) :
  List.fold_left (fun total config => total + List.length (segments config)) rest base
  = base + totalSegmentsOf rest.
Proof.
  unfold totalSegmentsOf. revert base.
  induction rest as [|next rest IH]; intros base; cbn [fold_left].
  - lia.
  - rewrite (IH (base + _)), (IH (0 + _)). lia.
Qed.

Lemma totalSegmentsOf_cons (config : VideoConfig) (rest : list VideoConfig) :
  totalSegmentsOf (config :: rest) = List.length (segments config) + totalSegmentsOf rest.
Proof. unfold totalSegmentsOf at 1. cbn [fold_left]. now rewrite reduce_from. Qed.

Lemma no_write (e : Effect) : isFlagWrite e = false -> writesOnlyByCancel e.
Proof. intros He who value ->. discriminate. Qed.

Lemma configLoop_writes (rest : list VideoConfig) (configIndex processed : nat)
    (outputVideos : list OutputVideo) (isCancelled : bool) :
  Forall writesOnlyByCancel
    (trace (configs rest configIndex processed outputVideos isCancelled)).
Proof.
  revert configIndex processed outputVideos isCancelled.
  induction rest as [|config rest IH]; intros; [constructor|].
  rewrite configLoop_cons. destruct isCancelled.
  - constructor; [now apply no_write|constructor].
  - cbv zeta.
    pose proof (processConfig_steps browser videoUrl videoProperties totalSegments
                  configIndex config processed false) as Hsteps.
    apply configSteps_quiet in Hsteps as (_ & _ & _ & Hwrites & _ & _).
    destruct (result (process configIndex config processed false)) as [[done video]|message];
      cbn [trace app]; repeat (constructor; [now apply no_write|]);
      rewrite ?Forall_app; auto.
Qed.

Lemma configLoop_flag (rest : list VideoConfig) (configIndex processed : nat)
    (outputVideos : list OutputVideo) (isCancelled : bool) :
  flag (configs rest configIndex processed outputVideos isCancelled)
  = isCancelled
    || cancelRequested (trace (configs rest configIndex processed outputVideos isCancelled)).
Proof.
  revert configIndex processed outputVideos isCancelled.
  induction rest as [|config rest IH]; intros; [cbn; now rewrite orb_false_r|].
  rewrite configLoop_cons. destruct isCancelled; [reflexivity|]. cbv zeta.
  pose proof (processConfig_flag browser videoUrl videoProperties totalSegments
                configIndex config processed false) as Hflag.
  destruct (result (process configIndex config processed false)) as [[done video]|message];
    cbn [flag trace app cancelRequested existsb isCancelWrite orb].
  - rewrite IH, Hflag.
    fold (cancelRequested
            (trace (process configIndex config processed false)
               ++ trace (configs rest (S configIndex) done (outputVideos ++ [video])
                           (flag (process configIndex config processed false))))).
    now rewrite cancelRequested_app.
  - exact Hflag.
Qed.

(** The flag is read once at the start of each iteration: at the indices
    [configIndex], [configIndex + 1], ... in order, and at all of them
    when the loop returns. *)
Lemma configLoop_reads (rest : list VideoConfig) (configIndex processed : nat)
    (outputVideos : list OutputVideo) (isCancelled : bool) :
  exists n,
    flagReads (trace (configs rest configIndex processed outputVideos isCancelled))
    = List.seq configIndex n
    /\ n <= List.length rest
    /\ (forall outputs,
          result (configs rest configIndex processed outputVideos isCancelled) = Ok outputs ->
          n = List.length rest).
Proof.
  revert configIndex processed outputVideos isCancelled.
  induction rest as [|config rest IH]; intros; [exists 0; cbn; auto|].
  rewrite configLoop_cons. destruct isCancelled.
  - exists 1. cbn. repeat split; [lia|discriminate].
  - cbv zeta.
    pose proof (processConfig_steps browser videoUrl videoProperties totalSegments
                  configIndex config processed false) as Hsteps.
    apply configSteps_quiet in Hsteps as (Hreads & _).
    destruct (result (process configIndex config processed false)) as [[done video]|message];
      cbn [result trace app flagReads].
    + destruct (IH (S configIndex) done (outputVideos ++ [video])
                  (flag (process configIndex config processed false)))
        as (n & Hn & Hle & Hall).
      exists (S n). rewrite flagReads_app, Hreads, Hn. cbn. repeat split; [lia|].
      intros outputs Hok. f_equal. eauto.
    + exists 1. rewrite Hreads. cbn. repeat split; [lia|discriminate].
Qed.

(** The progress calls of the loop. *)
Lemma configLoop_progress (rest : list VideoConfig) (configIndex processed : nat)
    (outputVideos : list OutputVideo) (isCancelled : bool) :
  let o := configs rest configIndex processed outputVideos isCancelled in
  progressValues (trace o)
  = List.map (fun k => progressValue k totalSegments)
      (List.seq (S processed) (completed (trace o)))
  /\ progressFollows false (trace o) = true
  /\ completed (trace o) <= totalSegmentsOf rest
  /\ (forall outputs, result o = Ok outputs -> completed (trace o) = totalSegmentsOf rest).
Proof.
  revert configIndex processed outputVideos isCancelled.
  induction rest as [|config rest IH]; intros; subst o.
  - cbn. auto.
  - rewrite configLoop_cons, totalSegmentsOf_cons. destruct isCancelled.
    + cbn. repeat split; [lia|discriminate].
    + cbv zeta.
      destruct (processConfig_progress browser videoUrl videoProperties totalSegments
                  configIndex config processed false) as (Hp & Hf & Hc & Hok).
      destruct (result (process configIndex config processed false))
        as [[done video]|message];
        cbn [result trace app progressValues progressFollows negb andb].
      * destruct (Hok done video eq_refl) as (-> & Hall).
        destruct (IH (S configIndex) (processed + List.length (segments config))
                    (outputVideos ++ [video])
                    (flag (process configIndex config processed false)))
          as (IHp & IHf & IHc & IHok).
        change (completed (FlagRead configIndex false :: ConfigStarted configIndex :: ?t))
          with (completed t).
        rewrite progressValues_app, completed_app, (progressFollows_app _ _ _ Hf), Hp, IHp.
        rewrite Hall, seq_app, map_app.
        replace (S processed + List.length (segments config))
          with (S (processed + List.length (segments config))) by lia.
        repeat split; [assumption|lia|]. intros outputs Hout. now rewrite (IHok outputs).
      * change (completed (FlagRead configIndex false :: ConfigStarted configIndex :: ?t))
          with (completed t).
        repeat split; [assumption|assumption|lia|discriminate].
Qed.

(** The loop from [configIndex] on makes no step of an earlier
    configuration. *)
Lemma configLoop_later (rest : list VideoConfig) (configIndex processed : nat)
    (outputVideos : list OutputVideo) (isCancelled : bool) (j : nat) :
  j < configIndex ->
  let t := trace (configs rest configIndex processed outputVideos isCancelled) in
  recordedBlobs j t = [] /\ combineCalls j t = [].
Proof.
  revert configIndex processed outputVideos isCancelled.
  induction rest as [|config rest IH]; intros configIndex processed outputVideos isCancelled Hj;
    [cbn; auto|].
  cbv zeta. rewrite configLoop_cons. destruct isCancelled; [cbn; auto|]. cbv zeta.
  pose proof (processConfig_steps browser videoUrl videoProperties totalSegments
                configIndex config processed false) as Hsteps.
  apply configSteps_quiet in Hsteps as (_ & _ & _ & _ & Hother & _).
  destruct (Hother j ltac:(lia)) as (Hrec & Hcomb).
  destruct (result (process configIndex config processed false)) as [[done video]|message];
    cbn [trace app recordedBlobs combineCalls]; [|auto].
  rewrite recordedBlobs_app, combineCalls_app, Hrec, Hcomb.
  apply IH. lia.
Qed.

Lemma outputOf_same (i : nat) (config : VideoConfig) (video : OutputVideo)
    (t t' : list Effect) :
  recordedBlobs i t' = recordedBlobs i t ->
  combineCalls i t' = combineCalls i t ->
  outputOf browser videoProperties i config video t ->
  outputOf browser videoProperties i config video t'.
Proof. unfold outputOf. intros -> ->. auto. Qed.

(** A loop that returns gives one output for each configuration, in
    order, after the outputs it started with. *)
Lemma configLoop_ok (rest : list VideoConfig) (configIndex processed : nat)
    (outputVideos : list OutputVideo) (isCancelled : bool) (outputs : list OutputVideo) :
  result (configs rest configIndex processed outputVideos isCancelled) = Ok outputs ->
  exists added,
    outputs = outputVideos ++ added
    /\ List.length added = List.length rest
    /\ forall k config,
         nth_error rest k = Some config ->
         exists video,
           nth_error added k = Some video
           /\ outputOf browser videoProperties (configIndex + k) config video
                (trace (configs rest configIndex processed outputVideos isCancelled)).
Proof.
  revert configIndex processed outputVideos isCancelled.
  induction rest as [|config rest IH]; intros configIndex processed outputVideos isCancelled.
  - cbn. intros [= <-]. exists []. rewrite app_nil_r. repeat split.
    intros [|k] config; discriminate.
  - rewrite configLoop_cons. destruct isCancelled; [discriminate|]. cbv zeta.
    pose proof (processConfig_steps browser videoUrl videoProperties totalSegments
                  configIndex config processed false) as Hsteps.
    apply configSteps_quiet in Hsteps as (_ & _ & _ & _ & Hother & _).
    pose proof (processConfig_ok browser videoUrl videoProperties totalSegments
                  configIndex config processed false) as Hout.
    destruct (result (process configIndex config processed false)) as [[done video]|message];
      cbn [result trace]; [|discriminate].
    intros Hok.
    destruct (configLoop_later rest (S configIndex) done (outputVideos ++ [video])
                (flag (process configIndex config processed false)) configIndex
                ltac:(lia)) as (Hrec & Hcomb).
    destruct (IH _ _ _ _ Hok) as (added & -> & Hlen & Hnth).
    exists (video :: added). rewrite <- app_assoc. repeat split; [cbn; lia|].
    intros [|k] config' Hk; cbn [nth_error] in Hk.
    + injection Hk as <-. exists video. split; [reflexivity|].
      rewrite Nat.add_0_r.
      apply (outputOf_same _ _ _ (trace (process configIndex config processed false)));
        [| |exact (Hout done video eq_refl)].
      * cbn [app recordedBlobs]. now rewrite recordedBlobs_app, Hrec, app_nil_r.
      * cbn [app combineCalls]. now rewrite combineCalls_app, Hcomb, app_nil_r.
    + destruct (Hnth k config' Hk) as (video' & Hv & Hout').
      exists video'. split; [exact Hv|].
      replace (configIndex + S k) with (S configIndex + k) by lia.
      destruct (Hother (S configIndex + k) ltac:(lia)) as (Hrec' & Hcomb').
      eapply outputOf_same; [| |exact Hout'].
      * cbn [app recordedBlobs]. now rewrite recordedBlobs_app, Hrec'.
      * cbn [app combineCalls]. now rewrite combineCalls_app, Hcomb'.
Qed.

(** The list that the loop returns is the list it started with and the
    records pushed while it ran. *)
Lemma configLoop_pushed (rest : list VideoConfig) (configIndex processed : nat)
    (outputVideos : list OutputVideo) (isCancelled : bool) (outputs : list OutputVideo) :
  result (configs rest configIndex processed outputVideos isCancelled) = Ok outputs ->
  outputs
  = outputVideos
      ++ pushedOutputs (trace (configs rest configIndex processed outputVideos isCancelled)).
Proof.
  revert configIndex processed outputVideos isCancelled.
  induction rest as [|config rest IH]; intros configIndex processed outputVideos isCancelled.
  - cbn. intros [= <-]. now rewrite app_nil_r.
  - rewrite configLoop_cons. destruct isCancelled; [discriminate|]. cbv zeta.
    pose proof (processConfig_pushed browser videoUrl videoProperties totalSegments
                  configIndex config processed false) as Hpushed.
    destruct (result (process configIndex config processed false)) as [[done video]|message];
      cbn [result trace app pushedOutputs]; [|discriminate].
    intros Hok. apply IH in Hok.
    now rewrite pushedOutputs_app, (Hpushed done video eq_refl), Hok, <- app_assoc.
Qed.

(** A failure of one configuration makes the loop fail, and no later
    configuration is started. *)
Lemma configLoop_fails (rest : list VideoConfig) (configIndex processed : nat)
    (outputVideos : list OutputVideo) (isCancelled : bool)
    (k : nat) (config : VideoConfig) (why : string) :
  nth_error rest k = Some config ->
  Failure browser videoProperties (configIndex + k) config why ->
  let o := configs rest configIndex processed outputVideos isCancelled in
  (exists message, result o = Throw message)
  /\ forall later, configIndex + k < later -> ~ In (ConfigStarted later) (trace o).
Proof.
  revert configIndex processed outputVideos isCancelled k.
  induction rest as [|first rest IH];
    intros configIndex processed outputVideos isCancelled k Hk Hfail; [now destruct k|].
  cbv zeta. rewrite configLoop_cons. destruct isCancelled.
  - cbn. split; [eauto|]. intros later _ [H|[]]. discriminate.
  - cbv zeta.
    pose proof (processConfig_steps browser videoUrl videoProperties totalSegments
                  configIndex first processed false) as Hsteps.
    apply configSteps_quiet in Hsteps as (_ & Hquiet & _).
    destruct (result (process configIndex first processed false))
      as [[done video]|message] eqn:Hres; cbn [result trace app].
    + destruct k as [|k]; cbn [nth_error] in Hk.
      * injection Hk as ->. rewrite Nat.add_0_r in Hfail.
        destruct (processConfig_fails browser videoUrl videoProperties totalSegments
                    configIndex config processed false why Hfail) as [m Hm].
        congruence.
      * replace (configIndex + S k) with (S configIndex + k) in * by lia.
        destruct (IH (S configIndex) done (outputVideos ++ [video])
                    (flag (process configIndex first processed false)) k Hk Hfail)
          as (Hthrow & Hnone).
        split; [exact Hthrow|].
        intros later Hlater [H|[H|H]]; [discriminate|injection H; lia|].
        apply in_app_or in H as [H|H]; [exact (Hquiet _ H)|exact (Hnone _ Hlater H)].
    + split; [eauto|].
      intros later Hlater [H|[H|H]]; [discriminate|injection H; lia|exact (Hquiet _ H)].
Qed.

(** The failure of the loop is a cancellation seen at the start of an
    iteration, or the failure of one configuration. *)
Lemma configLoop_throws (rest : list VideoConfig) (configIndex processed : nat)
    (outputVideos : list OutputVideo) (isCancelled : bool) (why : string) :
  let o := configs rest configIndex processed outputVideos isCancelled in
  result o = Throw why ->
  (why = "Processing cancelled" /\ (isCancelled = true \/ In cancelWrite (trace o)))
  \/ exists k config,
       nth_error rest k = Some config
       /\ Failure browser videoProperties (configIndex + k) config why.
Proof.
  revert configIndex processed outputVideos isCancelled.
  induction rest as [|first rest IH]; intros configIndex processed outputVideos isCancelled;
    [discriminate|].
  cbv zeta. rewrite configLoop_cons. destruct isCancelled.
  - cbn. intros [= <-]. auto.
  - cbv zeta.
    pose proof (processConfig_flag browser videoUrl videoProperties totalSegments
                  configIndex first processed false) as Hflag.
    pose proof (processConfig_throws browser videoUrl videoProperties totalSegments
                  configIndex first processed false) as Hthrows.
    destruct (result (process configIndex first processed false))
      as [[done video]|message] eqn:Hres; cbn [result trace app].
    + intros Hthrow. apply IH in Hthrow as [(-> & Hseen)|(k & config & Hk & Hfail)].
      * left. split; [reflexivity|]. right. right. right. apply in_or_app.
        destruct Hseen as [Hseen|Hseen]; [left|now right].
        rewrite Hflag in Hseen. now apply cancelRequested_In.
      * right. exists (S k), config. split; [exact Hk|].
        now replace (configIndex + S k) with (S configIndex + k) by lia.
    + intros [= <-]. right. exists 0, first. split; [reflexivity|].
      rewrite Nat.add_0_r. now apply Hthrows.
Qed.

End ConfigLoop.

(** ** Cancellation *)

Section Cancellation.

Import VideoProcessor Reading Steps Contract.

Lemma app_split_at {A} (l1 l2 before after : list A) (x : A) :
  l1 ++ l2 = before ++ x :: after ->
  (exists mid, l1 = before ++ x :: mid /\ after = mid ++ l2)
  \/ (exists mid, before = l1 ++ mid /\ l2 = mid ++ x :: after).
Proof.
  revert before. induction l1 as [|a l1 IH]; intros before H.
  - right. exists before. auto.
  - destruct before as [|b before]; cbn in H; injection H as -> H.
    + left. exists l1. auto.
    + apply IH in H as [(mid & -> & ->)|(mid & -> & ->)]; [left|right]; exists mid; auto.
Qed.

Variable browser : Browser.
Variable videoUrl : string.
Variable videoProperties : VideoProperties.
Variable totalSegments : nat.

Local Abbreviation configs :=
  (configLoop browser videoUrl videoProperties totalSegments).
Local Abbreviation process :=
  (processConfig browser videoUrl videoProperties totalSegments).

(** Every [cancelProcessing] in the trace of the loop is the user's. *)
Lemma configLoop_user (rest : list VideoConfig) (configIndex processed : nat)
    (outputVideos : list OutputVideo) (isCancelled : bool) :
  In cancelWrite (trace (configs rest configIndex processed outputVideos isCancelled)) ->
  userCancels browser.
Proof.
  revert configIndex processed outputVideos isCancelled.
  induction rest as [|config rest IH]; intros configIndex processed outputVideos isCancelled;
    [intros []|].
  rewrite configLoop_cons. destruct isCancelled; [intros [H|[]]; discriminate|]. cbv zeta.
  pose proof (processConfig_steps browser videoUrl videoProperties totalSegments
                configIndex config processed false) as Hsteps.
  apply configSteps_quiet in Hsteps as (_ & _ & _ & _ & _ & Huser).
  destruct (result (process configIndex config processed false)) as [[done video]|message];
    cbn [trace app]; intros [H|[H|H]]; try discriminate; auto.
  apply in_app_or in H as [H|H]; eauto.
Qed.

(** With the flag set, the loop starts nothing: it returns at once when
    no configuration is left, and fails at its first check otherwise. *)
Lemma configLoop_cancelled (rest : list VideoConfig) (configIndex processed : nat)
    (outputVideos : list OutputVideo) :
  let o := configs rest configIndex processed outputVideos true in
  (forall i, ~ In (ConfigStarted i) (trace o))
  /\ (forall i v, In (FlagRead i v) (trace o) -> result o = Throw "Processing cancelled").
Proof.
  destruct rest as [|config rest]; [cbn; split; [intros i []|intros i v []]|].
  cbv zeta. rewrite configLoop_cons. cbn. split; [|reflexivity].
  intros i [H|[]]. discriminate.
Qed.

(** After a [cancelProcessing] no configuration is started, and the next
    check of the flag makes the loop fail. *)
Lemma configLoop_after_cancel (rest : list VideoConfig) (configIndex processed : nat)
    (outputVideos : list OutputVideo) (isCancelled : bool) (before after : list Effect) :
  let o := configs rest configIndex processed outputVideos isCancelled in
  trace o = before ++ cancelWrite :: after ->
  (forall i, ~ In (ConfigStarted i) after)
  /\ (forall i v, In (FlagRead i v) after -> result o = Throw "Processing cancelled").
Proof.
  revert configIndex processed outputVideos isCancelled before.
  induction rest as [|config rest IH];
    intros configIndex processed outputVideos isCancelled before; cbv zeta.
  - cbn. intros H. now destruct before.
  - rewrite configLoop_cons. destruct isCancelled.
    + cbn. intros H. destruct before as [|b [|b' before]]; discriminate.
    + cbv zeta.
      pose proof (processConfig_steps browser videoUrl videoProperties totalSegments
                    configIndex config processed false) as Hsteps.
      pose proof (processConfig_flag browser videoUrl videoProperties totalSegments
                    configIndex config processed false) as Hflag.
      destruct (result (process configIndex config processed false))
        as [[done video]|message]; cbn [result trace app]; intros H.
      * destruct before as [|b [|b' before]]; try discriminate.
        injection H as _ _ H.
        apply app_split_at in H as [(mid & Hmid & ->)|(mid & -> & Hmid)].
        -- rewrite Hmid in Hsteps, Hflag.
           apply Forall_app in Hsteps as (_ & Hsteps). inversion_clear Hsteps as [|? ? _ Hsteps'].
           apply configSteps_quiet in Hsteps' as (_ & Hstart & Hread & _).
           rewrite cancelRequested_app in Hflag. cbn in Hflag.
           rewrite orb_true_r in Hflag. rewrite Hflag.
           destruct (configLoop_cancelled rest (S configIndex) done (outputVideos ++ [video]))
             as (Hstart' & Hread').
           split.
           ++ intros i Hin. apply in_app_or in Hin as [Hin|Hin];
                [exact (Hstart _ Hin)|exact (Hstart' _ Hin)].
           ++ intros i v Hin. apply in_app_or in Hin as [Hin|Hin];
                [destruct (Hread _ _ Hin)|exact (Hread' _ _ Hin)].
        -- exact (IH _ _ _ _ _ Hmid).
      * destruct before as [|b [|b' before]]; try discriminate.
        injection H as _ _ H. rewrite H in Hsteps.
        apply Forall_app in Hsteps as (_ & Hsteps). inversion_clear Hsteps as [|? ? _ Hsteps'].
        apply configSteps_quiet in Hsteps' as (_ & Hstart & Hread & _).
        split; [exact Hstart|]. intros i v Hin. destruct (Hread _ _ Hin).
Qed.

End Cancellation.

(** *** A recording is not interrupted *)

Section Uninterrupted.

Import VideoProcessor Reading Steps Contract.

Variable browser : Browser.
Variable videoUrl : string.
Variable videoProperties : VideoProperties.
Variable totalSegments : nat.
Variable configIndex : nat.

Lemma cancelSteps_filtered (p : AwaitPoint) :
  List.filter notFlagWrite (cancelSteps browser p) = [].
Proof. unfold cancelSteps. now destruct (cancelDuring browser p). Qed.

(** The segment loop gives the same result and makes the same steps,
    the writes of the flag apart, whether or not the user cancels while
    it runs, and whatever the flag is. *)
Lemma segmentLoop_uninterrupted (rest : list VideoSegment) (segIdx processed : nat)
    (blobs : list Blob) (isCancelled isCancelled' : bool) :
  let o := segmentLoop browser videoUrl videoProperties totalSegments configIndex
             rest segIdx processed blobs isCancelled in
  let o' := segmentLoop (neverCancelled browser) videoUrl videoProperties totalSegments
              configIndex rest segIdx processed blobs isCancelled' in
  result o = result o' /\ List.filter notFlagWrite (trace o) = trace o'.
Proof.
  revert segIdx processed blobs isCancelled isCancelled'.
  induction rest as [|segment rest IH]; intros; subst o o'; [cbn; auto|].
  rewrite !segmentLoop_cons. cbv zeta.
  change (extractSettles (neverCancelled browser) videoProperties
            (segmentEnv (neverCancelled browser) configIndex segIdx))
    with (extractSettles browser videoProperties (segmentEnv browser configIndex segIdx)).
  destruct (extractSettles browser videoProperties (segmentEnv browser configIndex segIdx))
    as [segmentBlob|message]; cbn [result trace].
  - specialize (IH (S segIdx) (S processed) (blobs ++ [segmentBlob])
                  (flagAfter browser (AtSegment configIndex segIdx) isCancelled)
                  (flagAfter (neverCancelled browser) (AtSegment configIndex segIdx)
                     isCancelled')).
    cbv zeta in IH. destruct IH as (IHr & IHt).
    split; [exact IHr|].
    cbn [app List.filter notFlagWrite].
    rewrite filter_app, cancelSteps_filtered.
    cbn [app List.filter notFlagWrite]. now rewrite IHt.
  - split; [reflexivity|]. cbn [List.filter notFlagWrite].
    now rewrite cancelSteps_filtered.
Qed.

(** So does the processing of a whole configuration. *)
Lemma processConfig_uninterrupted (config : VideoConfig) (processed : nat)
    (isCancelled isCancelled' : bool) :
  let o := processConfig browser videoUrl videoProperties totalSegments configIndex
             config processed isCancelled in
  let o' := processConfig (neverCancelled browser) videoUrl videoProperties totalSegments
              configIndex config processed isCancelled' in
  result o = result o' /\ List.filter notFlagWrite (trace o) = trace o'.
Proof.
  cbv zeta. rewrite !processConfig_run. cbv zeta.
  destruct (segmentLoop_uninterrupted (segments config) 0 processed [] isCancelled isCancelled')
    as (Hr & Ht).
  rewrite <- Hr, <- Ht.
  destruct (result (segmentLoop browser videoUrl videoProperties totalSegments configIndex
                      (segments config) 0 processed [] isCancelled))
    as [[done blobs]|message]; cbn [result trace]; [|auto].
  rewrite filter_app. unfold Finish.finish.
  change (combineSettles (neverCancelled browser) videoProperties
            (combineEnv (neverCancelled browser) configIndex))
    with (combineSettles browser videoProperties (combineEnv browser configIndex)).
  destruct blobs as [|only [|second others]]; cbn [result trace]; auto.
  destruct (combineSettles browser videoProperties (combineEnv browser configIndex));
    cbn [result trace app List.filter notFlagWrite];
    rewrite ?filter_app, cancelSteps_filtered; auto.
Qed.

End Uninterrupted.

(** *** A cancellation that no check sees *)

Section Unobserved.

Import VideoProcessor Reading Steps Contract.

Variable browser : Browser.
Variable videoUrl : string.
Variable videoProperties : VideoProperties.
Variable totalSegments : nat.

Local Abbreviation configs :=
  (configLoop browser videoUrl videoProperties totalSegments).
Local Abbreviation process :=
  (processConfig browser videoUrl videoProperties totalSegments).

Lemma cancelRequested_filtered (t : list Effect) :
  cancelRequested (List.filter notFlagWrite t) = false.
Proof. induction t as [|[] t IH]; cbn; auto. Qed.

Lemma filter_notFlagWrite_twice (t : list Effect) :
  List.filter notFlagWrite (List.filter notFlagWrite t) = List.filter notFlagWrite t.
Proof. induction t as [|[] t IH]; cbn; congruence. Qed.

(** When no check of the flag finds it set, the loop gives the result and
    makes the steps, the writes of the flag apart, of the same loop with a
    user who never cancels. *)
Lemma configLoop_unobserved (rest : list VideoConfig) (configIndex processed : nat)
    (outputVideos : list OutputVideo) (isCancelled : bool) :
  let o := configs rest configIndex processed outputVideos isCancelled in
  let o' := configLoop (neverCancelled browser) videoUrl videoProperties totalSegments
              rest configIndex processed outputVideos false in
  (forall i, ~ In (FlagRead i true) (trace o)) ->
  result o = result o' /\ List.filter notFlagWrite (trace o) = trace o'.
Proof.
  revert configIndex processed outputVideos isCancelled.
  induction rest as [|config rest IH];
    intros configIndex processed outputVideos isCancelled; cbv zeta.
  - cbn. auto.
  - rewrite !configLoop_cons. destruct isCancelled.
    + cbn [trace]. intros Hnone. destruct (Hnone configIndex). now left.
    + cbv zeta.
      destruct (processConfig_uninterrupted browser videoUrl videoProperties totalSegments
                  configIndex config processed false false) as (Hr & Ht).
      pose proof (processConfig_flag (neverCancelled browser) videoUrl videoProperties
                    totalSegments configIndex config processed false) as Hflag.
      rewrite <- Ht, cancelRequested_filtered in Hflag. cbn [orb] in Hflag.
      rewrite Hflag, <- Hr, <- Ht.
      pose proof (processConfig_steps browser videoUrl videoProperties totalSegments
                    configIndex config processed false) as Hsteps.
      destruct (result (process configIndex config processed false))
        as [[done video]|message]; cbn [result trace]; intros Hnone.
      * destruct (IH (S configIndex) done (outputVideos ++ [video])
                    (flag (process configIndex config processed false))) as (IHr & IHt).
        { intros i Hin. apply (Hnone i). cbn [app]. right. right. apply in_or_app. now right. }
        split; [exact IHr|].
        cbn [app List.filter notFlagWrite]. now rewrite filter_app, IHt.
      * split; reflexivity.
Qed.

(** Once the last configuration has started, no check of the flag has
    found it set, and none follows. *)
Lemma configLoop_last_started (rest : list VideoConfig) (configIndex processed : nat)
    (outputVideos : list OutputVideo) (isCancelled : bool) :
  let o := configs rest configIndex processed outputVideos isCancelled in
  In (ConfigStarted (configIndex + List.length rest - 1)) (trace o) ->
  forall i, ~ In (FlagRead i true) (trace o).
Proof.
  revert configIndex processed outputVideos isCancelled.
  induction rest as [|config rest IH];
    intros configIndex processed outputVideos isCancelled; cbv zeta.
  - intros [].
  - rewrite configLoop_cons. destruct isCancelled.
    + cbn [trace]. intros [H|[]]. discriminate.
    + cbv zeta.
      pose proof (processConfig_steps browser videoUrl videoProperties totalSegments
                    configIndex config processed false) as Hsteps.
      apply configSteps_quiet in Hsteps as (_ & Hstart & Hread & _).
      destruct (result (process configIndex config processed false))
        as [[done video]|message]; cbn [result trace app].
      * intros [H|[H|H]] i [Hin|[Hin|Hin]]; try discriminate;
          apply in_app_or in Hin as [Hin|Hin]; try (exact (Hread _ _ Hin)).
        -- injection H as H. destruct rest as [|next rest]; [destruct Hin|cbn in H; lia].
        -- apply in_app_or in H as [H|H]; [exact (Hstart _ H)|].
           refine (IH (S configIndex) done (outputVideos ++ [video]) _ _ i Hin).
           replace (S configIndex + List.length rest - 1)
             with (configIndex + List.length (config :: rest) - 1) by (cbn; lia).
           exact H.
      * intros _ i [Hin|[Hin|Hin]]; try discriminate. exact (Hread _ _ Hin).
Qed.

(** And no check of the flag comes after that start. *)
Lemma configLoop_no_read_after_last (rest : list VideoConfig) (configIndex processed : nat)
    (outputVideos : list OutputVideo) (isCancelled : bool) (before after : list Effect) :
  let o := configs rest configIndex processed outputVideos isCancelled in
  trace o = before ++ ConfigStarted (configIndex + List.length rest - 1) :: after ->
  forall i v, ~ In (FlagRead i v) after.
Proof.
  revert configIndex processed outputVideos isCancelled before.
  induction rest as [|config rest IH];
    intros configIndex processed outputVideos isCancelled before; cbv zeta.
  - cbn. intros H. now destruct before.
  - rewrite configLoop_cons. destruct isCancelled.
    + cbn. intros H. destruct before as [|b [|b' before]]; discriminate.
    + cbv zeta.
      pose proof (processConfig_steps browser videoUrl videoProperties totalSegments
                    configIndex config processed false) as Hsteps.
      apply configSteps_quiet in Hsteps as (_ & Hstart & Hread & _).
      assert (Hin_mid : forall (l before' : list Effect) k after',
                 l = before' ++ ConfigStarted k :: after' -> In (ConfigStarted k) l).
      { intros l before' k after' ->. apply in_or_app. right. now left. }
      destruct (result (process configIndex config processed false))
        as [[done video]|message]; cbn [result trace app]; intros H.
      * destruct before as [|b [|b' before]]; try discriminate.
        -- injection H as _ H Hafter. subst after.
           destruct rest as [|next rest]; [|cbn in H; lia].
           cbn [configLoop ret trace]. rewrite app_nil_r. exact Hread.
        -- injection H as _ _ H.
           apply app_split_at in H as [(mid & Hmid & _)|(mid & _ & Hmid)].
           ++ destruct (Hstart _ (Hin_mid _ _ _ _ Hmid)).
           ++ refine (IH (S configIndex) done (outputVideos ++ [video]) _ mid _).
              replace (S configIndex + List.length rest - 1)
                with (configIndex + List.length (config :: rest) - 1) by (cbn; lia).
              exact Hmid.
      * destruct before as [|b [|b' before]]; try discriminate.
        -- injection H as _ _ Hafter. subst after. exact Hread.
        -- injection H as _ _ H. destruct (Hstart _ (Hin_mid _ _ _ _ H)).
Qed.

End Unobserved.

(** ** Progress values *)

Section Progress.

Import VideoProcessor Reading Steps.

Lemma progressValue_le (k k' total : nat) :
  0 < total -> k <= k' -> (progressValue k total <= progressValue k' total)%Q.
Proof.
  intros Htotal Hk. unfold progressValue.
  apply Qmult_le_compat_r; [|discriminate].
  unfold Qdiv. apply Qmult_le_compat_r.
  - rewrite <- Zle_Qle. lia.
  - apply Qinv_le_0_compat. change 0%Q with (inject_Z 0). rewrite <- Zle_Qle. lia.
Qed.

Lemma progressValue_100 (k total : nat) :
  0 < total -> (progressValue k total == 100)%Q <-> k = total.
Proof.
  intros Htotal. unfold progressValue.
  assert (Hnz : ~ (inject_Z (Z.of_nat total) == 0)%Q).
  { change 0%Q with (inject_Z 0). rewrite inject_Z_injective. lia. }
  split.
  - intros H.
    assert (H1 : (inject_Z (Z.of_nat k) / inject_Z (Z.of_nat total) == 1)%Q).
    { apply (Qmult_inj_r _ _ 100); [discriminate|]. now rewrite H. }
    assert (H2 : (inject_Z (Z.of_nat k) == inject_Z (Z.of_nat total))%Q).
    { rewrite <- (Qmult_div_r (inject_Z (Z.of_nat k)) _ Hnz), H1. ring. }
    apply (proj1 (inject_Z_injective _ _)) in H2. lia.
  - intros ->. unfold Qdiv. rewrite Qmult_inv_r by exact Hnz. reflexivity.
Qed.

(** Just before a progress call, one more segment has completed than
    has been reported. *)
Lemma progressFollows_count (before after : list Effect) (p : Q) (expecting : bool) :
  progressFollows expecting (before ++ OnProgress p :: after) = true ->
  completed before + (if expecting then 1 else 0)
  = List.length (progressValues before) + 1.
Proof.
  revert expecting. induction before as [|e before IH]; intros expecting H.
  - cbn in H. destruct expecting; [reflexivity|discriminate].
  - destruct e; cbn [app progressFollows] in H;
      apply andb_true_iff in H as [Hb H]; apply IH in H;
      destruct expecting; try discriminate;
      unfold completed in *; cbn [progressValues List.filter List.length] in *; lia.
Qed.

Lemma nth_error_Some_length_lt {A} (l : list A) (i : nat) (a : A) :
  nth_error l i = Some a -> i < List.length l.
Proof. intros H. apply nth_error_Some. congruence. Qed.

Lemma nth_error_progress (total start count i : nat) (p : Q) :
  nth_error (List.map (fun k => progressValue k total) (List.seq start count)) i = Some p ->
  i < count /\ p = progressValue (start + i) total.
Proof.
  intros H.
  assert (Hi : i < count).
  { apply nth_error_Some_length_lt in H. now rewrite length_map, length_seq in H. }
  split; [exact Hi|].
  rewrite nth_error_map, nth_error_seq in H.
  destruct (Nat.ltb_spec i count); [|lia]. cbn in H. congruence.
Qed.

End Progress.

(** ** The re-recording *)

(** The promise of the re-recording of two or more blobs is rejected on
    every path: the first run of the handler throws, the first [play()]
    is rejected, the new load fails, or the handler runs again and
    throws, or interrupts the first [play()]. *)
Lemma combineSettles_rejects (browser : VideoProcessor.Browser)
    (videoProperties : VideoProcessor.VideoProperties) (env : VideoProcessor.CombineEnv) :
  exists message,
    VideoProcessor.combineSettles browser videoProperties env = VideoProcessor.Throw message.
Proof.
  unfold VideoProcessor.combineSettles. cbv zeta.
  destruct (VideoProcessor.comb_loaded env); [|eauto].
  destruct (VideoProcessor.handlerThrows _ (VideoProcessor.comb_handler env)); [eauto|].
  destruct (VideoProcessor.comb_afterPlay env) as [error| |again abort]; eauto.
  destruct (VideoProcessor.handlerThrows _ again); eauto.
Qed.

(** ** The contract of [processVideos] *)

Section Claims.

Import VideoProcessor Reading Steps Contract.

Variable browser : Browser.
Variable videoUrl : string.
Variable videoConfigs : list VideoConfig.
Variable isCancelled : bool.

Local Abbreviation run := (processVideos browser videoUrl videoConfigs isCancelled).

(** The steps of a run before its loop: the reset of the flag and what
    the user does while the source loads. *)
Lemma waiting_for_source :
  forall e, In e (cancelSteps browser AtSourceLoad) ->
            e = cancelWrite /\ cancelDuring browser AtSourceLoad = true.
Proof.
  unfold cancelSteps. intros e.
  destruct (cancelDuring browser AtSourceLoad); [intros [<-|[]]; auto|intros []].
Qed.

Lemma processVideos_ok_length (outputs : list OutputVideo) :
  result run = Ok outputs -> List.length outputs = List.length videoConfigs.
Proof.
  rewrite processVideos_run. cbv zeta.
  destruct (runProperties browser videoUrl) as [videoProperties|]; cbn [result];
    [|discriminate].
  intros Hok. apply configLoop_ok in Hok as (added & -> & Hlen & _). exact Hlen.
Qed.

Lemma processVideos_pushed (outputs : list OutputVideo) :
  result run = Ok outputs -> pushedOutputs (trace run) = outputs.
Proof.
  rewrite processVideos_run. cbv zeta.
  destruct (runProperties browser videoUrl) as [videoProperties|]; cbn [result trace];
    [|discriminate].
  intros Hok. apply configLoop_pushed in Hok. cbn [app] in Hok.
  cbn [app pushedOutputs]. rewrite pushedOutputs_app, <- Hok.
  unfold cancelSteps. now destruct (cancelDuring browser AtSourceLoad).
Qed.

(** A run that returns gives exactly one output for each configuration,
    in order, and these are the records it pushed; each is read against
    the trace by [outputOf]. *)
Lemma processVideos_one_output_each (outputs : list OutputVideo) :
  result run = Ok outputs ->
  List.length outputs = List.length videoConfigs
  /\ pushedOutputs (trace run) = outputs
  /\ exists videoProperties,
       runProperties browser videoUrl = Some videoProperties
       /\ forall i config,
            nth_error videoConfigs i = Some config ->
            exists video,
              nth_error outputs i = Some video
              /\ outputOf browser videoProperties i config video (trace run).
Proof.
  intros Hok. split; [now apply processVideos_ok_length|].
  split; [now apply processVideos_pushed|].
  revert Hok. rewrite processVideos_run. cbv zeta.
  destruct (runProperties browser videoUrl) as [videoProperties|]; cbn [result trace];
    [|discriminate].
  intros Hok. exists videoProperties. split; [reflexivity|].
  apply configLoop_ok in Hok as (added & -> & _ & Hnth).
  intros i config Hi. destruct (Hnth i config Hi) as (video & Hv & Hout).
  exists video. split; [exact Hv|].
  eapply outputOf_same; [| |exact Hout].
  - cbn [app recordedBlobs]. rewrite recordedBlobs_app.
    unfold cancelSteps. now destruct (cancelDuring browser AtSourceLoad).
  - cbn [app combineCalls]. rewrite combineCalls_app.
    unfold cancelSteps. now destruct (cancelDuring browser AtSourceLoad).
Qed.

(** C3: the progress callback is called once directly after each
    completed segment and at no other time; the k-th call gives
    [(k / totalSegments) * 100]; the values never decrease; and a value
    is 100 exactly when every segment of every configuration has
    completed before it.  A run that returns has reported all of them. *)
Theorem C3_progress_after_each_segment :
  let total := totalSegmentsOf videoConfigs in
  let values := progressValues (trace run) in
  progressFollows false (trace run) = true
  /\ values = List.map (fun k => progressValue k total)
                (List.seq 1 (completed (trace run)))
  /\ completed (trace run) <= total
  /\ (forall outputs, result run = Ok outputs -> completed (trace run) = total)
  /\ (forall i j p q,
        i <= j -> nth_error values i = Some p -> nth_error values j = Some q ->
        (p <= q)%Q)
  /\ (forall before p after,
        trace run = before ++ OnProgress p :: after ->
        ((p == 100)%Q <-> completed before = total)).
Proof.
  cbv zeta.
  assert (Hmain :
            progressFollows false (trace run) = true
            /\ progressValues (trace run)
               = List.map (fun k => progressValue k (totalSegmentsOf videoConfigs))
                   (List.seq 1 (completed (trace run)))
            /\ completed (trace run) <= totalSegmentsOf videoConfigs
            /\ (forall outputs, result run = Ok outputs ->
                                completed (trace run) = totalSegmentsOf videoConfigs)).
  { rewrite processVideos_run. cbv zeta.
    assert (Hquiet : progressValues (cancelSteps browser AtSourceLoad) = []
                     /\ completed (cancelSteps browser AtSourceLoad) = 0
                     /\ progressFollows false (cancelSteps browser AtSourceLoad) = true).
    { unfold cancelSteps. now destruct (cancelDuring browser AtSourceLoad). }
    destruct Hquiet as (Hp & Hc & Hf).
    destruct (runProperties browser videoUrl) as [videoProperties|];
      cbn [result trace app progressValues progressFollows negb andb].
    - change (completed (FlagWrite ByProcessVideos false :: ?t)) with (completed t).
      rewrite progressValues_app, completed_app, (progressFollows_app _ _ _ Hf), Hp, Hc.
      cbn [app plus].
      destruct (configLoop_progress browser videoUrl videoProperties
                  (totalSegmentsOf videoConfigs) videoConfigs 0 0 []
                  (flagAfter browser AtSourceLoad false)) as (H1 & H2 & H3 & H4).
      auto.
    - change (completed (FlagWrite ByProcessVideos false :: ?t)) with (completed t).
      rewrite Hp, Hc, Hf. repeat split; [lia|discriminate]. }
  destruct Hmain as (Hf & Hp & Hc & Hok).
  repeat (split; [assumption|]). split.
  - intros i j p q Hij Hi Hj. rewrite Hp in Hi, Hj.
    apply nth_error_progress in Hi as (Hi & ->).
    apply nth_error_progress in Hj as (Hj & ->).
    apply progressValue_le; lia.
  - intros before p after Hsplit.
    assert (Hcount : completed before = List.length (progressValues before) + 1).
    { rewrite Hsplit in Hf. apply progressFollows_count in Hf. lia. }
    assert (Hnth : nth_error (progressValues (trace run))
                     (List.length (progressValues before)) = Some p).
    { rewrite Hsplit, progressValues_app. cbn [progressValues].
      now rewrite nth_error_app2, Nat.sub_diag by lia. }
    rewrite Hp in Hnth. apply nth_error_progress in Hnth as (Hlt & ->).
    replace (1 + List.length (progressValues before)) with (completed before) by lia.
    apply progressValue_100. lia.
Qed.

(** When no check of the flag finds it set, the run gives the result and
    makes the steps, the writes of the flag apart, of the same call with a
    user who never cancels. *)
Lemma processVideos_unobserved :
  (forall i, ~ In (FlagRead i true) (trace run)) ->
  let quiet := processVideos (neverCancelled browser) videoUrl videoConfigs isCancelled in
  result run = result quiet
  /\ List.filter notFlagWrite (trace run) = List.filter notFlagWrite (trace quiet).
Proof.
  cbv zeta. rewrite !processVideos_run. cbv zeta.
  change (runProperties (neverCancelled browser) videoUrl)
    with (runProperties browser videoUrl).
  change (flagAfter (neverCancelled browser) AtSourceLoad false) with false.
  change (cancelSteps (neverCancelled browser) AtSourceLoad) with (@nil Effect).
  destruct (runProperties browser videoUrl) as [videoProperties|];
    cbn [result trace app List.filter notFlagWrite].
  - intros Hnone.
    destruct (configLoop_unobserved browser videoUrl videoProperties
                (totalSegmentsOf videoConfigs) videoConfigs 0 0 []
                (flagAfter browser AtSourceLoad false)) as (Hr & Ht).
    { intros i Hin. apply (Hnone i). right. apply in_or_app. now right. }
    split; [exact Hr|].
    now rewrite filter_app, cancelSteps_filtered, <- Ht, filter_notFlagWrite_twice.
  - intros _. split; [reflexivity|apply cancelSteps_filtered].
Qed.

(** Once the last configuration has started, no check of the flag has
    found it set. *)
Lemma processVideos_last_started :
  In (ConfigStarted (List.length videoConfigs - 1)) (trace run) ->
  forall i, ~ In (FlagRead i true) (trace run).
Proof.
  rewrite processVideos_run. cbv zeta.
  destruct (runProperties browser videoUrl) as [videoProperties|]; cbn [trace app].
  - intros [H|H]; [discriminate|].
    apply in_app_or in H as [H|H];
      [apply waiting_for_source in H as [H _]; discriminate|].
    intros i [Hin|Hin]; [discriminate|].
    apply in_app_or in Hin as [Hin|Hin];
      [apply waiting_for_source in Hin as [Hin _]; discriminate|].
    exact (configLoop_last_started browser videoUrl videoProperties
             (totalSegmentsOf videoConfigs) videoConfigs 0 0 [] _ H i Hin).
  - intros [H|H]; [discriminate|].
    apply waiting_for_source in H as [H _]. discriminate.
Qed.

(** And none follows that start. *)
Lemma processVideos_no_read_after_last (before after : list Effect) :
  trace run = before ++ ConfigStarted (List.length videoConfigs - 1) :: after ->
  forall i v, ~ In (FlagRead i v) after.
Proof.
  rewrite processVideos_run. cbv zeta.
  destruct (runProperties browser videoUrl) as [videoProperties|]; cbn [trace app];
    intros Hsplit.
  - destruct before as [|b before]; [discriminate|]. injection Hsplit as _ Hsplit.
    apply app_split_at in Hsplit as [(mid & Hmid & _)|(mid & _ & Hmid)].
    + assert (Hin : In (ConfigStarted (List.length videoConfigs - 1))
                      (cancelSteps browser AtSourceLoad)).
      { rewrite Hmid. apply in_or_app. right. now left. }
      apply waiting_for_source in Hin as [Hin _]. discriminate.
    + exact (configLoop_no_read_after_last browser videoUrl videoProperties
               (totalSegmentsOf videoConfigs) videoConfigs 0 0 [] _ _ _ Hmid).
  - destruct before as [|b before]; [discriminate|]. injection Hsplit as _ Hsplit.
    assert (Hin : In (ConfigStarted (List.length videoConfigs - 1))
                    (cancelSteps browser AtSourceLoad)).
    { rewrite Hsplit. apply in_or_app. right. now left. }
    apply waiting_for_source in Hin as [Hin _]. discriminate.
Qed.

(** C4, as the code has it: the flag is read once at the start of each
    iteration, at the indices 0, 1, ... in order, and nowhere else.  Once
    [cancelProcessing] has run, no further configuration is started, and
    a check of the flag that follows ends the call with the failure
    [Processing cancelled] instead of a list; a run that returns gives the
    whole list, never a part of it.  The configuration that is being
    processed runs to its end whether or not the user cancels: result and
    steps are the same.  Once the last configuration has started the flag
    is not checked again, and a request has no effect: the call ends with
    the result, and makes the steps, of the same call without any
    request. *)
Theorem C4_cancellation_seen_at_next_configuration :
  (exists n,
     flagReads (trace run) = List.seq 0 n
     /\ n <= List.length videoConfigs
     /\ (forall outputs, result run = Ok outputs ->
                         n = List.length videoConfigs
                         /\ List.length outputs = List.length videoConfigs))
  /\ (forall before after,
        trace run = before ++ cancelWrite :: after ->
        (forall i, ~ In (ConfigStarted i) after)
        /\ (forall i v, In (FlagRead i v) after ->
                        result run = Throw "Processing cancelled"))
  /\ (forall videoProperties totalSegments configIndex config processed flag flag',
        let o := processConfig browser videoUrl videoProperties totalSegments
                   configIndex config processed flag in
        let o' := processConfig (neverCancelled browser) videoUrl videoProperties
                    totalSegments configIndex config processed flag' in
        result o = result o' /\ List.filter notFlagWrite (trace o) = trace o')
  /\ (forall before after,
        trace run = before ++ ConfigStarted (List.length videoConfigs - 1) :: after ->
        let quiet :=
          processVideos (neverCancelled browser) videoUrl videoConfigs isCancelled in
        (forall i v, ~ In (FlagRead i v) after)
        /\ result run = result quiet
        /\ List.filter notFlagWrite (trace run) = List.filter notFlagWrite (trace quiet)).
Proof.
  split; [|split; [|split]];
    [| | |intros before after Hsplit; cbv zeta; split;
          [exact (processVideos_no_read_after_last before after Hsplit)
          |apply processVideos_unobserved, processVideos_last_started;
           rewrite Hsplit; apply in_or_app; right; now left]].
  - pose proof processVideos_ok_length as Hlen. revert Hlen.
    rewrite processVideos_run. cbv zeta.
    assert (Hquiet : flagReads (cancelSteps browser AtSourceLoad) = []).
    { unfold cancelSteps. now destruct (cancelDuring browser AtSourceLoad). }
    destruct (runProperties browser videoUrl) as [videoProperties|];
      cbn [result trace app flagReads]; intros Hlen.
    + rewrite flagReads_app, Hquiet.
      destruct (configLoop_reads browser videoUrl videoProperties
                  (totalSegmentsOf videoConfigs) videoConfigs 0 0 []
                  (flagAfter browser AtSourceLoad false)) as (n & Hn & Hle & Hall).
      exists n. repeat split; eauto.
    + exists 0. rewrite Hquiet. repeat split; try discriminate. lia.
  - intros before after. rewrite processVideos_run. cbv zeta.
    destruct (runProperties browser videoUrl) as [videoProperties|];
      cbn [result trace app]; intros Hsplit.
    + destruct before as [|b before]; [discriminate|]. injection Hsplit as _ Hsplit.
      apply app_split_at in Hsplit as [(mid & Hmid & ->)|(mid & -> & Hmid)].
      * assert (Hsource : cancelDuring browser AtSourceLoad = true).
        { apply (waiting_for_source cancelWrite). rewrite Hmid.
          apply in_or_app. right. now left. }
        revert Hmid. unfold flagAfter, cancelSteps. rewrite Hsource.
        intros Hmid. destruct before as [|b' [|b'' before]]; try discriminate.
        injection Hmid as <-. cbn [app].
        apply (configLoop_cancelled browser videoUrl videoProperties
                 (totalSegmentsOf videoConfigs) videoConfigs 0 0 []).
      * exact (configLoop_after_cancel browser videoUrl videoProperties
                 (totalSegmentsOf videoConfigs) videoConfigs 0 0 [] _ _ _ Hmid).
    + destruct before as [|b before]; [discriminate|]. injection Hsplit as _ Hsplit.
      assert (Hin : In cancelWrite (cancelSteps browser AtSourceLoad)).
      { rewrite Hsplit. apply in_or_app. right. now left. }
      revert Hsplit. unfold cancelSteps.
      destruct (cancelDuring browser AtSourceLoad); [|now destruct before].
      intros Hsplit. destruct before as [|b' [|b'' before]]; try discriminate.
      injection Hsplit as <-. split; [intros i []|intros i v []].
  - intros. apply processConfig_uninterrupted.
Qed.

End Claims.

(** ** Failures and the flag *)

Section Failures.

Import VideoProcessor Reading Steps Contract.

Variable browser : Browser.

(** The messages of a recording that fails, by cause. *)
Lemma extractSettles_causes (videoProperties : VideoProperties) (env : SegmentEnv) :
  (seg_loaded env = false ->
   extractSettles browser videoProperties env
   = Throw "Video error during segment extraction")
  /\ (seg_loaded env = true -> captureStream (seg_capture env) = None ->
      extractSettles browser videoProperties env
      = Throw "Failed to capture stream from video element")
  /\ (forall message,
        seg_loaded env = true -> captureStream (seg_capture env) <> None ->
        seg_recorder env = Some message ->
        extractSettles browser videoProperties env = Throw message)
  /\ (seg_loaded env = true -> captureStream (seg_capture env) <> None ->
      seg_recorder env = None -> seg_played env = false ->
      extractSettles browser videoProperties env = Throw "Failed to play video")
  /\ (forall why,
        extractSettles browser videoProperties env = Throw why ->
        (seg_loaded env = false /\ why = "Video error during segment extraction")
        \/ (captureStream (seg_capture env) = None
            /\ why = "Failed to capture stream from video element")
        \/ seg_recorder env = Some why
        \/ (seg_played env = false /\ why = "Failed to play video")).
Proof.
  unfold extractSettles.
  destruct (seg_loaded env), (captureStream (seg_capture env)) as [stream|],
    (seg_recorder env) as [message|], (seg_played env);
    repeat split; intros; try congruence; try discriminate;
    match goal with
    | H : Throw _ = Throw _ |- _ => injection H as <-; auto
    | _ => idtac
    end.
Qed.

Variable videoUrl : string.
Variable videoConfigs : list VideoConfig.
Variable isCancelled : bool.

Local Abbreviation run := (processVideos browser videoUrl videoConfigs isCancelled).

(** The failure of a run is the failure of the source, a cancellation by
    the user, or the failure of one configuration, with its message. *)
Lemma processVideos_throws (why : string) :
  result run = Throw why ->
  (why = "Failed to load video" /\ sourceLoad browser = LoadError)
  \/ (why = "Processing cancelled" /\ userCancels browser)
  \/ exists videoProperties i config,
       runProperties browser videoUrl = Some videoProperties
       /\ nth_error videoConfigs i = Some config
       /\ Failure browser videoProperties i config why.
Proof.
  rewrite processVideos_run. cbv zeta. unfold runProperties.
  destruct (sourceLoad browser) as [videoWidth videoHeight mozHasAudio|] eqn:Hload;
    cbn [result]; [|intros [= <-]; auto].
  intros Hthrow.
  apply configLoop_throws in Hthrow as [(-> & Hseen)|(k & config & Hk & Hfail)].
  - right. left. split; [reflexivity|]. destruct Hseen as [Hseen|Hseen].
    + exists AtSourceLoad. unfold flagAfter in Hseen.
      now destruct (cancelDuring browser AtSourceLoad).
    + eapply configLoop_user. exact Hseen.
  - right. right. eauto 6.
Qed.

(** A configuration without exactly one segment makes the call fail. *)
Lemma not_one_segment_fails (i : nat) (config : VideoConfig) :
  nth_error videoConfigs i = Some config ->
  List.length (segments config) <> 1 ->
  exists message, result run = Throw message.
Proof.
  intros Hi Hlen. rewrite processVideos_run. cbv zeta.
  destruct (runProperties browser videoUrl) as [videoProperties|]; cbn [result]; [|eauto].
  assert (Hfail : exists why, Failure browser videoProperties i config why).
  { destruct (segments config) as [|first [|second others]] eqn:Hsegments.
    - eexists. now apply NothingToCombine.
    - now destruct Hlen.
    - destruct (combineSettles_rejects browser videoProperties (combineEnv browser i))
        as [message Hmessage].
      eexists. apply (CombineFailed browser videoProperties i config message); [|exact Hmessage].
      rewrite Hsegments. cbn. lia. }
  destruct Hfail as [why Hfail].
  exact (proj1 (configLoop_fails browser videoUrl videoProperties
                  (totalSegmentsOf videoConfigs) videoConfigs 0 0 []
                  (flagAfter browser AtSourceLoad false) i config why Hi Hfail)).
Qed.

(** C2, as the code has it: the re-recording of two or more blobs never
    resolves, so a configuration of several segments gives no output: the
    call fails.  A run returns only when every configuration has exactly
    one segment; it then gives one output for each, in order, whose blob
    is the one recorded blob, and [combineVideoSegments] is not called.
    In the second scenario of the description, in a browser where every
    step works, [combineVideoSegments] is called once, on the two recorded
    blobs, nothing is pushed and the call fails with the message of the
    interrupted [play()]. *)
Theorem C2_several_segments_give_no_output :
  (forall videoProperties env,
     exists message, combineSettles browser videoProperties env = Throw message)
  /\ (forall i config,
        nth_error videoConfigs i = Some config ->
        2 <= List.length (segments config) ->
        exists message, result run = Throw message)
  /\ (forall outputs,
        result run = Ok outputs ->
        List.length outputs = List.length videoConfigs
        /\ pushedOutputs (trace run) = outputs
        /\ forall i config,
             nth_error videoConfigs i = Some config ->
             List.length (segments config) = 1
             /\ exists video,
                  nth_error outputs i = Some video
                  /\ out_name video = name config
                  /\ combineCalls i (trace run) = []
                  /\ recordedBlobs i (trace run) = [out_blob video])
  /\ (let failing :=
        processVideos (Samples.goodBrowser Samples.never) Samples.sourceUrl
          [Samples.clipB] false in
      result failing = Throw Samples.combineFailure
      /\ combineCalls 0 (trace failing) = [recordedBlobs 0 (trace failing)]
      /\ List.length (recordedBlobs 0 (trace failing)) = 2
      /\ pushedOutputs (trace failing) = []).
Proof.
  split; [apply combineSettles_rejects|].
  split; [intros i config Hi Hlen; apply (not_one_segment_fails i config Hi); lia|].
  split; [|vm_compute; repeat split].
  intros outputs Hok.
  destruct (processVideos_one_output_each browser videoUrl videoConfigs isCancelled
              outputs Hok) as (Hlen & Hpushed & videoProperties & _ & Hall).
  repeat (split; [assumption|]).
  intros i config Hi.
  assert (Hone : List.length (segments config) = 1).
  { destruct (Nat.eq_dec (List.length (segments config)) 1) as [Hone|Hnot]; [exact Hone|].
    destruct (not_one_segment_fails i config Hi Hnot) as [message Hthrow]. congruence. }
  split; [exact Hone|].
  destruct (Hall i config Hi) as (video & Hvideo & Hname & _ & Hsingle & _).
  destruct (Hsingle Hone) as (Hcalls & Hblobs). eauto 6.
Qed.

(** C5: a source that fails to load, or any failure in the processing of
    any configuration (a segment that fails to load, to be captured, to be
    recorded or to play; a re-recording that fails), makes the whole call
    fail: no list is returned and no later configuration is started.  The
    failure carries the message of its cause; a run that returns gives
    the outputs of all the configurations. *)
Theorem C5_failure_aborts_batch :
  (sourceLoad browser = LoadError -> result run = Throw "Failed to load video")
  /\ (forall videoProperties i config why,
        runProperties browser videoUrl = Some videoProperties ->
        nth_error videoConfigs i = Some config ->
        Failure browser videoProperties i config why ->
        (exists message, result run = Throw message)
        /\ forall later, i < later -> ~ In (ConfigStarted later) (trace run))
  /\ (forall why,
        result run = Throw why ->
        (why = "Failed to load video" /\ sourceLoad browser = LoadError)
        \/ (why = "Processing cancelled" /\ userCancels browser)
        \/ exists videoProperties i config,
             runProperties browser videoUrl = Some videoProperties
             /\ nth_error videoConfigs i = Some config
             /\ Failure browser videoProperties i config why)
  /\ (forall outputs,
        result run = Ok outputs -> List.length outputs = List.length videoConfigs)
  /\ (forall videoProperties env why,
        extractSettles browser videoProperties env = Throw why ->
        (seg_loaded env = false /\ why = "Video error during segment extraction")
        \/ (captureStream (seg_capture env) = None
            /\ why = "Failed to capture stream from video element")
        \/ seg_recorder env = Some why
        \/ (seg_played env = false /\ why = "Failed to play video")).
Proof.
  split; [|split; [|split; [|split]]].
  - intros Hload. rewrite processVideos_run. unfold runProperties. now rewrite Hload.
  - intros videoProperties i config why Hprops Hi Hfail.
    rewrite processVideos_run. cbv zeta. rewrite Hprops. cbn [result trace].
    destruct (configLoop_fails browser videoUrl videoProperties
                (totalSegmentsOf videoConfigs) videoConfigs 0 0 []
                (flagAfter browser AtSourceLoad false) i config why Hi Hfail)
      as (Hthrow & Hnone).
    split; [exact Hthrow|].
    intros later Hlater [H|H]; [discriminate|].
    apply in_app_or in H as [H|H]; [|exact (Hnone later Hlater H)].
    unfold cancelSteps in H.
    destruct (cancelDuring browser AtSourceLoad); [destruct H as [H|[]]; discriminate|exact H].
  - apply processVideos_throws.
  - apply processVideos_ok_length.
  - intros videoProperties env. apply extractSettles_causes.
Qed.

(** C6, as the code has it: [processVideos] assigns the flag once, to
    false, as its first step; after that every assignment in a run is a
    [cancelProcessing], which sets it to true, and the flag at the end is
    true exactly when there was one. *)
Theorem C6_flag_reset_on_entry_then_only_cancelled :
  exists rest,
    trace run = FlagWrite ByProcessVideos false :: rest
    /\ Forall writesOnlyByCancel rest
    /\ (flag run = true <-> In cancelWrite rest)
    /\ cancelProcessing isCancelled = mkOutcome (Ok tt) true [cancelWrite].
Proof.
  rewrite processVideos_run. cbv zeta.
  assert (Hsource : Forall writesOnlyByCancel (cancelSteps browser AtSourceLoad)
                    /\ flagAfter browser AtSourceLoad false
                       = cancelRequested (cancelSteps browser AtSourceLoad)).
  { unfold cancelSteps, flagAfter.
    destruct (cancelDuring browser AtSourceLoad); (split; [|reflexivity]);
      [constructor; [|constructor]|constructor].
    intros who value [= <- <-]. auto. }
  destruct Hsource as (Hwrites & Hflag).
  destruct (runProperties browser videoUrl) as [videoProperties|]; cbn [flag trace app];
    eexists; (split; [reflexivity|]); (split; [|split; [|reflexivity]]).
  - apply Forall_app. split; [exact Hwrites|apply configLoop_writes].
  - rewrite configLoop_flag, Hflag, <- cancelRequested_app. apply cancelRequested_In.
  - exact Hwrites.
  - rewrite Hflag. apply cancelRequested_In.
Qed.

(** C9: [combineVideoSegments] fails with [No segments to combine] on the
    empty list; on a list of one blob it returns that blob, and does
    nothing else: no re-recording, no waiting. *)
Theorem C9_combine_none_or_one (videoProperties : VideoProperties) (configIndex : nat) :
  result (combineVideoSegments browser [] videoProperties configIndex isCancelled)
  = Throw "No segments to combine"
  /\ forall only,
       combineVideoSegments browser [only] videoProperties configIndex isCancelled
       = mkOutcome (Ok only) isCancelled [CombineCalled configIndex [only]].
Proof. split; [reflexivity|]. intros only. reflexivity. Qed.

End Failures.

(** A run returns when nothing fails and the user does not cancel. *)
Lemma processVideos_returns (browser : VideoProcessor.Browser) (videoUrl : string)
    (videoConfigs : list VideoConfig) (isCancelled : bool)
    (videoProperties : VideoProcessor.VideoProperties) :
  Reading.runProperties browser videoUrl = Some videoProperties ->
  (forall i config why,
     nth_error videoConfigs i = Some config ->
     ~ Contract.Failure browser videoProperties i config why) ->
  ~ Steps.userCancels browser ->
  exists outputs,
    VideoProcessor.result (VideoProcessor.processVideos browser videoUrl videoConfigs isCancelled)
    = VideoProcessor.Ok outputs.
Proof.
  intros Hprops Hgood Hquiet.
  destruct (VideoProcessor.result _) as [outputs|why] eqn:Hres; [eauto|].
  destruct (processVideos_throws browser videoUrl videoConfigs isCancelled why Hres)
    as [(_ & Hload)|[(_ & Huser)|(props & i & config & Hp & Hi & Hfail)]].
  - unfold Reading.runProperties in Hprops. rewrite Hload in Hprops. discriminate.
  - contradiction.
  - rewrite Hprops in Hp. injection Hp as <-. destruct (Hgood i config why Hi Hfail).
Qed.

(** ** The scenarios of the description, run *)

Section Scenarios.

Import VideoProcessor Reading Steps Contract Samples.

(** The user cancels during the first of two configurations: the first
    one is finished, the second is not started, the call fails. *)
Lemma C4_cancel_in_first_configuration :
  result (processVideos (goodBrowser cancelInFirst) sourceUrl [clipA; clipB] false)
  = Throw "Processing cancelled".
Proof.
  pose (t := trace (processVideos (goodBrowser cancelInFirst) sourceUrl [clipA; clipB] false)).
  refine (proj2 (proj1 (proj2 (C4_cancellation_seen_at_next_configuration
                                 (goodBrowser cancelInFirst) sourceUrl [clipA; clipB] false))
                   (List.firstn 4 t) (List.skipn 5 t) _) 1 true _).
  - vm_compute. reflexivity.
  - vm_compute. repeat (first [left; reflexivity|right]).
Defined.

(** C4 as stated fails: the user cancels after one of two configurations
    of one segment each has completed, while the segment of the second is
    being recorded; the flag is not read again and the call returns both
    outputs. *)
Lemma C4_cancel_in_last_configuration_returns :
  cancelRequested
    (trace (processVideos (goodBrowser cancelInSecond) sourceUrl [clipA; clipC] false))
  = true
  /\ pushedBeforeCancel
       (trace (processVideos (goodBrowser cancelInSecond) sourceUrl [clipA; clipC] false))
     = 1
  /\ List.length [clipA; clipC] = 2
  /\ result (processVideos (goodBrowser cancelInSecond) sourceUrl [clipA; clipC] false)
     = Ok expectedOutputs
  /\ result (processVideos (goodBrowser cancelInSecond) sourceUrl [clipA; clipC] false)
     <> Throw "Processing cancelled".
Proof. vm_compute. repeat split. discriminate. Qed.

(** Playback of a segment of the second configuration fails: the call
    fails, although the first configuration was processed. *)
Lemma C5_playback_fails :
  (exists message,
     result (processVideos noPlayback sourceUrl [clipA; clipB] false) = Throw message)
  /\ Failure noPlayback sourceProperties 1 clipB "Failed to play video".
Proof.
  assert (Hfail : Failure noPlayback sourceProperties 1 clipB "Failed to play video").
  { apply (SegmentFailed noPlayback sourceProperties 1 clipB 0); [vm_compute; lia|reflexivity]. }
  split; [|exact Hfail].
  exact (proj1 (proj1 (proj2 (C5_failure_aborts_batch noPlayback sourceUrl [clipA; clipB] false))
                  sourceProperties 1 clipB "Failed to play video" eq_refl eq_refl Hfail)).
Defined.

(** C6 as stated fails: called with the flag set, by a user who never
    cancels, [processVideos] itself assigns the flag and leaves it
    false. *)
Lemma C6_processVideos_assigns_the_flag :
  In (FlagWrite ByProcessVideos false)
    (trace (processVideos (goodBrowser never) sourceUrl [clipA] true))
  /\ flag (processVideos (goodBrowser never) sourceUrl [clipA] true) = false.
Proof. vm_compute. split; [left|]; reflexivity. Qed.

(** A segment that ends before it starts is refused; a good one lets the
    processor run. *)
Lemma C1_scenarios :
  inRange 10 (mkSegment 0 5)
  /\ refused (readyApp [backwards]) false
       (App.handleStartProcessing (goodBrowser never) (readyApp [backwards]) false).
Proof.
  split.
  - refine (proj1 (C1_range_checked_before_processing (goodBrowser never)
                     (readyApp [clipA]) false) _ clipA (mkSegment 0 5) _ _).
    + vm_compute. discriminate.
    + left. reflexivity.
    + left. reflexivity.
  - refine (proj1 (proj2 (C1_range_checked_before_processing (goodBrowser never)
                            (readyApp [backwards]) false)
                     backwards (mkSegment 5 3) _ _ _)).
    + left. reflexivity.
    + left. reflexivity.
    + intros [Hlt _]. vm_compute in Hlt. discriminate.
Defined.

(** A name of three spaces is refused. *)
Lemma C10_blank_name :
  refused (readyApp [blank]) false
    (App.handleStartProcessing (goodBrowser never) (readyApp [blank]) false)
  /\ App.outputVideos
       (App.state (App.handleStartProcessing (goodBrowser never) (readyApp [blank]) false))
     = App.outputVideos (readyApp [blank]).
Proof.
  apply (C10_name_and_segments_checked (goodBrowser never) (readyApp [blank]) false blank).
  - left. reflexivity.
  - left. reflexivity.
Defined.

End Scenarios.

(** * Further properties *)

(** ** The drop surface *)

(** X1: a drop hands to [onVideoUpload] the first dropped file when its
    type starts with [video/], and nothing otherwise: the other files of
    the drop are ignored, an empty drop uploads nothing, and the dragging
    state is off afterwards. *)
Theorem X1_drop_uploads_first_video_only (files : option (list File)) :
  VideoUploader.isDragging (VideoUploader.handleDrop files) = false
  /\ (forall file,
        In file (VideoUploader.onVideoUpload (VideoUploader.handleDrop files)) ->
        (exists others, files = Some (file :: others))
        /\ JS.startsWith (file_type file) "video/" = true)
  /\ (forall file others,
        files = Some (file :: others) ->
        JS.startsWith (file_type file) "video/" = true ->
        VideoUploader.onVideoUpload (VideoUploader.handleDrop files) = [file]).
Proof.
  destruct files as [[|first others]|]; cbn.
  - repeat split; try contradiction; discriminate.
  - destruct (JS.startsWith (file_type first) "video/") eqn:Hvideo; cbn.
    + repeat split.
      * destruct H as [<-|[]]. eauto.
      * now destruct H as [<-|[]].
      * intros file others' [= <- <-] _. reflexivity.
    + repeat split; try contradiction.
      intros file others' [= <- <-]. congruence.
  - repeat split; try contradiction; discriminate.
Qed.

(** ** The properties of the source *)

Section SourceProperties.

Import VideoProcessor Further.

Lemma split_noDot (s : string) :
  noDot s = true -> JS.split "." s = [s].
Proof.
  induction s as [|c rest IH]; cbn; [reflexivity|].
  intros H. apply andb_true_iff in H as [Hc Hrest].
  apply negb_true_iff in Hc. rewrite Hc, (IH Hrest). reflexivity.
Qed.

Lemma split_last_piece (stem extension : string) :
  noDot extension = true ->
  exists first others,
    JS.split "." (stem ++ "." ++ extension) = first :: others ++ [extension].
Proof.
  intros Hext. induction stem as [|c stem (first & others & IH)].
  - cbn. rewrite (split_noDot _ Hext). exists EmptyString, []. reflexivity.
  - change ((String c stem ++ "." ++ extension)%string)
      with (String c (stem ++ "." ++ extension)%string).
    cbn [JS.split]. rewrite IH. destruct (Ascii.eqb c ".").
    + exists EmptyString, (first :: others). reflexivity.
    + exists (String c first), others. reflexivity.
Qed.

Lemma pop_last {A} (l : list A) (a : A) : JS.pop (l ++ [a]) = Some a.
Proof. unfold JS.pop. rewrite map_app. apply last_last. Qed.

Lemma formatOfExtension_known (extension : string) :
  In (formatOfExtension extension)
    ["video/mp4"; "video/webm"; "video/ogg"; "video/quicktime"; "video/x-msvideo"].
Proof.
  unfold formatOfExtension.
  repeat match goal with
         | |- context [if ?b then _ else _] => destruct b
         end; cbn; auto 6.
Qed.

(** X2: the format of the source is read off the text after the last dot
    of its URL, letter case apart: for a URL [stem.extension] whose
    extension has no dot it is the format of the lower-cased extension,
    and for a URL without any dot the whole URL stands for the
    extension. *)
Theorem X2_format_from_last_extension (videoWidth videoHeight : Z) (mozHasAudio : bool)
    (stem extension : string) :
  noDot extension = true ->
  format (getVideoProperties videoWidth videoHeight mozHasAudio
            (stem ++ "." ++ extension))
  = formatOfExtension (JS.toLowerCase extension)
  /\ format (getVideoProperties videoWidth videoHeight mozHasAudio extension)
     = formatOfExtension (JS.toLowerCase extension).
Proof.
  intros Hext. unfold getVideoProperties. cbn [format]. split.
  - destruct (split_last_piece stem extension Hext) as (first & others & ->).
    change (first :: others ++ [extension]) with ((first :: others) ++ [extension]).
    rewrite pop_last. cbn [option_map].
    destruct extension as [|c rest]; [reflexivity|]. reflexivity.
  - rewrite (split_noDot _ Hext). cbn [JS.pop List.map List.last option_map].
    destruct extension as [|c rest]; reflexivity.
Qed.

Lemma getVideoProperties_format (videoWidth videoHeight : Z) (mozHasAudio : bool)
    (videoUrl : string) :
  let f := format (getVideoProperties videoWidth videoHeight mozHasAudio videoUrl) in
  In f ["video/mp4"; "video/webm"; "video/ogg"; "video/quicktime"; "video/x-msvideo"]
  /\ JS.truthy f = true.
Proof.
  cbv zeta.
  assert (Hformat : In (format (getVideoProperties videoWidth videoHeight mozHasAudio videoUrl))
                      ["video/mp4"; "video/webm"; "video/ogg"; "video/quicktime";
                       "video/x-msvideo"]).
  { unfold getVideoProperties. cbn [format].
    destruct (option_map JS.toLowerCase (JS.pop (JS.split "." videoUrl))) as [ext|];
      [|cbn; auto].
    destruct (JS.truthy ext); [apply formatOfExtension_known|cbn; auto]. }
  split; [exact Hformat|].
  destruct Hformat as [H|[H|[H|[H|[H|[]]]]]]; rewrite <- H; reflexivity.
Qed.

(** X3: whatever the URL and the size, the format is one of five media
    types and never empty, the frame rate is 30, and the bitrate is one of
    four tiers that never goes down when the width goes up. *)
Theorem X3_properties_in_range (videoWidth videoHeight : Z) (mozHasAudio : bool)
    (videoUrl : string) :
  let p := getVideoProperties videoWidth videoHeight mozHasAudio videoUrl in
  In (format p)
    ["video/mp4"; "video/webm"; "video/ogg"; "video/quicktime"; "video/x-msvideo"]
  /\ JS.truthy (format p) = true
  /\ frameRate p = 30%Z
  /\ In (bitrate p) [2500000; 5000000; 8000000; 20000000]%Z
  /\ forall wider other otherAudio otherUrl,
       (videoWidth <= wider)%Z ->
       (bitrate p <= bitrate (getVideoProperties wider other otherAudio otherUrl))%Z.
Proof.
  cbv zeta.
  destruct (getVideoProperties_format videoWidth videoHeight mozHasAudio videoUrl)
    as (Hformat & Htruthy).
  split; [exact Hformat|]. split; [exact Htruthy|].
  split; [reflexivity|]. split.
  - unfold getVideoProperties. cbn [bitrate].
    repeat match goal with
           | |- context [if ?b then _ else _] => destruct b
           end; cbn; auto.
  - intros wider other otherAudio otherUrl Hw. unfold getVideoProperties. cbn [bitrate].
    repeat match goal with
           | |- context [(?a <=? ?b)%Z] => destruct (Z.leb_spec a b)
           end; lia.
Qed.

End SourceProperties.

(** ** The recorded blobs *)

Section Recording.

Import VideoProcessor Reading Steps Contract Further.

Variable browser : Browser.
Variable videoProperties : VideoProperties.

Lemma concat_keptChunks (chunks : list (list nat)) :
  List.concat (keptChunks chunks) = List.concat chunks.
Proof.
  induction chunks as [|chunk chunks IH]; [reflexivity|].
  unfold keptChunks in *.
  destruct chunk as [|byte chunk].
  - exact IH.
  - exact (f_equal (fun rest => byte :: chunk ++ rest) IH).
Qed.

Lemma segmentOutputFormat_type :
  let t := List.hd "" (JS.split ";" (segmentOutputFormat browser videoProperties)) in
  recordedType t /\ (t = "video/mp4" -> mp4Recording browser videoProperties).
Proof.
  unfold segmentOutputFormat, recordedType, mp4Recording.
  destruct (JS.includes (format videoProperties) "mp4") eqn:Hmp4,
    (JS.includes (format videoProperties) "m4a") eqn:Hm4a,
    (JS.includes (format videoProperties) "webm") eqn:Hwebm,
    (isTypeSupported browser "video/mp4;codecs=h264,aac") eqn:Hh264,
    (isTypeSupported browser "video/mp4") eqn:Hplain,
    (isTypeSupported browser "video/webm;codecs=vp9,opus") eqn:Hvp9,
    (isTypeSupported browser "video/webm;codecs=vp8,opus") eqn:Hvp8;
    cbn; (split; [auto|]); intros H; try discriminate H; auto.
Qed.

(** X4: a recording of a segment resolves only from an element that has
    loaded its metadata, with a stream captured and a recorder made; its
    blob holds all the recorded bytes in order (dropping the empty chunks
    loses nothing) and its type is [video/mp4] or [video/webm], the first
    only when the source format asks for MP4 and the browser can record
    it. *)
Theorem X4_recorded_blob (env : SegmentEnv) (b : Blob) :
  extractSettles browser videoProperties env = Ok b ->
  seg_loaded env = true
  /\ captureStream (seg_capture env) <> None
  /\ seg_recorder env = None
  /\ blob_data b = List.concat (seg_chunks env)
  /\ recordedType (blob_type b)
  /\ (blob_type b = "video/mp4" -> mp4Recording browser videoProperties).
Proof.
  unfold extractSettles.
  destruct (seg_loaded env); [|discriminate].
  destruct (captureStream (seg_capture env)); [|discriminate].
  destruct (seg_recorder env); [discriminate|].
  destruct (seg_played env); [|discriminate].
  intros [= <-]. unfold blobOfChunks. cbn [blob_data blob_type].
  rewrite concat_keptChunks.
  pose proof segmentOutputFormat_type as Htype. cbv zeta in Htype.
  destruct Htype as [Htype Hmp4].
  repeat (split; [first [reflexivity|discriminate|assumption]|]). exact Hmp4.
Qed.

Variable videoUrl : string.
Variable totalSegments : nat.

(** The blobs that the segment loop adds are the recordings of its
    segments, in order. *)
Lemma segmentLoop_origin (configIndex : nat) (rest : list VideoSegment)
    (segIdx processed : nat) (blobs : list Blob) (isCancelled : bool)
    (processed' : nat) (blobs' : list Blob) :
  result (segmentLoop browser videoUrl videoProperties totalSegments configIndex rest
            segIdx processed blobs isCancelled) = Ok (processed', blobs') ->
  exists added,
    blobs' = blobs ++ added
    /\ List.length added = List.length rest
    /\ forall j b,
         nth_error added j = Some b ->
         extractSettles browser videoProperties (segmentEnv browser configIndex (segIdx + j))
         = Ok b.
Proof.
  revert segIdx processed blobs isCancelled.
  induction rest as [|segment rest IH]; intros segIdx processed blobs isCancelled.
  - cbn. intros [= _ <-]. exists []. rewrite app_nil_r. repeat split.
    intros [|j] b; discriminate.
  - rewrite segmentLoop_cons. cbv zeta.
    destruct (extractSettles browser videoProperties (segmentEnv browser configIndex segIdx))
      as [segmentBlob|message] eqn:Hsettles; cbn [result]; [|discriminate].
    intros Hok. apply IH in Hok as (added & -> & Hlen & Hnth).
    exists (segmentBlob :: added). rewrite <- app_assoc. repeat split; [cbn; lia|].
    intros [|j] b Hj; cbn [nth_error] in Hj.
    + injection Hj as <-. now rewrite Nat.add_0_r.
    + replace (segIdx + S j) with (S segIdx + j) by lia. auto.
Qed.

Lemma processConfig_output (configIndex : nat) (config : VideoConfig)
    (processed : nat) (isCancelled : bool) (processed' : nat) (video : OutputVideo) :
  result (processConfig browser videoUrl videoProperties totalSegments configIndex config
            processed isCancelled) = Ok (processed', video) ->
  outputFrom browser videoProperties configIndex config video
  /\ recordedInOrder browser videoProperties configIndex config
       (recordedBlobs configIndex
          (trace (processConfig browser videoUrl videoProperties totalSegments configIndex
                    config processed isCancelled))).
Proof.
  rewrite processConfig_run. cbv zeta.
  destruct (result (segmentLoop browser videoUrl videoProperties totalSegments configIndex
                      (segments config) 0 processed [] isCancelled))
    as [[done blobs]|message] eqn:Hres; cbn [result trace]; [|discriminate].
  destruct (segmentLoop_ok _ _ _ _ _ _ _ _ _ _ _ _ Hres) as (_ & _ & _ & Hrecorded).
  destruct (segmentLoop_origin _ _ _ _ _ _ _ _ Hres) as (added & Hadded & Hlen & Hnth).
  cbn [app] in Hrecorded, Hadded. subst added.
  destruct (finish_plain browser videoProperties configIndex config done blobs
              (flag (segmentLoop browser videoUrl videoProperties totalSegments configIndex
                       (segments config) 0 processed [] isCancelled)))
    as (_ & _ & _ & _ & Hnone & _).
  rewrite recordedBlobs_app, Hnone, app_nil_r, <- Hrecorded.
  intros Hfinish. split; [|split; [exact Hlen|exact Hnth]].
  revert Hfinish. unfold Finish.finish, outputFrom, blobOrigin.
  destruct blobs as [|only [|second others]]; cbn [result]; [discriminate| |].
  - intros [= _ <-]. cbn [out_blob]. split; [reflexivity|]. left.
    split; [now rewrite <- Hlen|]. exact (Hnth 0 only eq_refl).
  - destruct (combineSettles browser videoProperties (combineEnv browser configIndex))
      as [finalBlob|message] eqn:Hcomb; cbn [result]; [|discriminate].
    intros [= _ <-]. cbn [out_blob]. split; [reflexivity|]. right.
    split; [rewrite <- Hlen; cbn; lia|reflexivity].
Qed.

(** A property of the output and of the recorded blobs of each
    configuration that holds for [processConfig] holds for every output of
    a loop that returns. *)
Section Each.

Variable holds : nat -> VideoConfig -> OutputVideo -> list Blob -> Prop.

Hypothesis holds_processConfig :
  forall configIndex config processed isCancelled processed' video,
    result (processConfig browser videoUrl videoProperties totalSegments configIndex config
              processed isCancelled) = Ok (processed', video) ->
    holds configIndex config video
      (recordedBlobs configIndex
         (trace (processConfig browser videoUrl videoProperties totalSegments configIndex
                   config processed isCancelled))).

Lemma configLoop_each (rest : list VideoConfig) (configIndex processed : nat)
    (outputVideos : list OutputVideo) (isCancelled : bool) (outputs : list OutputVideo) :
  result (configLoop browser videoUrl videoProperties totalSegments rest configIndex
            processed outputVideos isCancelled) = Ok outputs ->
  exists added,
    outputs = outputVideos ++ added
    /\ forall k config,
         nth_error rest k = Some config ->
         exists video,
           nth_error added k = Some video
           /\ holds (configIndex + k) config video
                (recordedBlobs (configIndex + k)
                   (trace (configLoop browser videoUrl videoProperties totalSegments rest
                             configIndex processed outputVideos isCancelled))).
Proof.
  revert configIndex processed outputVideos isCancelled.
  induction rest as [|config rest IH]; intros configIndex processed outputVideos isCancelled.
  - cbn. intros [= <-]. exists []. rewrite app_nil_r. split; [reflexivity|].
    intros [|k] config; discriminate.
  - rewrite configLoop_cons. destruct isCancelled; [discriminate|]. cbv zeta.
    pose proof (processConfig_steps browser videoUrl videoProperties totalSegments
                  configIndex config processed false) as Hsteps.
    apply configSteps_quiet in Hsteps as (_ & _ & _ & _ & Hother & _).
    pose proof (holds_processConfig configIndex config processed false) as Hholds.
    destruct (result (processConfig browser videoUrl videoProperties totalSegments
                        configIndex config processed false))
      as [[done video]|message]; cbn [result trace]; [|discriminate].
    intros Hok.
    destruct (configLoop_later browser videoUrl videoProperties totalSegments rest
                (S configIndex) done (outputVideos ++ [video])
                (flag (processConfig browser videoUrl videoProperties totalSegments
                         configIndex config processed false))
                configIndex (Nat.lt_succ_diag_r _)) as (Hrec & _).
    destruct (IH _ _ _ _ Hok) as (added & -> & Hnth).
    exists (video :: added). rewrite <- app_assoc. split; [reflexivity|].
    intros [|k] config' Hk; cbn [nth_error] in Hk.
    + injection Hk as <-. exists video. split; [reflexivity|].
      rewrite Nat.add_0_r. cbn [app recordedBlobs].
      rewrite recordedBlobs_app, Hrec, app_nil_r. exact (Hholds done video eq_refl).
    + destruct (Hnth k config' Hk) as (video' & Hv & Hheld).
      exists video'. split; [exact Hv|].
      replace (configIndex + S k) with (S configIndex + k) by lia.
      destruct (Hother (S configIndex + k)) as (Hrec' & _); [lia|].
      cbn [app recordedBlobs]. rewrite recordedBlobs_app, Hrec'. exact Hheld.
Qed.

End Each.

End Recording.

(** ** The outputs of a run *)

Section Outputs.

Import VideoProcessor Reading Steps Contract Further.

Variable browser : Browser.
Variable videoUrl : string.
Variable videoConfigs : list VideoConfig.
Variable isCancelled : bool.

Lemma recordedBlobs_before_loop (i : nat) (t : list Effect) :
  recordedBlobs i
    (FlagWrite ByProcessVideos false :: cancelSteps browser AtSourceLoad ++ t)
  = recordedBlobs i t.
Proof.
  cbn [recordedBlobs]. rewrite recordedBlobs_app. unfold cancelSteps.
  now destruct (cancelDuring browser AtSourceLoad).
Qed.

(** Every output of a run that returns, with what was recorded for it. *)
Lemma processVideos_outputs (outputs : list OutputVideo) :
  result (processVideos browser videoUrl videoConfigs isCancelled) = Ok outputs ->
  exists videoProperties,
    runProperties browser videoUrl = Some videoProperties
    /\ forall i config,
         nth_error videoConfigs i = Some config ->
         exists video,
           nth_error outputs i = Some video
           /\ outputFrom browser videoProperties i config video
           /\ recordedInOrder browser videoProperties i config
                (recordedBlobs i (trace (processVideos browser videoUrl videoConfigs
                                           isCancelled))).
Proof.
  rewrite processVideos_run. cbv zeta.
  destruct (runProperties browser videoUrl) as [videoProperties|]; cbn [result trace];
    [|discriminate].
  intros Hok. exists videoProperties. split; [reflexivity|].
  apply (configLoop_each browser videoProperties videoUrl (totalSegmentsOf videoConfigs)
           (fun i config video blobs =>
              outputFrom browser videoProperties i config video
              /\ recordedInOrder browser videoProperties i config blobs)) in Hok.
  - destruct Hok as (added & -> & Hnth). intros i config Hi.
    destruct (Hnth i config Hi) as (video & Hv & Hout & Hrec).
    exists video. cbn [app Nat.add] in *. rewrite recordedBlobs_before_loop. auto.
  - intros configIndex config processed cancelled processed' video.
    apply processConfig_output.
Qed.


(** X6: every output of a run that returns carries the name of its
    configuration, the object URL made for it and, as its format, the
    format of the source; its blob is the recording of the only segment or
    the re-recording of the several, and the type of the blob is
    [video/mp4] or [video/webm], always the second when the source does not
    ask for MP4 or the browser cannot record MP4. *)
Theorem X6_output_records (outputs : list OutputVideo) :
  result (processVideos browser videoUrl videoConfigs isCancelled) = Ok outputs ->
  exists videoProperties,
    runProperties browser videoUrl = Some videoProperties
    /\ forall i config,
         nth_error videoConfigs i = Some config ->
         exists video,
           nth_error outputs i = Some video
           /\ outputFrom browser videoProperties i config video
           /\ recordedType (blob_type (out_blob video))
           /\ (~ mp4Recording browser videoProperties ->
               blob_type (out_blob video) = "video/webm").
Proof.
  intros Hok. apply processVideos_outputs in Hok as (videoProperties & Hprops & Hall).
  exists videoProperties. split; [exact Hprops|].
  intros i config Hi. destruct (Hall i config Hi) as (video & Hv & Hout & _).
  exists video. split; [exact Hv|]. split; [exact Hout|].
  assert (Htype : recordedType (blob_type (out_blob video))
                  /\ (blob_type (out_blob video) = "video/mp4" ->
                      mp4Recording browser videoProperties)).
  { destruct Hout as (_ & [(_ & Hsettles)|(_ & Hsettles)]).
    - unfold extractSettles in Hsettles.
      destruct (seg_loaded _); [|discriminate].
      destruct (captureStream _); [|discriminate].
      destruct (seg_recorder _); [discriminate|].
      destruct (seg_played _); [|discriminate].
      injection Hsettles as <-. apply segmentOutputFormat_type.
    - destruct (combineSettles_rejects browser videoProperties (combineEnv browser i))
        as [message Hrejects].
      congruence. }
  destruct Htype as (Hkind & Honly). split; [exact Hkind|].
  intros Hnot. destruct Hkind as [Hmp4|Hwebm]; [destruct (Hnot (Honly Hmp4))|exact Hwebm].
Qed.

Lemma extensionOfFormat_known (f : string) :
  In f ["video/mp4"; "video/webm"; "video/ogg"; "video/quicktime"; "video/x-msvideo"] ->
  In (extensionOfFormat f) ["mp4"; "webm"; "ogg"; "mov"].
Proof.
  intros [<-|[<-|[<-|[<-|[<-|[]]]]]]; vm_compute; auto.
Qed.

(** X7: the download name of an output of a run that returns is the name of
    its configuration, a dot, and an extension that depends on the URL of
    the source alone: [mp4], [webm], [ogg] or [mov], the same for all the
    outputs of the run, whatever the type of the blob is. *)
Theorem X7_download_extension_from_source (outputs : list OutputVideo) :
  result (processVideos browser videoUrl videoConfigs isCancelled) = Ok outputs ->
  exists videoProperties,
    runProperties browser videoUrl = Some videoProperties
    /\ In (extensionOfFormat (format videoProperties)) ["mp4"; "webm"; "ogg"; "mov"]
    /\ forall i config video,
         nth_error videoConfigs i = Some config ->
         nth_error outputs i = Some video ->
         ResultsViewer.download (ResultsViewer.handleDownload video)
         = (name config ++ "." ++ extensionOfFormat (format videoProperties))%string.
Proof.
  intros Hok. apply processVideos_outputs in Hok as (videoProperties & Hprops & Hall).
  exists videoProperties. split; [exact Hprops|].
  assert (Hformat : In (format videoProperties)
                      ["video/mp4"; "video/webm"; "video/ogg"; "video/quicktime";
                       "video/x-msvideo"]
                    /\ JS.truthy (format videoProperties) = true).
  { unfold runProperties in Hprops. destruct (sourceLoad browser); [|discriminate].
    injection Hprops as <-. apply getVideoProperties_format. }
  destruct Hformat as (Hknown & Htruthy).
  split; [now apply extensionOfFormat_known|].
  intros i config video Hi Hv. destruct (Hall i config Hi) as (video' & Hv' & (Hout & _) & _).
  assert (video' = video) by congruence. subst video'.
  rewrite Hout. unfold ResultsViewer.handleDownload, ResultsViewer.extension.
  cbn [ResultsViewer.download out_name out_format out_blob]. rewrite Htruthy.
  unfold extensionOfFormat, DownloadSpec.orMp4, DownloadSpec.knownOfFormat.
  do 2 f_equal.
  repeat match goal with
         | |- context [if JS.includes ?s ?x then _ else _] =>
             destruct (JS.includes s x); try reflexivity
         end.
Qed.

End Outputs.

(** ** The start handler *)

Section StartHandler.

Import VideoProcessor Reading Steps Contract Further.

Variable browser : Browser.

(** The handler starts the processor exactly on these states. *)
Lemma handleStartProcessing_steps (app : App.State) (cancelled : bool) :
  App.steps (App.handleStartProcessing browser app cancelled) <> [] <->
  exists file url,
    App.uploadedVideo app = Some file
    /\ App.videoUrl app = Some url
    /\ JS.truthy url = true
    /\ Forall (wellFormed (App.videoDuration app)) (App.videoConfigs app).
Proof.
  unfold App.handleStartProcessing.
  destruct (App.uploadedVideo app) as [file|]; [destruct (App.videoUrl app) as [url|]|];
    cbn [App.steps]; try (split; [congruence|intros (f & u & H1 & H2 & _); discriminate]).
  destruct (JS.truthy url) eqn:Htruthy; cbn [App.steps].
  - destruct (App.validateConfigs (App.videoDuration app) (App.videoConfigs app))
      as [toast|] eqn:Hvalid; cbn [App.steps].
    + split; [congruence|]. intros (f & u & _ & _ & _ & Hall).
      apply validateConfigs_passes in Hall. congruence.
    + split; [|intros _; apply processVideos_makes_a_step].
      intros _. exists file, url. repeat split; [exact Htruthy|].
      now apply validateConfigs_passes.
  - split; [congruence|]. intros (f & u & _ & [= <-] & Ht & _). congruence.
Qed.

(** What the handler leaves behind once the processor was started. *)
Lemma handleStartProcessing_after (app : App.State) (cancelled : bool) :
  App.steps (App.handleStartProcessing browser app cancelled) <> [] ->
  exists url,
    App.videoUrl app = Some url
    /\ App.handleStartProcessing browser app cancelled
       = let run := processVideos browser url (App.videoConfigs app) cancelled in
         App.mkHandled
           (App.mkState (App.uploadedVideo app) (App.videoUrl app) (App.videoDuration app)
              match result run with
              | Ok results => results
              | Throw _ => App.outputVideos app
              end
              false 100%Q "results" (App.videoConfigs app))
           [match result run with
            | Ok _ => App.mkToast "Success" "Videos processed successfully" false
            | Throw message => App.errorToast message
            end]
           (flag run) (trace run).
Proof.
  unfold App.handleStartProcessing.
  destruct (App.uploadedVideo app) as [file|]; [destruct (App.videoUrl app) as [url|]|];
    cbn [App.steps]; try congruence.
  destruct (JS.truthy url); cbn [App.steps]; try congruence.
  destruct (App.validateConfigs (App.videoDuration app) (App.videoConfigs app));
    cbn [App.steps]; try congruence.
  intros _. exists url. split; reflexivity.
Qed.

(** X8: the handler starts the processor exactly when a video is uploaded,
    its URL is not empty and every configuration has a name that is not
    blank, at least one segment, and segments with [start < end] and
    [end <= duration]; in every other state it makes no step. *)
Theorem X8_start_accepts_exactly_well_formed (app : App.State) (cancelled : bool) :
  (App.steps (App.handleStartProcessing browser app cancelled) <> [] <->
   exists file url,
     App.uploadedVideo app = Some file
     /\ App.videoUrl app = Some url
     /\ JS.truthy url = true
     /\ Forall (wellFormed (App.videoDuration app)) (App.videoConfigs app))
  /\ (App.steps (App.handleStartProcessing browser app cancelled) = [] ->
      refused app cancelled (App.handleStartProcessing browser app cancelled)).
Proof.
  split; [apply handleStartProcessing_steps|].
  unfold App.handleStartProcessing, refused.
  destruct (App.uploadedVideo app) as [file|]; [destruct (App.videoUrl app) as [url|]|];
    cbn; eauto 6.
  destruct (JS.truthy url); cbn; eauto 6.
  destruct (App.validateConfigs (App.videoDuration app) (App.videoConfigs app))
    as [toast|] eqn:Hvalid; cbn.
  - destruct (validateConfigs_toast _ _ _ Hvalid) as [d ->]. eauto 6.
  - intros Hnone. destruct (processVideos_makes_a_step browser url (App.videoConfigs app)
                              cancelled Hnone).
Qed.

Lemma names_in_order (videoConfigs : list VideoConfig) (url : string) (cancelled : bool)
    (results : list OutputVideo) :
  result (processVideos browser url videoConfigs cancelled) = Ok results ->
  List.map out_name results = List.map name videoConfigs.
Proof.
  intros Hok. pose proof (processVideos_ok_length _ _ _ _ _ Hok) as Hlen.
  apply processVideos_outputs in Hok as (videoProperties & _ & Hall).
  apply nth_error_ext. intros n. rewrite !nth_error_map.
  destruct (nth_error videoConfigs n) as [config|] eqn:Hn.
  - destruct (Hall n config Hn) as (video & -> & (-> & _) & _). reflexivity.
  - apply nth_error_None in Hn. rewrite <- Hlen in Hn.
    apply nth_error_None in Hn. now rewrite Hn.
Qed.

(** X9: once the processor was started, on the URL of the uploaded
    video and the configurations of the state, the handler ends with
    [isProcessing] false, the progress at 100 and the results tab, and the
    configurations as they were, whether the run returned or failed.  When
    the run returned, [outputVideos] holds its results, one for each
    configuration with the names in order, and the one toast says success;
    when it failed, [outputVideos] is what it was and the one toast shows
    the message of the failure. *)
Theorem X9_start_outcome (app : App.State) (cancelled : bool) :
  App.steps (App.handleStartProcessing browser app cancelled) <> [] ->
  let h := App.handleStartProcessing browser app cancelled in
  exists url,
    App.videoUrl app = Some url
    /\ App.steps h = trace (processVideos browser url (App.videoConfigs app) cancelled)
    /\ App.isProcessing (App.state h) = false
    /\ (App.progress (App.state h) == 100)%Q
    /\ App.activeTab (App.state h) = "results"
    /\ App.videoConfigs (App.state h) = App.videoConfigs app
    /\ (forall results,
          result (processVideos browser url (App.videoConfigs app) cancelled) = Ok results ->
          App.outputVideos (App.state h) = results
          /\ List.map out_name results = List.map name (App.videoConfigs app)
          /\ App.toasts h = [App.mkToast "Success" "Videos processed successfully" false])
    /\ (forall message,
          result (processVideos browser url (App.videoConfigs app) cancelled)
          = Throw message ->
          App.outputVideos (App.state h) = App.outputVideos app
          /\ App.toasts h = [App.errorToast message]).
Proof.
  intros Hstarted. cbv zeta.
  destruct (handleStartProcessing_after app cancelled Hstarted) as (url & Hurl & ->).
  exists url. split; [exact Hurl|].
  cbv zeta. cbn [App.state App.toasts App.steps App.isProcessing App.progress
                   App.activeTab App.videoConfigs App.outputVideos].
  repeat (split; [reflexivity|]).
  split.
  - intros results Hres. rewrite Hres. repeat split.
    eapply names_in_order. exact Hres.
  - intros message Hres. rewrite Hres. split; reflexivity.
Qed.

(** X10: an empty list of configurations is not refused.  With a video
    uploaded, the processor is started; no progress is reported; when the
    source loads the handler shows success and empties [outputVideos], even
    if the user cancelled while it loaded; when it does not load, the
    failure is shown and [outputVideos] stays. *)
Theorem X10_start_with_no_configuration (app : App.State) (cancelled : bool)
    (file : File) (url : string) :
  App.uploadedVideo app = Some file ->
  App.videoUrl app = Some url ->
  JS.truthy url = true ->
  App.videoConfigs app = [] ->
  let h := App.handleStartProcessing browser app cancelled in
  App.steps h <> []
  /\ progressValues (App.steps h) = []
  /\ (sourceLoad browser <> LoadError ->
      App.outputVideos (App.state h) = []
      /\ App.toasts h = [App.mkToast "Success" "Videos processed successfully" false])
  /\ (sourceLoad browser = LoadError ->
      App.outputVideos (App.state h) = App.outputVideos app
      /\ App.toasts h = [App.errorToast "Failed to load video"]).
Proof.
  intros Hfile Hurl Htruthy Hnone. cbv zeta.
  unfold App.handleStartProcessing. rewrite Hfile, Hurl, Htruthy, Hnone.
  cbn [App.validateConfigs App.steps App.state App.toasts App.outputVideos].
  rewrite processVideos_run. cbv zeta. unfold runProperties, cancelSteps.
  destruct (sourceLoad browser) as [videoWidth videoHeight mozHasAudio|];
    destruct (cancelDuring browser AtSourceLoad); cbn;
    (split; [discriminate|]); (split; [reflexivity|]);
    split; intros H; try discriminate H; try (now destruct H); auto.
Qed.

End StartHandler.

(** ** Upload, then start *)

Section UploadThenStart.

Import VideoProcessor Further.

Lemma floor_positive (duration : Q) :
  (0 < VideoConfigurator.floorOf duration)%Q <-> (1 <= duration)%Q.
Proof.
  unfold VideoConfigurator.floorOf. split.
  - intros H. apply Qle_trans with (inject_Z (Qfloor duration)); [|apply Qfloor_le].
    change 0%Q with (inject_Z 0) in H. rewrite <- Zlt_Qlt in H.
    change 1%Q with (inject_Z 1). rewrite <- Zle_Qle. lia.
  - intros H. apply Qfloor_resp_le in H. change (Qfloor 1) with 1%Z in H.
    change 0%Q with (inject_Z 0). rewrite <- Zlt_Qlt. lia.
Qed.

(** The configuration that an upload and a new video start with is well
    formed exactly for a source of one second or more. *)
Lemma default_wellFormed (duration : Q) (configName : string) :
  JS.allWhiteSpace configName = false ->
  wellFormed duration (mkConfig configName [VideoConfigurator.defaultSegment duration])
  <-> (1 <= duration)%Q.
Proof.
  intros Hname. unfold wellFormed, inRange. cbn [name segments]. split.
  - intros (_ & _ & Hall). inversion_clear Hall as [|? ? [Hlt _] _].
    now apply floor_positive.
  - intros Hd. repeat split; [exact Hname|discriminate|].
    constructor; [|constructor]. split.
    + now apply floor_positive.
    + apply Qfloor_le.
Qed.

(** X11: an upload whose metadata loads puts the file, its URL and its
    duration into the state, replaces all configurations by [Video 1] with
    the one segment from 0 to the floor of the duration, and keeps the old
    results.  Started right after it, the processor runs exactly when the
    URL is not empty and the source lasts one second or more: a shorter
    source gives the segment from 0 to 0, which is refused. *)
Theorem X11_upload_then_start (browser : Browser) (objectUrl : string) (duration : Q)
    (file : File) (app : App.State) (cancelled : bool) :
  let uploaded := AppHandlers.handleVideoUpload objectUrl (Some duration) file app in
  App.videoConfigs uploaded
  = [mkConfig "Video 1" [mkSegment 0%Q (inject_Z (Qfloor duration))]]
  /\ App.outputVideos uploaded = App.outputVideos app
  /\ (App.steps (App.handleStartProcessing browser uploaded cancelled) <> [] <->
      JS.truthy objectUrl = true /\ (1 <= duration)%Q).
Proof.
  cbv zeta. split; [reflexivity|]. split; [reflexivity|].
  rewrite handleStartProcessing_steps.
  cbn [AppHandlers.handleVideoUpload App.uploadedVideo App.videoUrl App.videoDuration
         App.videoConfigs].
  split.
  - intros (f & u & _ & [= <-] & Htruthy & Hall). split; [exact Htruthy|].
    inversion_clear Hall as [|? ? Hwell _].
    now apply (default_wellFormed duration "Video 1").
  - intros (Htruthy & Hd). exists file, objectUrl. repeat split; [exact Htruthy|].
    constructor; [|constructor]. now apply (default_wellFormed duration "Video 1").
Qed.

End UploadThenStart.

(** ** The configurator *)

Section Configurator.

Import VideoConfigurator.

Lemma filterIndex_all {A} (keep : nat -> bool) (base : nat) (l : list A) :
  (forall index, base <= index -> keep index = true) ->
  filterIndex keep base l = l.
Proof.
  revert base. induction l as [|a rest IH]; intros base Hkeep; [reflexivity|].
  cbn [filterIndex]. rewrite (Hkeep base (le_n _)), IH; [reflexivity|].
  intros index Hindex. apply Hkeep. lia.
Qed.

Lemma filterIndex_without {A} (base index : nat) (l : list A) :
  filterIndex (fun k => negb (k =? base + index)%nat) base l = without index l.
Proof.
  unfold without. revert base index.
  induction l as [|a rest IH]; intros base index.
  - now destruct index.
  - cbn [filterIndex]. destruct index as [|index].
    + rewrite Nat.add_0_r, Nat.eqb_refl. cbn [negb firstn skipn app].
      apply filterIndex_all. intros k Hk.
      apply negb_true_iff, Nat.eqb_neq. lia.
    + replace (base =? base + S index)%nat with false
        by (symmetry; apply Nat.eqb_neq; lia).
      cbn [negb firstn skipn app]. f_equal.
      replace (base + S index) with (S base + index) by lia. apply IH.
Qed.

Lemma updateAt_Some {A} (l : list A) (index : nat) (change : A -> option A)
    (l' : list A) :
  updateAt l index change = Some l' <->
  exists a a',
    nth_error l index = Some a /\ change a = Some a' /\ l' = replaced index a' l.
Proof.
  unfold replaced. revert index l'. induction l as [|a rest IH]; intros index l'.
  - cbn. split; [discriminate|]. intros (a & a' & H & _). now destruct index.
  - destruct index as [|index]; cbn [updateAt nth_error firstn skipn app].
    + split.
      * destruct (change a) as [a'|] eqn:Ha; [|discriminate].
        intros [= <-]. exists a, a'. auto.
      * intros (b & b' & [= <-] & -> & ->). reflexivity.
    + split.
      * destruct (updateAt rest index change) as [rest'|] eqn:Hrest; [|discriminate].
        intros [= <-]. apply IH in Hrest as (b & b' & Hb & Hchange & ->).
        exists b, b'. auto.
      * intros (b & b' & Hb & Hchange & ->).
        assert (Hrest : updateAt rest index change
                        = Some (firstn index rest ++ b' :: skipn (S index) rest)).
        { apply IH. exists b, b'. auto. }
        cbn [skipn] in Hrest. now rewrite Hrest.
Qed.

Lemma updateAt_None {A} (l : list A) (index : nat) (change : A -> option A) :
  updateAt l index change = None <->
  nth_error l index = None
  \/ exists a, nth_error l index = Some a /\ change a = None.
Proof.
  destruct (updateAt l index change) as [l'|] eqn:Hupdate.
  - apply updateAt_Some in Hupdate as (a & a' & Ha & Hchange & _).
    split; [discriminate|]. intros [H|(b & Hb & Hnone)]; congruence.
  - split; [intros _|reflexivity].
    destruct (nth_error l index) as [a|] eqn:Ha; [|now left].
    right. exists a. split; [reflexivity|].
    destruct (change a) as [a'|] eqn:Hchange; [|reflexivity].
    assert (Hsome : updateAt l index change = Some (replaced index a' l)).
    { apply updateAt_Some. exists a, a'. auto. }
    congruence.
Qed.

Lemma without_length {A} (index : nat) (l : list A) :
  List.length (without index l)
  = if (index <? List.length l)%nat then List.length l - 1 else List.length l.
Proof.
  unfold without. rewrite length_app, length_firstn, length_skipn.
  destruct (Nat.ltb_spec index (List.length l)); lia.
Qed.

(** X12: removing a video takes out exactly the configuration at the given
    index and keeps the others in order; an index out of range changes
    nothing.  Removing a segment does the same inside the configuration at
    [videoIndex], keeps its name and the other configurations, and fails
    when there is no such configuration. *)
Theorem X12_remove_takes_out_one (videoConfigs : list VideoConfig)
    (videoIndex segmentIndex : nat) :
  removeVideo videoConfigs videoIndex = without videoIndex videoConfigs
  /\ (List.length videoConfigs <= videoIndex ->
      removeVideo videoConfigs videoIndex = videoConfigs)
  /\ (videoIndex < List.length videoConfigs ->
      List.length (removeVideo videoConfigs videoIndex) = List.length videoConfigs - 1)
  /\ (forall config,
        nth_error videoConfigs videoIndex = Some config ->
        removeSegment videoConfigs videoIndex segmentIndex
        = Some (replaced videoIndex
                  (mkConfig (name config) (without segmentIndex (segments config)))
                  videoConfigs))
  /\ (nth_error videoConfigs videoIndex = None ->
      removeSegment videoConfigs videoIndex segmentIndex = None).
Proof.
  assert (Hshape : removeVideo videoConfigs videoIndex = without videoIndex videoConfigs).
  { unfold removeVideo. apply (filterIndex_without 0 videoIndex). }
  split; [exact Hshape|]. split; [|split; [|split]].
  - intros Hout. rewrite Hshape. unfold without.
    rewrite firstn_all2, skipn_all2 by lia. apply app_nil_r.
  - intros Hin. rewrite Hshape, without_length.
    destruct (Nat.ltb_spec videoIndex (List.length videoConfigs)); lia.
  - intros config Hconfig. unfold removeSegment. apply updateAt_Some.
    exists config. eexists. split; [exact Hconfig|]. split; [reflexivity|].
    now rewrite (filterIndex_without 0 segmentIndex).
  - intros Hnone. unfold removeSegment. apply updateAt_None. now left.
Qed.

Lemma video_name_not_blank (suffix : string) :
  JS.allWhiteSpace ("Video " ++ suffix) = false.
Proof. reflexivity. Qed.

(** X13: a new video is put after the configurations there are, which stay
    as they are.  The start handler accepts the new list exactly when it
    accepted the old one and the source lasts one second or more: for a
    shorter source the new configuration has the segment from 0 to 0. *)
Theorem X13_new_video_after_the_others (videoConfigs : list VideoConfig)
    (videoDuration : Q) :
  List.length (addNewVideo videoConfigs videoDuration) = S (List.length videoConfigs)
  /\ (forall k config,
        nth_error videoConfigs k = Some config ->
        nth_error (addNewVideo videoConfigs videoDuration) k = Some config)
  /\ nth_error (addNewVideo videoConfigs videoDuration) (List.length videoConfigs)
     = Some (mkConfig ("Video " ++ decimal (List.length videoConfigs + 1))
               [mkSegment 0%Q (inject_Z (Qfloor videoDuration))])
  /\ (Forall (wellFormed videoDuration) (addNewVideo videoConfigs videoDuration) <->
      Forall (wellFormed videoDuration) videoConfigs /\ (1 <= videoDuration)%Q).
Proof.
  unfold addNewVideo. split; [rewrite length_app; cbn; lia|]. split; [|split].
  - intros k config Hk. rewrite nth_error_app1; [exact Hk|].
    apply nth_error_Some. congruence.
  - now rewrite nth_error_app2, Nat.sub_diag by lia.
  - rewrite Forall_app. split.
    + intros (Hold & Hnew). split; [exact Hold|].
      inversion_clear Hnew as [|? ? Hwell _].
      eapply default_wellFormed; [|exact Hwell]. apply video_name_not_blank.
    + intros (Hold & Hd). split; [exact Hold|]. constructor; [|constructor].
      apply default_wellFormed; [apply video_name_not_blank|exact Hd].
Qed.

(** X14: moving a slider fails exactly when there is no such configuration
    or no such segment.  Otherwise it sets the one field of the one
    segment to the value and leaves the other field, the other segments,
    the name and the other configurations as they are.  No value is
    refused here: a start put at or after the end gives a list that the
    start handler will not accept. *)
Theorem X14_slider_sets_one_field (videoConfigs : list VideoConfig)
    (videoIndex segmentIndex : nat) (field : TimeField) (value : Q) :
  (updateSegmentTime videoConfigs videoIndex segmentIndex field value = None <->
   nth_error videoConfigs videoIndex = None
   \/ exists config,
        nth_error videoConfigs videoIndex = Some config
        /\ nth_error (segments config) segmentIndex = None)
  /\ (forall videoConfigs',
        updateSegmentTime videoConfigs videoIndex segmentIndex field value
        = Some videoConfigs' ->
        exists config segment,
          nth_error videoConfigs videoIndex = Some config
          /\ nth_error (segments config) segmentIndex = Some segment
          /\ videoConfigs'
             = replaced videoIndex
                 (mkConfig (name config)
                    (replaced segmentIndex (setTime field value segment) (segments config)))
                 videoConfigs
          /\ (field = StartField -> (seg_end segment <= value)%Q ->
              forall videoDuration, ~ Forall (wellFormed videoDuration) videoConfigs')).
Proof.
  unfold updateSegmentTime. split.
  - rewrite updateAt_None. split.
    + intros [Hnone|(config & Hconfig & Hfail)]; [now left|].
      right. exists config. split; [exact Hconfig|].
      destruct (updateAt (segments config) segmentIndex
                  (fun segment => Some (setTime field value segment))) as [segs|] eqn:Hsegs;
        [discriminate|].
      apply updateAt_None in Hsegs as [Hsegs|(segment & _ & Habsurd)];
        [exact Hsegs|discriminate].
    + intros [Hnone|(config & Hconfig & Hsegment)]; [now left|].
      right. exists config. split; [exact Hconfig|].
      assert (Hsegs : updateAt (segments config) segmentIndex
                        (fun segment => Some (setTime field value segment)) = None)
        by (apply updateAt_None; now left).
      now rewrite Hsegs.
  - intros videoConfigs' Hupdate.
    apply updateAt_Some in Hupdate as (config & config' & Hconfig & Hchange & ->).
    destruct (updateAt (segments config) segmentIndex
                (fun segment => Some (setTime field value segment))) as [segs|] eqn:Hsegs;
      [|discriminate].
    injection Hchange as <-.
    apply updateAt_Some in Hsegs as (segment & segment' & Hsegment & [= <-] & ->).
    exists config, segment. repeat split; try assumption.
    intros -> Hlate videoDuration Hall. unfold replaced in Hall.
    apply Forall_app in Hall as (_ & Hall). inversion_clear Hall as [|? ? Hwell _].
    destruct Hwell as (_ & _ & Hsegs). cbn [segments] in Hsegs.
    apply Forall_app in Hsegs as (_ & Hsegs). inversion_clear Hsegs as [|? ? [Hlt _] _].
    cbn in Hlt. exact (Qlt_not_le _ _ Hlt Hlate).
Qed.

Lemma Forall_without {A} (P : A -> Prop) (index : nat) (l : list A) :
  Forall P l -> Forall P (without index l).
Proof.
  intros H. unfold without. apply Forall_app. split.
  - rewrite <- (firstn_skipn index l) in H. now apply Forall_app in H.
  - rewrite <- (firstn_skipn (S index) l) in H. now apply Forall_app in H.
Qed.

Lemma Forall_replaced {A} (P : A -> Prop) (index : nat) (a : A) (l : list A) :
  Forall P l -> P a -> Forall P (replaced index a l).
Proof.
  intros H Ha. unfold replaced. apply Forall_app. split.
  - rewrite <- (firstn_skipn index l) in H. now apply Forall_app in H.
  - constructor; [exact Ha|].
    rewrite <- (firstn_skipn (S index) l) in H. now apply Forall_app in H.
Qed.

(** X15: every configuration keeps at least one segment under all that the
    user can do in the configurator, because the button that removes a
    segment is disabled on a configuration of one segment; the
    configurations of the first render and of an upload have one. *)
Theorem X15_configurations_keep_a_segment (videoDuration : Q)
    (videoConfigs videoConfigs' : list VideoConfig) (a : Action) :
  Forall hasSegments videoConfigs ->
  perform videoDuration videoConfigs a = Some videoConfigs' ->
  Forall hasSegments videoConfigs'
  /\ Forall hasSegments (App.videoConfigs AppHandlers.initialState)
  /\ forall objectUrl metadata file app,
       Forall hasSegments (App.videoConfigs app) ->
       Forall hasSegments
         (App.videoConfigs (AppHandlers.handleVideoUpload objectUrl metadata file app)).
Proof.
  intros Hall Hperform. split; [|split].
  - destruct a as [|videoIndex|videoIndex newName|videoIndex|videoIndex segmentIndex
                  |videoIndex segmentIndex field value]; cbn [perform] in Hperform.
    + injection Hperform as <-. unfold addNewVideo. apply Forall_app. split; [exact Hall|].
      constructor; [discriminate|constructor].
    + injection Hperform as <-. unfold removeVideo.
      rewrite (filterIndex_without 0 videoIndex). now apply Forall_without.
    + apply updateAt_Some in Hperform as (config & config' & Hconfig & [= <-] & ->).
      apply Forall_replaced; [exact Hall|].
      rewrite Forall_forall in Hall. apply (Hall config). eapply nth_error_In. exact Hconfig.
    + apply updateAt_Some in Hperform as (config & config' & Hconfig & [= <-] & ->).
      apply Forall_replaced; [exact Hall|]. unfold hasSegments. cbn [segments].
      intros Hnil. apply app_eq_nil in Hnil as (_ & Hnil). discriminate.
    + destruct (nth_error videoConfigs videoIndex) as [config|] eqn:Hconfig; [|discriminate].
      unfold removeSegmentDisabled in Hperform.
      destruct (Nat.leb_spec (List.length (segments config)) 1) as [Hfew|Hmany].
      * now injection Hperform as <-.
      * apply updateAt_Some in Hperform as (config0 & config' & Hconfig0 & [= <-] & ->).
        assert (config0 = config) by congruence. subst config0.
        apply Forall_replaced; [exact Hall|]. unfold hasSegments. cbn [segments].
        rewrite (filterIndex_without 0 segmentIndex). intros Hnil.
        apply (f_equal (@List.length _)) in Hnil. rewrite without_length in Hnil.
        cbn [List.length] in Hnil.
        destruct (Nat.ltb_spec segmentIndex (List.length (segments config))); lia.
    + apply updateAt_Some in Hperform as (config & config' & Hconfig & Hchange & ->).
      apply Forall_replaced; [exact Hall|].
      destruct (updateAt (segments config) segmentIndex
                  (fun segment => Some (setTime field value segment))) as [segs|] eqn:Hsegs;
        [|discriminate].
      injection Hchange as <-.
      apply updateAt_Some in Hsegs as (segment & segment' & _ & _ & ->).
      unfold hasSegments, replaced. cbn [segments]. intros Hnil.
      apply app_eq_nil in Hnil as (_ & Hnil). discriminate.
  - repeat constructor. discriminate.
  - intros objectUrl [duration|] file app Happ; cbn; [|exact Happ].
    repeat constructor. discriminate.
Qed.

Lemma replaced_others {A} (index : nat) (a : A) (l : list A) :
  index < List.length l ->
  List.length (replaced index a l) = List.length l
  /\ nth_error (replaced index a l) index = Some a
  /\ forall k, k <> index -> nth_error (replaced index a l) k = nth_error l k.
Proof.
  intros Hindex. unfold replaced.
  assert (Hfirst : List.length (firstn index l) = index)
    by (rewrite length_firstn; lia).
  split; [|split].
  - rewrite length_app. cbn [List.length]. rewrite Hfirst, length_skipn. lia.
  - rewrite nth_error_app2, Hfirst, Nat.sub_diag by lia. reflexivity.
  - intros k Hk. destruct (Nat.lt_ge_cases k index) as [Hlt|Hge].
    + rewrite nth_error_app1 by lia. rewrite nth_error_firstn.
      destruct (Nat.ltb_spec k index); [reflexivity|lia].
    + rewrite nth_error_app2 by lia. rewrite Hfirst.
      destruct (k - index) as [|m] eqn:Hm; [lia|]. cbn [nth_error].
      rewrite nth_error_skipn. f_equal. lia.
Qed.

(** X16: typing a name and adding a segment fail exactly when there is no
    such configuration.  Otherwise the first changes the name and keeps the
    segments, the second keeps the name and puts the segment from 0 to the
    floor of the duration after the segments there are; both keep the
    number of configurations and leave every other configuration as it
    is. *)
Theorem X16_rename_and_add_segment (videoConfigs : list VideoConfig) (videoDuration : Q)
    (videoIndex : nat) (newName : string) :
  (nth_error videoConfigs videoIndex = None ->
   updateVideoName videoConfigs videoIndex newName = None
   /\ addSegment videoConfigs videoDuration videoIndex = None)
  /\ (forall config,
        nth_error videoConfigs videoIndex = Some config ->
        exists renamed extended,
          updateVideoName videoConfigs videoIndex newName = Some renamed
          /\ addSegment videoConfigs videoDuration videoIndex = Some extended
          /\ nth_error renamed videoIndex = Some (mkConfig newName (segments config))
          /\ nth_error extended videoIndex
             = Some (mkConfig (name config)
                       (segments config
                          ++ [mkSegment 0%Q (inject_Z (Qfloor videoDuration))]))
          /\ List.length renamed = List.length videoConfigs
          /\ List.length extended = List.length videoConfigs
          /\ forall k,
               k <> videoIndex ->
               nth_error renamed k = nth_error videoConfigs k
               /\ nth_error extended k = nth_error videoConfigs k).
Proof.
  split.
  - intros Hnone. split; apply updateAt_None; now left.
  - intros config Hconfig.
    assert (Hindex : videoIndex < List.length videoConfigs)
      by (apply nth_error_Some; congruence).
    exists (replaced videoIndex (mkConfig newName (segments config)) videoConfigs),
      (replaced videoIndex
         (mkConfig (name config) (segments config ++ [defaultSegment videoDuration]))
         videoConfigs).
    destruct (replaced_others videoIndex (mkConfig newName (segments config))
                videoConfigs Hindex) as (Hlen & Hat & Hother).
    destruct (replaced_others videoIndex
                (mkConfig (name config) (segments config ++ [defaultSegment videoDuration]))
                videoConfigs Hindex) as (Hlen' & Hat' & Hother').
    repeat split; auto.
    + apply updateAt_Some. exists config. eexists. eauto.
    + apply updateAt_Some. exists config. eexists. eauto.
Qed.

End Configurator.

(** ** A cancellation left over *)

(** X17: the flag that a run finds does not matter: a cancellation left
    over from an earlier run, or pressed before the start, does not end the
    new run, which is the same call, result, flag and steps, as with the
    flag clear; so is the start handler once it starts the processor. *)
Theorem X17_left_over_cancellation_is_dropped (browser : VideoProcessor.Browser)
    (videoUrl : string) (videoConfigs : list VideoConfig) (app : App.State) :
  VideoProcessor.processVideos browser videoUrl videoConfigs true
  = VideoProcessor.processVideos browser videoUrl videoConfigs false
  /\ (App.steps (App.handleStartProcessing browser app false) <> [] ->
      App.handleStartProcessing browser app true
      = App.handleStartProcessing browser app false).
Proof.
  assert (Hsame : forall url configs,
             VideoProcessor.processVideos browser url configs true
             = VideoProcessor.processVideos browser url configs false)
    by (intros url configs; now rewrite !processVideos_run).
  split; [apply Hsame|].
  unfold App.handleStartProcessing.
  destruct (App.uploadedVideo app); [destruct (App.videoUrl app) as [url|]|];
    cbn [App.steps]; try congruence.
  destruct (JS.truthy url); cbn [App.steps]; try congruence.
  destruct (App.validateConfigs (App.videoDuration app) (App.videoConfigs app));
    cbn [App.steps]; try congruence.
  intros _. now rewrite Hsame.
Qed.

(** ** The further properties on the scenarios *)

Section FurtherScenarios.

Import VideoProcessor Reading Steps Contract Further Samples VideoConfigurator.

(** An extension in upper and lower case gives the format of [webm]. *)
Lemma X2_mixed_case_extension :
  format (getVideoProperties 1920 1080 false ("clip" ++ "." ++ "WebM"))
  = formatOfExtension (JS.toLowerCase "WebM")
  /\ format (getVideoProperties 1920 1080 false "WebM")
     = formatOfExtension (JS.toLowerCase "WebM").
Proof. apply (X2_format_from_last_extension 1920 1080 false "clip" "WebM"). reflexivity. Defined.


Lemma X6_scenarios :
  exists videoProperties,
    runProperties (goodBrowser never) sourceUrl = Some videoProperties
    /\ forall i config,
         nth_error [clipA; clipC] i = Some config ->
         exists video,
           nth_error expectedOutputs i = Some video
           /\ outputFrom (goodBrowser never) videoProperties i config video
           /\ recordedType (blob_type (out_blob video))
           /\ (~ mp4Recording (goodBrowser never) videoProperties ->
               blob_type (out_blob video) = "video/webm").
Proof.
  apply (X6_output_records (goodBrowser never) sourceUrl [clipA; clipC] false
           expectedOutputs).
  vm_compute. reflexivity.
Defined.

Lemma X7_scenarios :
  exists videoProperties,
    runProperties (goodBrowser never) sourceUrl = Some videoProperties
    /\ In (extensionOfFormat (format videoProperties)) ["mp4"; "webm"; "ogg"; "mov"]
    /\ forall i config video,
         nth_error [clipA; clipC] i = Some config ->
         nth_error expectedOutputs i = Some video ->
         ResultsViewer.download (ResultsViewer.handleDownload video)
         = (name config ++ "." ++ extensionOfFormat (format videoProperties))%string.
Proof.
  apply (X7_download_extension_from_source (goodBrowser never) sourceUrl [clipA; clipC]
           false expectedOutputs).
  vm_compute. reflexivity.
Defined.

(** A recording that goes well, read back. *)
Lemma X4_good_segment :
  seg_loaded (goodSegment [1; 2]) = true
  /\ captureStream (seg_capture (goodSegment [1; 2])) <> None
  /\ seg_recorder (goodSegment [1; 2]) = None
  /\ blob_data (mkBlob [1; 2; 1; 2] "video/mp4") = List.concat (seg_chunks (goodSegment [1; 2]))
  /\ recordedType (blob_type (mkBlob [1; 2; 1; 2] "video/mp4"))
  /\ (blob_type (mkBlob [1; 2; 1; 2] "video/mp4") = "video/mp4" ->
      mp4Recording (goodBrowser never) sourceProperties).
Proof.
  apply (X4_recorded_blob (goodBrowser never) sourceProperties (goodSegment [1; 2])
           (mkBlob [1; 2; 1; 2] "video/mp4")).
  reflexivity.
Defined.

(** The first scenario through the start handler. *)
Lemma X9_clip_A_started :
  let app := readyApp [clipA] in
  let h := App.handleStartProcessing (goodBrowser never) app false in
  exists url,
    App.videoUrl app = Some url
    /\ App.steps h = trace (processVideos (goodBrowser never) url (App.videoConfigs app) false)
    /\ App.isProcessing (App.state h) = false
    /\ (App.progress (App.state h) == 100)%Q
    /\ App.activeTab (App.state h) = "results"
    /\ App.videoConfigs (App.state h) = App.videoConfigs app
    /\ (forall results,
          result (processVideos (goodBrowser never) url (App.videoConfigs app) false)
          = Ok results ->
          App.outputVideos (App.state h) = results
          /\ List.map out_name results = List.map name (App.videoConfigs app)
          /\ App.toasts h = [App.mkToast "Success" "Videos processed successfully" false])
    /\ (forall message,
          result (processVideos (goodBrowser never) url (App.videoConfigs app) false)
          = Throw message ->
          App.outputVideos (App.state h) = App.outputVideos app
          /\ App.toasts h = [App.errorToast message]).
Proof.
  apply (X9_start_outcome (goodBrowser never) (readyApp [clipA]) false).
  vm_compute. discriminate.
Defined.

(** No configuration at all, in the good browser. *)
Lemma X10_nothing_configured :
  let h := App.handleStartProcessing (goodBrowser never) (readyApp []) false in
  App.steps h <> []
  /\ progressValues (App.steps h) = []
  /\ (sourceLoad (goodBrowser never) <> LoadError ->
      App.outputVideos (App.state h) = []
      /\ App.toasts h = [App.mkToast "Success" "Videos processed successfully" false])
  /\ (sourceLoad (goodBrowser never) = LoadError ->
      App.outputVideos (App.state h) = App.outputVideos (readyApp [])
      /\ App.toasts h = [App.errorToast "Failed to load video"]).
Proof.
  apply (X10_start_with_no_configuration (goodBrowser never) (readyApp []) false
           uploaded sourceUrl); reflexivity.
Defined.

(** A click on the disabled button of the only segment of [Clip A]. *)
Lemma X15_only_segment_stays :
  Forall hasSegments [clipA]
  /\ Forall hasSegments (App.videoConfigs AppHandlers.initialState)
  /\ forall objectUrl metadata file app,
       Forall hasSegments (App.videoConfigs app) ->
       Forall hasSegments
         (App.videoConfigs (AppHandlers.handleVideoUpload objectUrl metadata file app)).
Proof.
  apply (X15_configurations_keep_a_segment 10 [clipA] [clipA] (ClickRemoveSegment 0 0)).
  - repeat constructor. discriminate.
  - reflexivity.
Defined.

End FurtherScenarios.
